(** * Portus: a shallow embedding of the request-proxying core

    The development follows the Go packages of the repository:
    [models] (data structures), [middleware] (authentication and request
    ids), [main] (middleware chaining), [handlers] (request translation,
    header forwarding, time-outs) and [config] (validation).

    Go strings and byte slices are sequences of bytes: [string].  Go maps
    are [gmap]s; a map that may be [nil] is an [option] of a [gmap].  Go
    [int] is a 64-bit integer, kept as a [Z] with the wrap-around written
    out where the code computes with it. *)

From Stdlib Require Import ZArith QArith Ascii String List.
From stdpp Require Import base option list gmap strings fin_maps.

Local Open Scope string_scope.
Local Open Scope Z_scope.

#[local] Set Warnings "-register-all,-clear-no-such-hyp".


(** ** Pieces of the Go standard library against which the code is written *)

Module golang.

(** The double-quote byte, for the JSON literals of the source. *)
Definition dquote : string := String "034"%char EmptyString.

(** [strings.ToLower], on the ASCII range.  On other runes Go lowers by the
    Unicode tables; no rune outside A..Z lowers to one of the letters of
    the one pattern the code compares with (the word bearer), so the
    prefix test of [AuthMiddleware] reads the same bytes. *)
Definition lowerByte (c : ascii) : ascii :=
  let n := nat_of_ascii c in
  if ((65 <=? n)%nat && (n <=? 90)%nat)%bool then ascii_of_nat (n + 32) else c.

Definition upperByte (c : ascii) : ascii :=
  let n := nat_of_ascii c in
  if ((97 <=? n)%nat && (n <=? 122)%nat)%bool then ascii_of_nat (n - 32) else c.

Fixpoint strings_ToLower (s : string) : string :=
  match s with
  | EmptyString => EmptyString
  | String c s' => String (lowerByte c) (strings_ToLower s')
  end.

(** [strings.HasPrefix s p]: [s] begins with the bytes of [p]. *)
Fixpoint strings_HasPrefix (s p : string) {struct p} : bool :=
  match p with
  | EmptyString => true
  | String c p' =>
      match s with
      | EmptyString => false
      | String d s' => Ascii.eqb c d && strings_HasPrefix s' p'
      end
  end.

(** The slice expression [s[n:]], for [n <= len(s)]. *)
Fixpoint slice_from (n : nat) (s : string) : string :=
  match n, s with
  | O, _ => s
  | S n', String _ s' => slice_from n' s'
  | S _, EmptyString => EmptyString
  end.

(** *** [net/textproto]: canonical header keys *)

(** [validHeaderFieldByte]: the token bytes of RFC 7230. *)
Definition validHeaderFieldByte (c : ascii) : bool :=
  let n := nat_of_ascii c in
  (((48 <=? n) && (n <=? 57)) || ((65 <=? n) && (n <=? 90))
   || ((97 <=? n) && (n <=? 122))
   || bool_decide (n ∈ [33; 35; 36; 37; 38; 39; 42; 43; 45; 46; 94; 95; 96; 124; 126]))%nat%bool.

Fixpoint allValid (s : string) : bool :=
  match s with
  | EmptyString => true
  | String c s' => validHeaderFieldByte c && allValid s'
  end.

(** The rewriting loop of [canonicalMIMEHeaderKey]: upper case at the
    start and after each dash, lower case elsewhere. *)
Fixpoint canonLoop (upper : bool) (s : string) : string :=
  match s with
  | EmptyString => EmptyString
  | String c s' =>
      let c' := if upper then upperByte c else lowerByte c in
      String c' (canonLoop (bool_decide (c' = "-"%char)) s')
  end.

(** [http.CanonicalHeaderKey]: a key holding a byte that is not a token
    byte (a space included) is returned as it is. *)
Definition CanonicalHeaderKey (s : string) : string :=
  if allValid s then canonLoop true s else s.

(** *** [net/http.Header] *)

Abbreviation Header := (gmap string (list string)).

Definition Header_Get (h : Header) (key : string) : string :=
  match h !! CanonicalHeaderKey key with
  | Some (v :: _) => v
  | _ => EmptyString
  end.

Definition Header_Values (h : Header) (key : string) : list string :=
  default [] (h !! CanonicalHeaderKey key).

Definition Header_Set (key value : string) (h : Header) : Header :=
  <[CanonicalHeaderKey key := [value]]> h.

Definition Header_Add (key value : string) (h : Header) : Header :=
  let k := CanonicalHeaderKey key in
  <[k := (default [] (h !! k) ++ [value])%list]> h.

Definition Header_Del (key : string) (h : Header) : Header :=
  delete (CanonicalHeaderKey key) h.

(** *** [net/http.ResponseWriter]

    The writer of the server (and of [httptest.ResponseRecorder]): the
    header map is live until the status line is written; [WriteHeader]
    freezes it, a second [WriteHeader] is ignored, and a [Write] before
    any [WriteHeader] writes status 200 first. *)
Record recorder := Recorder {
  rec_header : Header;
  rec_wrote : option (Z * Header);
  rec_body : string
}.

Definition newRecorder : recorder := Recorder ∅ None EmptyString.

Definition rec_WriteHeader (code : Z) (r : recorder) : recorder :=
  match rec_wrote r with
  | Some _ => r
  | None => Recorder (rec_header r) (Some (code, rec_header r)) (rec_body r)
  end.

Definition rec_Write (data : string) (r : recorder) : recorder :=
  let r' := rec_WriteHeader 200 r in
  Recorder (rec_header r') (rec_wrote r') (rec_body r' +:+ data).

Definition rec_mapHeader (f : Header → Header) (r : recorder) : recorder :=
  Recorder (f (rec_header r)) (rec_wrote r) (rec_body r).

Definition StatusUnauthorized : Z := 401.

End golang.
Export golang.

(** ** Package [models] *)

Module models.

(** [ThinkingConfig]: extended thinking for Anthropic models. *)
Record ThinkingConfig := {
  th_Type : string;
  th_BudgetTokens : Z
}.

(** A value held in an [interface{}]: what [encoding/json] decodes into
    one (nil, bool, float64, string, slice, map), and the two kinds of
    value the handlers store into a body map themselves (an [int] and a
    [*ThinkingConfig]).  A float64 is kept as the rational it denotes. *)
Inductive any :=
| Nil
| Bool (b : bool)
| Float64 (q : Q)
| Int (z : Z)
| Str (s : string)
| Slice (l : list any)
| Map (m : gmap string any)
| Thinking (t : ThinkingConfig).

(** [ProxyKey]: an authorized proxy key with its application name. *)
Record ProxyKey := {
  Key : string;
  Application : string
}.

Record StrategyConfig := {
  Mode : string;
  st_OnStatusCodes : list Z
}.

Record RetryConfig := {
  Attempts : Z;
  rt_OnStatusCodes : list Z
}.

(** [TargetConfig]: one target of a multi-target configuration. *)
Record TargetConfig := {
  tc_Provider : string;
  tc_APIKey : string;
  tc_OverrideParams : option (gmap string any);
  tc_Weight : Z;
  tc_AWSAccessKeyID : string;
  tc_AWSSecretAccessKey : string;
  tc_AWSRegion : string;
  tc_AWSSessionToken : string
}.

(** [ModelConfig]: the configuration of one model alias.  A nil pointer is
    [None]; a nil slice and an empty one are both [[]] (the code only
    ranges over slices and takes their length). *)
Record ModelConfig := {
  mc_Provider : string;
  mc_APIKey : string;
  mc_Strategy : option StrategyConfig;
  mc_Targets : list TargetConfig;
  mc_OverrideParams : option (gmap string any);
  mc_Retry : option RetryConfig;
  mc_RequestTimeout : Z;
  mc_Thinking : option ThinkingConfig;
  mc_BetaHeaders : list string;
  mc_ReasoningEffort : string;
  mc_ThinkingLevel : string;
  mc_AWSAccessKeyID : string;
  mc_AWSSecretAccessKey : string;
  mc_AWSRegion : string;
  mc_AWSSessionToken : string;
  mc_VertexProjectID : string;
  mc_VertexRegion : string;
  mc_VertexServiceAccountJSON : string
}.

(** [PortkeyConfig]: the configuration sent to the gateway. *)
Record PortkeyConfig := {
  pc_Provider : string;
  pc_APIKey : string;
  pc_Strategy : option StrategyConfig;
  pc_Targets : list TargetConfig;
  pc_OverrideParams : option (gmap string any);
  pc_Retry : option RetryConfig;
  pc_RequestTimeout : Z;
  pc_AWSAccessKeyID : string;
  pc_AWSSecretAccessKey : string;
  pc_AWSRegion : string;
  pc_AWSSessionToken : string;
  pc_VertexProjectID : string;
  pc_VertexRegion : string;
  pc_VertexServiceAccountJSON : string
}.

Record AnthropicMessage := {
  am_Role : string;
  am_Content : any
}.

(** [MessagesRequest]: an Anthropic messages request. *)
Record MessagesRequest := {
  mr_Model : string;
  mr_Messages : list AnthropicMessage;
  mr_System : string;
  mr_MaxTokens : Z;
  mr_Stream : bool;
  mr_Temperature : Q;
  mr_TopP : Q;
  mr_Thinking : option ThinkingConfig
}.

End models.
Export models.

(** ** Package [middleware] *)

Module middleware.

(** [responseWriter] wraps a writer to capture the status code and the
    application. *)
Record responseWriter := {
  rw_inner : recorder;
  statusCode : Z;
  application : string
}.

(** The dynamic type behind an [http.ResponseWriter] a middleware is handed:
    the [*responseWriter] of [LoggingMiddleware], or any other writer. *)
Inductive ResponseWriter :=
| Plain (r : recorder)
| Wrapped (rw : responseWriter).

Definition underlying (w : ResponseWriter) : recorder :=
  match w with
  | Plain r => r
  | Wrapped rw => rw_inner rw
  end.

Definition w_mapHeader (f : Header → Header) (w : ResponseWriter) : ResponseWriter :=
  match w with
  | Plain r => Plain (rec_mapHeader f r)
  | Wrapped rw =>
      Wrapped {| rw_inner := rec_mapHeader f (rw_inner rw);
                 statusCode := statusCode rw; application := application rw |}
  end.

(** The [WriteHeader] method of [responseWriter] records the code, then delegates. *)
Definition WriteHeader (code : Z) (w : ResponseWriter) : ResponseWriter :=
  match w with
  | Plain r => Plain (rec_WriteHeader code r)
  | Wrapped rw =>
      Wrapped {| rw_inner := rec_WriteHeader code (rw_inner rw);
                 statusCode := code; application := application rw |}
  end.

(** [Write] is the embedded writer's. *)
Definition w_Write (data : string) (w : ResponseWriter) : ResponseWriter :=
  match w with
  | Plain r => Plain (rec_Write data r)
  | Wrapped rw =>
      Wrapped {| rw_inner := rec_Write data (rw_inner rw);
                 statusCode := statusCode rw; application := application rw |}
  end.

(** [http.Error]: plain-text content type, no sniffing, the status, then the
    message and a newline. *)
Definition http_Error (msg : string) (code : Z) (w : ResponseWriter) : ResponseWriter :=
  let w1 := w_mapHeader (Header_Del "Content-Length") w in
  let w2 := w_mapHeader (Header_Set "Content-Type" "text/plain; charset=utf-8") w1 in
  let w3 := w_mapHeader (Header_Set "X-Content-Type-Options" "nosniff") w2 in
  let w4 := WriteHeader code w3 in
  w_Write (msg +:+ String "010"%char EmptyString) w4.

(** A structured log record: level, message, attributes. *)
Record LogRecord := {
  log_level : string;
  log_msg : string;
  log_attrs : list (string * string)
}.

(** An inbound request; the two context keys of the package,
    [ContextKeyApplication] and [ContextKeyRequestID], are the two optional
    context values. *)
Record Request := {
  Method : string;
  URL_Path : string;
  RemoteAddr : string;
  ReqHeader : Header;
  ReqBody : string;
  ctxApplication : option string;
  ctxRequestID : option string
}.

Definition withApplication (app : string) (r : Request) : Request :=
  {| Method := Method r; URL_Path := URL_Path r; RemoteAddr := RemoteAddr r;
     ReqHeader := ReqHeader r; ReqBody := ReqBody r;
     ctxApplication := Some app; ctxRequestID := ctxRequestID r |}.

Definition withRequestID (id : string) (r : Request) : Request :=
  {| Method := Method r; URL_Path := URL_Path r; RemoteAddr := RemoteAddr r;
     ReqHeader := ReqHeader r; ReqBody := ReqBody r;
     ctxApplication := ctxApplication r; ctxRequestID := Some id |}.

(** What serving one request reads and writes besides the request: the
    response writer, the log, the clock reading (already formatted by
    [time.Now().Format]) and the random source, with the number of draws
    taken from it. *)
Record State := {
  st_w : ResponseWriter;
  st_log : list LogRecord;
  st_now : string;
  st_rand : nat → nat;
  st_draws : nat
}.

Definition setWriter (w : ResponseWriter) (σ : State) : State :=
  {| st_w := w; st_log := st_log σ; st_now := st_now σ;
     st_rand := st_rand σ; st_draws := st_draws σ |}.

Definition logger_Warn (msg : string) (attrs : list (string * string)) (σ : State) : State :=
  {| st_w := st_w σ; st_log := (st_log σ ++ [{| log_level := "WARN"; log_msg := msg; log_attrs := attrs |}])%list;
     st_now := st_now σ; st_rand := st_rand σ; st_draws := st_draws σ |}.

Definition setDraws (n : nat) (σ : State) : State :=
  {| st_w := st_w σ; st_log := st_log σ; st_now := st_now σ;
     st_rand := st_rand σ; st_draws := n |}.

(** An [http.Handler], by state passing. *)
Definition Handler := Request → State → State.

(** The map built at the head of [AuthMiddleware]: key -> application name,
    a later entry of the list replacing an earlier one with the same key. *)
Definition keyMap (proxyKeys : list ProxyKey) : gmap string string :=
  foldl (λ m pk, <[Key pk := Application pk]> m) ∅ proxyKeys.

(** The two literal bodies of the source. *)
Definition missingBody : string :=
  "{" +:+ dquote +:+ "error" +:+ dquote +:+ ": " +:+ dquote
      +:+ "Missing Authorization header" +:+ dquote +:+ "}".

Definition invalidBody : string :=
  "{" +:+ dquote +:+ "error" +:+ dquote +:+ ": " +:+ dquote
      +:+ "Invalid Authorization key" +:+ dquote +:+ "}".

(** The first part of the handler of [AuthMiddleware]: the token and the
    header it came from. *)
Definition extractToken (r : Request) : string * string :=
  let authHeader := Header_Get (ReqHeader r) "Authorization" in
  if bool_decide (authHeader ≠ EmptyString) then
    (if strings_HasPrefix (strings_ToLower authHeader) "bearer "
     then slice_from 7 authHeader else authHeader,
     "Authorization")
  else
    let apiKey := Header_Get (ReqHeader r) "x-api-key" in
    if bool_decide (apiKey ≠ EmptyString) then (apiKey, "x-api-key")
    else (EmptyString, EmptyString).

(** The type switch of [AuthMiddleware]: the application is set on the
    writer when it is a [responseWriter]. *)
Definition setApplication (app : string) (w : ResponseWriter) : ResponseWriter :=
  match w with
  | Wrapped rw =>
      Wrapped {| rw_inner := rw_inner rw; statusCode := statusCode rw;
                 application := app |}
  | Plain rec => Plain rec
  end.

(** [AuthMiddleware] validates proxy keys and adds application info to the
    context. *)
Definition AuthMiddleware (proxyKeys : list ProxyKey) (next : Handler) : Handler :=
  λ r σ,
    let '(token, authSource) := extractToken r in
    if bool_decide (token = EmptyString) then
      let σ1 := logger_Warn "missing authorization header"
                  [("path", URL_Path r); ("remote_addr", RemoteAddr r)] σ in
      setWriter (http_Error missingBody StatusUnauthorized (st_w σ1)) σ1
    else
      match keyMap proxyKeys !! token with
      | None =>
          let σ1 := logger_Warn "invalid authorization key"
                      [("path", URL_Path r); ("remote_addr", RemoteAddr r);
                       ("source", authSource)] σ in
          setWriter (http_Error invalidBody StatusUnauthorized (st_w σ1)) σ1
      | Some app =>
          let r' := withApplication app r in
          next r' (setWriter (setApplication app (st_w σ)) σ)
      end.

Definition charset : string := "abcdefghijklmnopqrstuvwxyz0123456789".

(** [generateRandomString]: one draw of [rand.IntN(len(charset))] per byte. *)
Fixpoint generateRandomString (length : nat) (rand : nat → nat) (pos : nat) : string :=
  match length with
  | O => EmptyString
  | S n =>
      let c := default "000"%char (String.get (rand pos mod 36)%nat charset) in
      String c (generateRandomString n rand (S pos))
  end.

(** [generateRequestID]: the clock reading, a dash, eight random bytes. *)
Definition generateRequestID (σ : State) : string * State :=
  (st_now σ +:+ "-" +:+ generateRandomString 8 (st_rand σ) (st_draws σ),
   setDraws (st_draws σ + 8) σ).

(** [RequestIDMiddleware] generates a request id, adds it to the context and
    to the response headers. *)
Definition RequestIDMiddleware (next : Handler) : Handler :=
  λ r σ,
    let '(requestID, σ1) := generateRequestID σ in
    let r' := withRequestID requestID r in
    let σ2 := setWriter (w_mapHeader (Header_Set "X-Request-ID" requestID) (st_w σ1)) σ1 in
    next r' σ2.

End middleware.
Export middleware.

(** ** Package [main]: the router's middleware chain *)

Module main.

(** [chain] applies the middleware from the last of the list to the first,
    each around the handler built so far. *)
Definition chain (h : Handler) (mws : list (Handler → Handler)) : Handler :=
  foldl (λ acc m, m acc) h (reverse mws).

(** A protected endpoint of [main], as each of /v1/models,
    /v1/chat/completions and /v1/messages is mounted. *)
Definition protected (proxyKeys : list ProxyKey) (h : Handler) : Handler :=
  chain h [AuthMiddleware proxyKeys; RequestIDMiddleware].

End main.
Export main.

(** ** Package [handlers] *)

Module handlers.

(** [ConfigStore]: the loaded configuration the handlers read. *)
Record ConfigStore := {
  Models : gmap string ModelConfig;
  ProxyKeys : list ProxyKey;
  ServerPort : Z;
  ConfigPath : string;
  GatewayURL : string;
  LogLevel : string
}.

Definition maxBodySize : Z := 10 * 1024 * 1024.

(** [hopByHopHeaders] are headers that should not be forwarded by proxies. *)
Definition hopByHopHeaders : gset string :=
  {[ "Connection"; "Keep-Alive"; "Proxy-Authenticate"; "Proxy-Authorization";
     "Te"; "Trailers"; "Transfer-Encoding"; "Upgrade"; "Authorization";
     "X-Api-Key" ]}.

(** The body of the outer loop of [copyHeaders], for one key of [src]. *)
Definition copyEntry (dst : Header) (kv : string * list string) : Header :=
  if bool_decide (CanonicalHeaderKey kv.1 ∈ hopByHopHeaders) then dst
  else foldl (λ d value, Header_Add kv.1 value d) dst kv.2.

(** [copyHeaders] ranges over the map [src]; Go leaves the order of a range
    over a map unspecified, so the loop is given the order it visits the
    entries in. *)
Definition copyHeaders_in (order : list (string * list string)) (dst : Header) : Header :=
  foldl copyEntry dst order.

(** [copyHeaders] copies headers from src to dst, skipping hop-by-hop and
    proxy credential headers (here with the order in which [gmap] lists its
    entries). *)
Definition copyHeaders (src dst : Header) : Header :=
  copyHeaders_in (map_to_list src) dst.

(** [buildPortkeyConfig] constructs the Portkey configuration from model
    config. *)
Definition buildPortkeyConfig (model : ModelConfig) : PortkeyConfig :=
  match mc_Strategy model with
  | Some strategy =>
      {| pc_Provider := EmptyString; pc_APIKey := EmptyString;
         pc_Strategy := Some strategy;
         pc_Targets := mc_Targets model;
         pc_OverrideParams := None;
         pc_Retry := mc_Retry model;
         pc_RequestTimeout := mc_RequestTimeout model;
         pc_AWSAccessKeyID := EmptyString; pc_AWSSecretAccessKey := EmptyString;
         pc_AWSRegion := EmptyString; pc_AWSSessionToken := EmptyString;
         pc_VertexProjectID := EmptyString; pc_VertexRegion := EmptyString;
         pc_VertexServiceAccountJSON := EmptyString |}
  | None =>
      let bedrock := bool_decide (mc_Provider model = "bedrock") in
      let vertex := bool_decide (mc_Provider model = "vertex-ai") in
      {| pc_Provider := mc_Provider model; pc_APIKey := mc_APIKey model;
         pc_Strategy := None;
         pc_Targets := [];
         pc_OverrideParams :=
           Some (map_fold (λ k v acc, <[k := v]> acc) ∅
                   (default ∅ (mc_OverrideParams model)));
         pc_Retry := mc_Retry model;
         pc_RequestTimeout := mc_RequestTimeout model;
         pc_AWSAccessKeyID := if bedrock then mc_AWSAccessKeyID model else EmptyString;
         pc_AWSSecretAccessKey := if bedrock then mc_AWSSecretAccessKey model else EmptyString;
         pc_AWSRegion := if bedrock then mc_AWSRegion model else EmptyString;
         pc_AWSSessionToken := if bedrock then mc_AWSSessionToken model else EmptyString;
         pc_VertexProjectID := if vertex then mc_VertexProjectID model else EmptyString;
         pc_VertexRegion := if vertex then mc_VertexRegion model else EmptyString;
         pc_VertexServiceAccountJSON :=
           if vertex then mc_VertexServiceAccountJSON model else EmptyString |}
  end.

(** [getProviderFromConfig] extracts the provider from model config. *)
Definition getProviderFromConfig (model : ModelConfig) : string :=
  if bool_decide (mc_Provider model ≠ EmptyString) then mc_Provider model
  else match mc_Targets model with
       | t :: _ => tc_Provider t
       | [] => "unknown"
       end.

(** [getTimeout] returns the timeout in seconds from model config; the
    division of two Go ints truncates. *)
Definition getTimeout (model : ModelConfig) : Z :=
  if 0 <? mc_RequestTimeout model then mc_RequestTimeout model ÷ 1000
  else 60.

(** Wrap-around of 64-bit signed arithmetic. *)
Definition wrap64 (z : Z) : Z := (z + 2^63) `mod` 2^64 - 2^63.

(** [time.Second], in nanoseconds, the unit of a [time.Duration]. *)
Definition time_Second : Z := 1000000000.

(** The per-request deadline of [handleProxyRequest]:
    [time.Duration(getTimeout(modelConfig)) * time.Second]. *)
Definition requestTimeout (model : ModelConfig) : Z :=
  wrap64 (getTimeout model * time_Second).

(** The three uses of [encoding/json] in [MessagesHandler]: decoding the body
    into a [MessagesRequest], decoding it into a map, and encoding a map.
    [None] is a returned error. *)
Class encoding_json := {
  unmarshalRequest : string → option MessagesRequest;
  unmarshalMap : string → option (gmap string any);
  marshalMap : gmap string any → option string
}.

(** What the conversion [int(mt)] of a float64 gives for a value outside the
    range of [int]: the language leaves it to the implementation (amd64
    gives the least [int], arm64 the nearest one). *)
Class float_conversion := {
  int_out_of_range : Q → Z
}.

(** The conversion [int(mt)] of a float64: the fraction is discarded; a
    value outside the range of [int] converts to the value of the
    implementation. *)
Definition int_of_float64 `{F : float_conversion} (q : Q) : Z :=
  let t := Qnum q ÷ Zpos (Qden q) in
  if ((- 2^63 <=? t) && (t <? 2^63))%bool then t else int_out_of_range q.

Definition setMaxTokens (v : Z) (req : MessagesRequest) : MessagesRequest :=
  {| mr_Model := mr_Model req; mr_Messages := mr_Messages req;
     mr_System := mr_System req; mr_MaxTokens := v; mr_Stream := mr_Stream req;
     mr_Temperature := mr_Temperature req; mr_TopP := mr_TopP req;
     mr_Thinking := mr_Thinking req |}.

Section messages.
Context `{J : encoding_json} `{F : float_conversion}.

(** The rewriting both defaulting passes do: decode the body into a map,
    set one key, encode; the body stays as it is when either step fails. *)
Definition updateBody (key : string) (v : any) (body : string) : string :=
  match unmarshalMap body with
  | Some bodyMap =>
      match marshalMap (<[key := v]> bodyMap) with
      | Some updatedBody => updatedBody
      | None => body
      end
  | None => body
  end.

(** The block of [MessagesHandler] under the comment Ensure max_tokens is
    set. *)
Definition ensureMaxTokens (modelConfig : ModelConfig) (body : string)
    (req : MessagesRequest) : string * MessagesRequest :=
  if bool_decide (mr_MaxTokens req = 0) then
    let req1 :=
      match mc_OverrideParams modelConfig with
      | Some overrides =>
          match overrides !! "max_tokens" with
          | Some (Float64 mt) => setMaxTokens (int_of_float64 mt) req
          | _ => req
          end
      | None => req
      end in
    let req2 :=
      if bool_decide (mr_MaxTokens req1 = 0) then setMaxTokens 4096 req1 else req1 in
    (updateBody "max_tokens" (Int (mr_MaxTokens req2)) body, req2)
  else (body, req).

(** The block under the comment Inject thinking configuration if present in
    model config. *)
Definition injectThinking (modelConfig : ModelConfig) (body : string)
    (req : MessagesRequest) : string :=
  match mc_Thinking modelConfig, mr_Thinking req with
  | Some th, None => updateBody "thinking" (Thinking th) body
  | _, _ => body
  end.

(** What a handler ends with: a [writeJSONError] reply, or the call of
    [handleProxyRequest]. *)
Inductive Outcome :=
| Reply (msg : string) (code : Z)
| Proxy (body targetPath : string) (modelConfig : ModelConfig)
        (requestID application modelAlias : string).

(** [MessagesHandler], the Anthropic messages endpoint, down to its call of
    [handleProxyRequest]. *)
Definition MessagesHandler (store : ConfigStore) (r : Request) : Outcome :=
  if bool_decide (Method r ≠ "POST") then Reply "Method not allowed" 405
  else if maxBodySize <? Z.of_nat (String.length (ReqBody r)) then
    Reply "Request body too large" 413
  else
    let body := ReqBody r in
    match unmarshalRequest body with
    | None => Reply "Invalid request body" 400
    | Some req =>
        if bool_decide (mr_Model req = EmptyString) then
          Reply "Missing 'model' field in request" 400
        else
          match Models store !! mr_Model req with
          | None => Reply "Unknown model alias" 400
          | Some modelConfig =>
              let '(body1, req1) := ensureMaxTokens modelConfig body req in
              let body2 := injectThinking modelConfig body1 req1 in
              Proxy body2 "/v1/messages" modelConfig
                    (default EmptyString (ctxRequestID r))
                    (default EmptyString (ctxApplication r))
                    (mr_Model req1)
          end
    end.

End messages.

End handlers.
Export handlers.

(** ** Package [config]: validation *)

Module config.

(** The errors of the validation, one constructor per [fmt.Errorf] of the
    source, holding its arguments. *)
Inductive error :=
| ErrNoTargets (alias : string)
| ErrInvalidMode (alias mode : string)
| ErrTargetNoProvider (alias : string) (i : nat)
| ErrTargetMissingAPIKey (alias : string) (i : nat) (provider : string)
| ErrTargetMissingAWS (alias : string) (i : nat)
| ErrNoProvider (alias : string)
| ErrMissingAPIKey (alias provider : string)
| ErrMissingAWS (alias : string)
| ErrMissingVertex (alias : string)
| ErrUnknownProvider (alias provider : string).

(** [validateProviderConfig]: the switch has three cases and no default. *)
Definition validateProviderConfig (alias provider : string) (targetIndex : nat)
    (target : TargetConfig) : option error :=
  if bool_decide (provider ∈ ["anthropic"; "openai"; "google"]) then
    if bool_decide (tc_APIKey target = EmptyString)
    then Some (ErrTargetMissingAPIKey alias targetIndex provider) else None
  else if bool_decide (provider = "bedrock") then
    if bool_decide (tc_AWSAccessKeyID target = EmptyString
                    ∨ tc_AWSSecretAccessKey target = EmptyString
                    ∨ tc_AWSRegion target = EmptyString)
    then Some (ErrTargetMissingAWS alias targetIndex) else None
  else if bool_decide (provider = "vertex-ai") then None
  else None.

Definition validateSingleProviderConfig (alias : string) (model : ModelConfig)
    : option error :=
  if bool_decide (mc_Provider model ∈ ["anthropic"; "openai"; "google"]) then
    if bool_decide (mc_APIKey model = EmptyString)
    then Some (ErrMissingAPIKey alias (mc_Provider model)) else None
  else if bool_decide (mc_Provider model = "bedrock") then
    if bool_decide (mc_AWSAccessKeyID model = EmptyString
                    ∨ mc_AWSSecretAccessKey model = EmptyString
                    ∨ mc_AWSRegion model = EmptyString)
    then Some (ErrMissingAWS alias) else None
  else if bool_decide (mc_Provider model = "vertex-ai") then
    if bool_decide (mc_VertexProjectID model = EmptyString
                    ∨ mc_VertexRegion model = EmptyString
                    ∨ mc_VertexServiceAccountJSON model = EmptyString)
    then Some (ErrMissingVertex alias) else None
  else Some (ErrUnknownProvider alias (mc_Provider model)).

(** The loop of [validateModelConfig] over the targets, from index [i]: the
    first error ends it. *)
Fixpoint validateTargets (alias : string) (i : nat) (targets : list TargetConfig)
    : option error :=
  match targets with
  | [] => None
  | target :: rest =>
      if bool_decide (tc_Provider target = EmptyString)
      then Some (ErrTargetNoProvider alias i)
      else match validateProviderConfig alias (tc_Provider target) i target with
           | Some err => Some err
           | None => validateTargets alias (S i) rest
           end
  end.

Definition validateModelConfig (alias : string) (model : ModelConfig) : option error :=
  match mc_Strategy model with
  | Some strategy =>
      if bool_decide (length (mc_Targets model) = 0%nat) then Some (ErrNoTargets alias)
      else if bool_decide (Mode strategy ≠ "fallback" ∧ Mode strategy ≠ "loadbalance")
      then Some (ErrInvalidMode alias (Mode strategy))
      else validateTargets alias 0 (mc_Targets model)
  | None =>
      if bool_decide (mc_Provider model = EmptyString) then Some (ErrNoProvider alias)
      else validateSingleProviderConfig alias model
  end.

End config.
Export config.

(** ** Package [models], continued: the OpenAI request and the model list *)

Module models_openai.

Record ToolCall := {
  tcl_ID : string;
  tcl_Type : string;
  tcl_FunctionName : string;
  tcl_FunctionArguments : string
}.

Record Message := {
  msg_Role : string;
  msg_Content : any;
  msg_ToolCalls : list ToolCall
}.

(** [ChatCompletionRequest]: an OpenAI chat completion request. *)
Record ChatCompletionRequest := {
  cc_Model : string;
  cc_Messages : list Message;
  cc_Stream : bool;
  cc_MaxTokens : Z;
  cc_Temperature : Q;
  cc_TopP : Q;
  cc_ReasoningEffort : string
}.

(** [ModelObject]: a single model in the list. *)
Record ModelObject := {
  mo_ID : string;
  mo_Object : string;
  mo_Created : Z;
  mo_OwnedBy : string
}.

(** [ModelsListResponse]: the OpenAI-compatible models list. *)
Record ModelsListResponse := {
  ml_Object : string;
  ml_Data : list ModelObject
}.

End models_openai.
Export models_openai.

(** ** Package [handlers], continued *)

Module handlers_proxy.

(** [joinBetaHeaders] joins beta headers with commas: the loop over the
    slice, from index [i], appending to [result]. *)
Fixpoint joinBetaHeaders_from (i : nat) (result : string) (headers : list string) : string :=
  match headers with
  | [] => result
  | h :: rest =>
      let result1 := if bool_decide (0 < i)%nat then result +:+ "," else result in
      joinBetaHeaders_from (S i) (result1 +:+ h) rest
  end.

Definition joinBetaHeaders (headers : list string) : string :=
  joinBetaHeaders_from 0 EmptyString headers.

(** [getModelFromConfig] extracts the model name from model config. *)
Definition getModelFromConfig (model : ModelConfig) : string :=
  match (match mc_OverrideParams model with
         | Some overrides =>
             match overrides !! "model" with
             | Some (Str m) => Some m
             | _ => None
             end
         | None => None
         end) with
  | Some m => m
  | None =>
      match (match mc_Targets model with
             | t :: _ =>
                 match tc_OverrideParams t with
                 | Some overrides =>
                     match overrides !! "model" with
                     | Some (Str m) => Some m
                     | _ => None
                     end
                 | None => None
                 end
             | [] => None
             end) with
      | Some m => m
      | None => "unknown"
      end
  end.

(** The method [ToJSON] of [PortkeyConfig]: [json.Marshal] of the struct,
    [None] being a returned error. *)
Class portkey_json := {
  ToJSON : PortkeyConfig → option string
}.

(** [setPortkeyHeaders] sets the appropriate Portkey headers on the
    request; [None] is the returned error, before any header is set. *)
Definition setPortkeyHeaders `{portkey_json} (hd : Header) (config : PortkeyConfig)
    (model : ModelConfig) : option Header :=
  match ToJSON config with
  | None => None
  | Some configJSON =>
      let hd1 := Header_Set "x-portkey-config" configJSON hd in
      let provider := getProviderFromConfig model in
      let hd2 := Header_Set "x-portkey-provider" provider hd1 in
      let hd3 :=
        if bool_decide (provider = "vertex-ai") then
          Header_Set "x-portkey-vertex-region" (mc_VertexRegion model)
            (Header_Set "x-portkey-vertex-project-id" (mc_VertexProjectID model) hd2)
        else hd2 in
      let hd4 :=
        if bool_decide (provider = "anthropic" ∧ (0 < length (mc_BetaHeaders model))%nat) then
          Header_Set "x-portkey-anthropic-beta" (joinBetaHeaders (mc_BetaHeaders model)) hd3
        else hd3 in
      Some hd4
  end.

(** The request [handleProxyRequest] sends to the gateway. *)
Record ProxyRequest := {
  px_Method : string;
  px_URL : string;
  px_Header : Header;
  px_Body : string;
  px_Timeout : Z
}.

(** [http.NewRequestWithContext] on a method and a URL: whether it returns
    a request rather than an error. *)
Class net_http := {
  NewRequestWithContext : string → string → bool
}.

(** [handleProxyRequest], down to the call of the gateway: the request it
    builds, with the order in which the range of [copyHeaders] visits the
    inbound headers, or the 500 reply when the request cannot be created or
    the headers cannot be set. *)
Definition buildProxyRequest `{portkey_json} `{N : net_http}
    (order : list (string * list string))
    (r : Request) (body targetPath : string) (modelConfig : ModelConfig)
    (store : ConfigStore) : ProxyRequest + (string * Z) :=
  let portkeyConfig := buildPortkeyConfig modelConfig in
  let timeout := requestTimeout modelConfig in
  if negb (NewRequestWithContext (Method r) (GatewayURL store +:+ targetPath)) then
    inr ("Internal server error", 500)
  else
    let hd := copyHeaders_in order ∅ in
    match setPortkeyHeaders hd portkeyConfig modelConfig with
    | None => inr ("Internal server error", 500)
    | Some hd' =>
        inl {| px_Method := Method r; px_URL := GatewayURL store +:+ targetPath;
               px_Header := hd'; px_Body := body; px_Timeout := timeout |}
    end.

(** The decoding of a body into a [ChatCompletionRequest]. *)
Class chat_json := {
  unmarshalChat : string → option ChatCompletionRequest
}.

(** [ChatCompletionsHandler], the chat completions endpoint, down to its
    call of [handleProxyRequest]. *)
Definition ChatCompletionsHandler `{chat_json} (store : ConfigStore) (r : Request) : Outcome :=
  if bool_decide (Method r ≠ "POST") then Reply "Method not allowed" 405
  else if maxBodySize <? Z.of_nat (String.length (ReqBody r)) then
    Reply "Request body too large" 413
  else
    let body := ReqBody r in
    match unmarshalChat body with
    | None => Reply "Invalid request body" 400
    | Some req =>
        if bool_decide (cc_Model req = EmptyString) then
          Reply "Missing 'model' field in request" 400
        else
          match Models store !! cc_Model req with
          | None => Reply "Unknown model alias" 400
          | Some modelConfig =>
              Proxy body "/v1/chat/completions" modelConfig
                    (default EmptyString (ctxRequestID r))
                    (default EmptyString (ctxApplication r))
                    (cc_Model req)
          end
    end.

(** [ModelsHandler], before the encoding of the response: the 405 reply, or
    the list.  The range over the map of models visits the aliases in
    [order]; [created] is the start time of the server in Unix seconds. *)
Definition ModelsHandler_in (order : list (string * ModelConfig)) (created : Z)
    (r : Request) : (string * Z) + ModelsListResponse :=
  if bool_decide (Method r ≠ "GET") then inl ("Method not allowed", 405)
  else
    inr {| ml_Object := "list";
           ml_Data := foldl (λ data kv,
                        (data ++ [ {| mo_ID := kv.1; mo_Object := "model";
                                      mo_Created := created; mo_OwnedBy := "portus" |} ])%list)
                      [] order |}.

Definition ModelsHandler (store : ConfigStore) (created : Z) (r : Request)
    : (string * Z) + ModelsListResponse :=
  ModelsHandler_in (map_to_list (Models store)) created r.

End handlers_proxy.
Export handlers_proxy.

(** ** Package [config], continued: loading *)

Module loader.

(** The environment of the process.  [os.Getenv] reads a variable, an unset
    one reading as the empty string; [os.Environ] is the list of the
    entries, each of the form key=value. *)
Definition os_Getenv (env : gmap string string) (key : string) : string :=
  default EmptyString (env !! key).

(** [strings.SplitN(s, "=", 2)] when it gives two parts: the text before the
    first equals sign and the text after it. *)
Fixpoint splitAtEquals (s : string) : option (string * string) :=
  match s with
  | EmptyString => None
  | String c s' =>
      if Ascii.eqb c "="%char then Some (EmptyString, s')
      else match splitAtEquals s' with
           | Some (k, v) => Some (String c k, v)
           | None => None
           end
  end.

(** [loadProxyKeys] appends to the proxy keys of the store one key per
    entry of the environment whose name begins with PORTUS_KEY_. *)
Definition loadProxyKeys (environ : list string) (proxyKeys : list ProxyKey)
    : list ProxyKey :=
  foldl (λ keys env,
           match splitAtEquals env with
           | Some (key, value) =>
               if strings_HasPrefix key "PORTUS_KEY_" then
                 (keys ++ [ {| Key := value; Application := slice_from 11 key |} ])%list
               else keys
           | None => keys
           end)
        proxyKeys environ.

(** *** The pattern [envVarRegex]

    The regular expression is a dollar sign, an opening brace, one or more
    bytes other than a closing brace, a closing brace.  Its successive
    leftmost matches cut a text into what lies between them and the names
    matched; one pass over the text finds them. *)
Inductive segment :=
| Text (s : string)
| Ref (name : string).

Inductive scanState :=
| Outside
| Dollar
| Name (acc : string).

Fixpoint scan (st : scanState) (s : string) : list segment :=
  match s with
  | EmptyString =>
      match st with
      | Outside => []
      | Dollar => [Text "$"]
      | Name acc => [Text ("${" +:+ acc)]
      end
  | String c s' =>
      match st with
      | Outside =>
          if Ascii.eqb c "$"%char then scan Dollar s'
          else Text (String c EmptyString) :: scan Outside s'
      | Dollar =>
          if Ascii.eqb c "{"%char then scan (Name EmptyString) s'
          else if Ascii.eqb c "$"%char then Text "$" :: scan Dollar s'
          else Text "$" :: Text (String c EmptyString) :: scan Outside s'
      | Name acc =>
          if Ascii.eqb c "}"%char then
            match acc with
            | EmptyString => Text "${}" :: scan Outside s'
            | _ => Ref acc :: scan Outside s'
            end
          else scan (Name (acc +:+ String c EmptyString)) s'
      end
  end.

(** The names matched, in order: the first submatch of each match of
    [FindAllStringSubmatch]. *)
Definition references (content : string) : list string :=
  omap (λ seg, match seg with Ref name => Some name | Text _ => None end)
       (scan Outside content).

(** [expandEnvVars]: every match is replaced by the value of the variable
    it names. *)
Definition expandEnvVars (env : gmap string string) (content : string) : string :=
  foldr (λ seg rest,
           match seg with
           | Text s => s +:+ rest
           | Ref name => os_Getenv env name +:+ rest
           end)
        EmptyString (scan Outside content).

(** [checkMissingEnvVars]: for every match whose variable reads empty, the
    file of the alias is appended to the files recorded under the name. *)
Definition checkMissingEnvVars (env : gmap string string) (alias rawContent : string)
    (missingVars : gmap string (list string)) : gmap string (list string) :=
  foldl (λ missing varName,
           if bool_decide (os_Getenv env varName = EmptyString) then
             <[varName := (default [] (missing !! varName) ++ [alias +:+ ".json"])%list]> missing
           else missing)
        missingVars (references rawContent).

(** The errors [ValidateConfig] collects. *)
Inductive verror :=
| ErrNoProxyKeys
| ErrNoModels (configPath : string)
| ErrMissingEnv (varName : string) (files : list string)
| ErrModel (err : config.error).

(** [ValidateConfig] performs comprehensive validation and returns all
    errors at once.  Its three ranges over maps visit the raw configurations
    in [rawOrder], the missing variables in the order [missingOrder] gives
    for the map collected, and the models in [modelOrder].  The raw
    configurations, which the function clears at its end, are given beside
    the store. *)
Definition ValidateConfig_in (env : gmap string string)
    (rawOrder : list (string * string))
    (missingOrder : gmap string (list string) → list (string * list string))
    (modelOrder : list (string * ModelConfig))
    (store : ConfigStore) : list verror :=
  let errors1 :=
    if bool_decide (length (ProxyKeys store) = 0%nat) then [ErrNoProxyKeys] else [] in
  let errors2 :=
    if bool_decide (size (Models store) = 0%nat)
    then (errors1 ++ [ErrNoModels (ConfigPath store)])%list else errors1 in
  let missingVars :=
    foldl (λ missing kv, checkMissingEnvVars env kv.1 kv.2 missing) ∅ rawOrder in
  let errors3 :=
    foldl (λ errors kv, (errors ++ [ErrMissingEnv kv.1 kv.2])%list)
          errors2 (missingOrder missingVars) in
  foldl (λ errors kv,
           match validateModelConfig kv.1 kv.2 with
           | Some err => (errors ++ [ErrModel err])%list
           | None => errors
           end)
        errors3 modelOrder.

Definition ValidateConfig (env : gmap string string) (rawConfigs : gmap string string)
    (store : ConfigStore) : list verror :=
  ValidateConfig_in env (map_to_list rawConfigs) map_to_list
    (map_to_list (Models store)) store.

(** [strconv.Atoi]: an optional sign and decimal digits, in the range of a
    64-bit int; [None] is a returned error. *)
Fixpoint parseDigits (acc : Z) (s : string) : option Z :=
  match s with
  | EmptyString => Some acc
  | String c s' =>
      let n := nat_of_ascii c in
      if ((48 <=? n)%nat && (n <=? 57)%nat)%bool
      then parseDigits (10 * acc + Z.of_nat (n - 48)) s'
      else None
  end.

Definition strconv_Atoi (s : string) : option Z :=
  match s with
  | EmptyString => None
  | String c s' =>
      let neg := Ascii.eqb c "-"%char in
      let digits := if (neg || Ascii.eqb c "+"%char)%bool then s' else s in
      match digits with
      | EmptyString => None
      | _ =>
          match parseDigits 0 digits with
          | Some n =>
              let v := if neg then - n else n in
              if ((- 2^63 <=? v) && (v <? 2^63))%bool then Some v else None
          | None => None
          end
      end
  end.

Definition defaultPort : Z := 8080.
Definition defaultConfigPath : string := "./config".
Definition defaultGatewayURL : string := "http://localhost:8787".
Definition defaultLogLevel : string := "info".

Definition orDefault (value fallback : string) : string :=
  if bool_decide (value = EmptyString) then fallback else value.

(** [loadServerConfig]: the port, the configuration path, the gateway URL
    and the log level, from the environment; the error is the one of an
    invalid port and holds its text. *)
Definition loadServerConfig (env : gmap string string) (store : ConfigStore)
    : ConfigStore + string :=
  let portStr := os_Getenv env "PORTUS_PORT" in
  let port :=
    if bool_decide (portStr = EmptyString) then Some defaultPort
    else strconv_Atoi portStr in
  match port with
  | None => inr portStr
  | Some p =>
      inl {| Models := Models store; ProxyKeys := ProxyKeys store;
             ServerPort := p;
             ConfigPath := orDefault (os_Getenv env "PORTUS_CONFIG_PATH") defaultConfigPath;
             GatewayURL := orDefault (os_Getenv env "PORTKEY_GATEWAY_URL") defaultGatewayURL;
             LogLevel := orDefault (os_Getenv env "PORTUS_LOG_LEVEL") defaultLogLevel |}
  end.

End loader.
Export loader.

(** ** Concrete configurations and requests, used to run the definitions *)

Module scenario.

Definition keys : list ProxyKey :=
  [ {| Key := "pk-dev-1"; Application := "DEV" |} ].

(** A key list as [loadProxyKeys] builds it from an environment holding
    PORTUS_KEY_GHOST with an empty value. *)
Definition keysWithEmpty : list ProxyKey :=
  [ {| Key := "pk-dev-1"; Application := "DEV" |};
    {| Key := EmptyString; Application := "GHOST" |} ].

Definition fresh : State :=
  {| st_w := Plain newRecorder; st_log := []; st_now := "20240102030405";
     st_rand := λ n, n; st_draws := 0 |}.

Definition request (hdr : Header) : Request :=
  {| Method := "POST"; URL_Path := "/v1/messages"; RemoteAddr := "10.0.0.1:5000";
     ReqHeader := hdr; ReqBody := EmptyString;
     ctxApplication := None; ctxRequestID := None |}.

(** An inner handler that answers 200. *)
Definition ok : Handler := λ _ σ, setWriter (WriteHeader 200 (st_w σ)) σ.

(** What a caller sees: the status and headers written, and the body. *)
Definition response (σ : State) : option (Z * Header) * string :=
  (rec_wrote (underlying (st_w σ)), rec_body (underlying (st_w σ))).

Definition status (σ : State) : option Z := fst <$> rec_wrote (underlying (st_w σ)).

(** The headers written with the status line. *)
Definition sentHeader (σ : State) : Header :=
  default ∅ (snd <$> rec_wrote (underlying (st_w σ))).

Definition body (σ : State) : string := rec_body (underlying (st_w σ)).

Definition newline : string := String "010"%char EmptyString.

(** The zero values of [TargetConfig] and [ModelConfig], and the
    configurations of the tests of the repository built from them. *)
Definition target (provider apiKey : string) : TargetConfig :=
  {| tc_Provider := provider; tc_APIKey := apiKey; tc_OverrideParams := None;
     tc_Weight := 0; tc_AWSAccessKeyID := EmptyString;
     tc_AWSSecretAccessKey := EmptyString; tc_AWSRegion := EmptyString;
     tc_AWSSessionToken := EmptyString |}.

Definition model (provider apiKey : string) (strategy : option StrategyConfig)
    (targets : list TargetConfig) (overrides : option (gmap string any))
    (requestTimeout : Z) (thinking : option ThinkingConfig) : ModelConfig :=
  {| mc_Provider := provider; mc_APIKey := apiKey; mc_Strategy := strategy;
     mc_Targets := targets; mc_OverrideParams := overrides; mc_Retry := None;
     mc_RequestTimeout := requestTimeout; mc_Thinking := thinking;
     mc_BetaHeaders := []; mc_ReasoningEffort := EmptyString;
     mc_ThinkingLevel := EmptyString; mc_AWSAccessKeyID := EmptyString;
     mc_AWSSecretAccessKey := EmptyString; mc_AWSRegion := EmptyString;
     mc_AWSSessionToken := EmptyString; mc_VertexProjectID := EmptyString;
     mc_VertexRegion := EmptyString; mc_VertexServiceAccountJSON := EmptyString |}.


Definition strategyModel (mode : string) (targets : list TargetConfig) : ModelConfig :=
  model EmptyString EmptyString
        (Some {| Mode := mode; st_OnStatusCodes := [] |}) targets None 0 None.

Definition bedrockModel : ModelConfig :=
  {| mc_Provider := "bedrock"; mc_APIKey := EmptyString; mc_Strategy := None;
     mc_Targets := []; mc_OverrideParams := None;
     mc_Retry := Some {| Attempts := 3; rt_OnStatusCodes := [] |};
     mc_RequestTimeout := 30000; mc_Thinking := None;
     mc_BetaHeaders := []; mc_ReasoningEffort := EmptyString;
     mc_ThinkingLevel := EmptyString; mc_AWSAccessKeyID := "AKIA";
     mc_AWSSecretAccessKey := "secret"; mc_AWSRegion := "us-east-1";
     mc_AWSSessionToken := "token"; mc_VertexProjectID := "stray-project";
     mc_VertexRegion := EmptyString; mc_VertexServiceAccountJSON := EmptyString |}.

(** The inbound headers of the test of [copyHeaders], and one more in
    lower case. *)
Definition inbound : Header :=
  {[ "Content-Type" := ["application/json"];
     "Authorization" := ["Bearer secret"];
     "X-Api-Key" := ["secret-key"];
     "Connection" := ["keep-alive"];
     "X-Custom-Header" := ["value"];
     "proxy-authorization" := ["Basic abc"] ]}.

(** *** The scenario of the messages endpoint

    The alias claude-sonnet, a body without max_tokens and a body with
    max_tokens 1024, each with what [encoding/json] decodes it into, and the
    bodies it encodes the updated maps into (the keys of a map are written
    in sorted order, a struct in the order of its fields). *)
Definition helloBody : string :=
  "{" +:+ dquote +:+ "model" +:+ dquote +:+ ":" +:+ dquote
    +:+ "claude-sonnet" +:+ dquote +:+ "," +:+ dquote +:+ "messages"
    +:+ dquote +:+ ":[{" +:+ dquote +:+ "role" +:+ dquote +:+ ":" +:+ dquote
    +:+ "user" +:+ dquote +:+ "," +:+ dquote +:+ "content" +:+ dquote
    +:+ ":" +:+ dquote +:+ "Hello!" +:+ dquote +:+ "}]}".

Definition helloBody4096 : string :=
  "{" +:+ dquote +:+ "max_tokens" +:+ dquote +:+ ":4096," +:+ dquote
    +:+ "messages" +:+ dquote +:+ ":[{" +:+ dquote +:+ "content" +:+ dquote
    +:+ ":" +:+ dquote +:+ "Hello!" +:+ dquote +:+ "," +:+ dquote +:+ "role"
    +:+ dquote +:+ ":" +:+ dquote +:+ "user" +:+ dquote +:+ "}]," +:+ dquote
    +:+ "model" +:+ dquote +:+ ":" +:+ dquote +:+ "claude-sonnet" +:+ dquote
    +:+ "}".

Definition budgetBody : string :=
  "{" +:+ dquote +:+ "model" +:+ dquote +:+ ":" +:+ dquote
    +:+ "claude-sonnet" +:+ dquote +:+ "," +:+ dquote +:+ "max_tokens"
    +:+ dquote +:+ ":1024," +:+ dquote +:+ "messages" +:+ dquote +:+ ":[{"
    +:+ dquote +:+ "role" +:+ dquote +:+ ":" +:+ dquote +:+ "user"
    +:+ dquote +:+ "," +:+ dquote +:+ "content" +:+ dquote +:+ ":"
    +:+ dquote +:+ "Hello!" +:+ dquote +:+ "}]}".

Definition budgetBodyThinking : string :=
  "{" +:+ dquote +:+ "max_tokens" +:+ dquote +:+ ":1024," +:+ dquote
    +:+ "messages" +:+ dquote +:+ ":[{" +:+ dquote +:+ "content" +:+ dquote
    +:+ ":" +:+ dquote +:+ "Hello!" +:+ dquote +:+ "," +:+ dquote +:+ "role"
    +:+ dquote +:+ ":" +:+ dquote +:+ "user" +:+ dquote +:+ "}]," +:+ dquote
    +:+ "model" +:+ dquote +:+ ":" +:+ dquote +:+ "claude-sonnet" +:+ dquote
    +:+ "," +:+ dquote +:+ "thinking" +:+ dquote +:+ ":{" +:+ dquote
    +:+ "type" +:+ dquote +:+ ":" +:+ dquote +:+ "enabled" +:+ dquote
    +:+ "," +:+ dquote +:+ "budget_tokens" +:+ dquote +:+ ":2048}}".

Definition helloMessages : any :=
  Slice [Map {[ "role" := Str "user"; "content" := Str "Hello!" ]}].

Definition helloMap : gmap string any :=
  {[ "model" := Str "claude-sonnet"; "messages" := helloMessages ]}.

Definition budgetMap : gmap string any :=
  {[ "model" := Str "claude-sonnet"; "max_tokens" := Float64 (1024 # 1);
     "messages" := helloMessages ]}.

Definition messagesRequest (maxTokens : Z) : MessagesRequest :=
  {| mr_Model := "claude-sonnet";
     mr_Messages := [ {| am_Role := "user"; am_Content := Str "Hello!" |} ];
     mr_System := EmptyString; mr_MaxTokens := maxTokens; mr_Stream := false;
     mr_Temperature := 0; mr_TopP := 0; mr_Thinking := None |}.

(** [encoding/json] on the bodies and maps of the scenario. *)
Definition tableJSON : encoding_json :=
  {| unmarshalRequest b :=
       if bool_decide (b = helloBody) then Some (messagesRequest 0)
       else if bool_decide (b = budgetBody) then Some (messagesRequest 1024)
       else None;
     unmarshalMap b :=
       if bool_decide (b = helloBody) then Some helloMap
       else if bool_decide (b = budgetBody) then Some budgetMap
       else None;
     marshalMap m :=
       match m !! "max_tokens", m !! "thinking" with
       | Some (Int 4096), None => Some helloBody4096
       | Some (Float64 _), Some (Thinking _) => Some budgetBodyThinking
       | _, _ => None
       end |}.

Definition thinking : ThinkingConfig :=
  {| th_Type := "enabled"; th_BudgetTokens := 2048 |}.

(** The alias of the scenario with a given max_tokens override and thinking
    directive. *)
Definition claudeSonnet (maxTokens : option any) (th : option ThinkingConfig)
    : ModelConfig :=
  model "anthropic" "sk-ant" None []
        (Some (match maxTokens with
               | Some v => {[ "model" := Str "claude-sonnet-4-5"; "max_tokens" := v ]}
               | None => {[ "model" := Str "claude-sonnet-4-5" ]}
               end))
        0 th.

Definition store (modelConfig : ModelConfig) : ConfigStore :=
  {| Models := {[ "claude-sonnet" := modelConfig ]}; ProxyKeys := keys;
     ServerPort := 8080; ConfigPath := "./config";
     GatewayURL := "http://localhost:8787"; LogLevel := "info" |}.

Definition post (body : string) : Request :=
  {| Method := "POST"; URL_Path := "/v1/messages"; RemoteAddr := "10.0.0.1:5000";
     ReqHeader := ∅; ReqBody := body;
     ctxApplication := Some "DEV"; ctxRequestID := Some "20240102030405-abcdefgh" |}.

(** The conversion of an out-of-range float64 on amd64. *)
Definition amd64 : float_conversion := {| int_out_of_range _ := - 2^63 |}.

(** A body without max_tokens that holds, in a field the request struct
    does not have, a number no float64 can hold. *)
Definition hugeBody : string :=
  "{" +:+ dquote +:+ "model" +:+ dquote +:+ ":" +:+ dquote +:+ "claude-sonnet"
    +:+ dquote +:+ "," +:+ dquote +:+ "messages" +:+ dquote +:+ ":[{"
    +:+ dquote +:+ "role" +:+ dquote +:+ ":" +:+ dquote +:+ "user" +:+ dquote
    +:+ "," +:+ dquote +:+ "content" +:+ dquote +:+ ":" +:+ dquote +:+ "Hello!"
    +:+ dquote +:+ "}]," +:+ dquote +:+ "x" +:+ dquote +:+ ":1e999}".

(** [encoding/json] on that body, the only one of this table: decoding
    into the struct skips the unknown field and succeeds; decoding into a
    map has to convert the number and returns an error. *)
Definition tableJSONHuge : encoding_json :=
  {| unmarshalRequest b :=
       if bool_decide (b = hugeBody) then Some (messagesRequest 0) else None;
     unmarshalMap b := None;
     marshalMap m := None |}.

End scenario.

(** ** The words of the specification *)

Module spec.

(** The alias's override parameter of a given name, when it is present and
    numeric. *)
Definition numericOverride (key : string) (modelConfig : ModelConfig) : option Q :=
  match mc_OverrideParams modelConfig with
  | Some overrides =>
      match overrides !! key with
      | Some (Float64 q) => Some q
      | _ => None
      end
  | None => None
  end.

(** The budget of a request that comes without one: the numeric override
    as an integer unless that is zero, and 4096 otherwise. *)
Definition resolvedMaxTokens `{F : float_conversion} (modelConfig : ModelConfig) : Z :=
  match numericOverride "max_tokens" modelConfig with
  | Some mt => if decide (int_of_float64 mt = 0) then 4096 else int_of_float64 mt
  | None => 4096
  end.

(** The thinking pass has nothing to do: the alias declares no directive, or
    the caller supplied one. *)
Definition thinkingIdle (modelConfig : ModelConfig) (req : MessagesRequest) : Prop :=
  mc_Thinking modelConfig = None ∨ is_Some (mr_Thinking req).

End spec.


(** ** Predicates used to state the further properties *)

Module wellformed.

(** A configuration without strategy has what its provider needs. *)
Definition singleOk (model : ModelConfig) : Prop :=
  (mc_Provider model ∈ ["anthropic"; "openai"; "google"]
   ∧ mc_APIKey model ≠ EmptyString)
  ∨ (mc_Provider model = "bedrock"
     ∧ mc_AWSAccessKeyID model ≠ EmptyString
     ∧ mc_AWSSecretAccessKey model ≠ EmptyString
     ∧ mc_AWSRegion model ≠ EmptyString)
  ∨ (mc_Provider model = "vertex-ai"
     ∧ mc_VertexProjectID model ≠ EmptyString
     ∧ mc_VertexRegion model ≠ EmptyString
     ∧ mc_VertexServiceAccountJSON model ≠ EmptyString).

(** What the validation asks of a target: a provider; an API key for the
    three providers that take one; the three AWS fields for bedrock. *)
Definition targetOk (target : TargetConfig) : Prop :=
  tc_Provider target ≠ EmptyString
  ∧ (tc_Provider target ∈ ["anthropic"; "openai"; "google"] →
     tc_APIKey target ≠ EmptyString)
  ∧ (tc_Provider target = "bedrock" →
     tc_AWSAccessKeyID target ≠ EmptyString
     ∧ tc_AWSSecretAccessKey target ≠ EmptyString
     ∧ tc_AWSRegion target ≠ EmptyString).

(** The placeholder of a variable, as [envVarRegex] matches it. *)
Definition placeholder (name : string) : string := "${" +:+ name +:+ "}".

(** A text that holds no byte [c]. *)
Definition without (c : ascii) (s : string) : Prop :=
  c ∉ list_ascii_of_string s.

(** The decimal numeral of a list of digits, most significant first, and
    its value. *)
Definition numeral (ds : list nat) : string :=
  string_of_list_ascii ((λ d, ascii_of_nat (48 + d)) <$> ds).

Definition numeralValue (ds : list nat) : Z :=
  foldl (λ acc d, 10 * acc + Z.of_nat d) 0 ds.

(** The text a list of segments was cut from, and the text a state of the
    scan holds back. *)
Definition rawSegments (segs : list segment) : string :=
  foldr (λ seg rest,
           match seg with
           | Text t => t +:+ rest
           | Ref name => placeholder name +:+ rest
           end) EmptyString segs.

Definition pending (st : scanState) : string :=
  match st with
  | Outside => EmptyString
  | Dollar => "$"
  | Name acc => "${" +:+ acc
  end.

(** A header map none of whose keys has an empty list of values. *)
Definition nonemptyValues (hd : Header) : Prop :=
  ∀ n vs, hd !! n = Some vs → vs ≠ [].

(** [encoding/json] gives back the integer it encoded: a map that holds
    an integer of at most 53 bits under max_tokens, encoded and decoded
    again, holds the same number there, as a float64. *)
Definition budgetRoundTrip `{J : encoding_json} : Prop :=
  ∀ (m m' : gmap string any) (b : string) (n : Z),
    marshalMap m = Some b → unmarshalMap b = Some m' →
    m !! "max_tokens" = Some (Int n) → Z.abs n ≤ 2^53 →
    m' !! "max_tokens" = Some (Float64 (inject_Z n)).

(** The number of references to a name in a content. *)
Definition referenceCount (name content : string) : nat :=
  length (filter (λ n, n = name) (references content)).

End wellformed.


(** ** Concrete values for the further properties *)

Module scenario2.

(** The configuration header of the alias claude-sonnet of the scenario, as
    [json.Marshal] writes the struct. *)
Definition claudeConfigJSON : string :=
  "{" +:+ dquote +:+ "provider" +:+ dquote +:+ ":" +:+ dquote
    +:+ "anthropic" +:+ dquote +:+ "," +:+ dquote +:+ "api_key" +:+ dquote
    +:+ ":" +:+ dquote +:+ "sk-ant" +:+ dquote +:+ "," +:+ dquote
    +:+ "override_params" +:+ dquote +:+ ":{" +:+ dquote +:+ "model"
    +:+ dquote +:+ ":" +:+ dquote +:+ "claude-sonnet-4-5" +:+ dquote
    +:+ "}}".

Definition tablePortkeyJSON : portkey_json :=
  {| ToJSON config :=
       if bool_decide (pc_Provider config = "anthropic") then Some claudeConfigJSON
       else None |}.

(** [http.NewRequestWithContext] on the requests of the scenario: a POST
    to an endpoint of the local gateway. *)
Definition tableHTTP : net_http :=
  {| NewRequestWithContext method url :=
       bool_decide (method = "POST")
       && strings_HasPrefix url "http://localhost:8787/v1/" |}.

(** The body of the scenario once both defaults are in. *)
Definition helloBodyBoth : string :=
  "{" +:+ dquote +:+ "max_tokens" +:+ dquote +:+ ":4096," +:+ dquote
    +:+ "messages" +:+ dquote +:+ ":[{" +:+ dquote +:+ "content" +:+ dquote
    +:+ ":" +:+ dquote +:+ "Hello!" +:+ dquote +:+ "," +:+ dquote +:+ "role"
    +:+ dquote +:+ ":" +:+ dquote +:+ "user" +:+ dquote +:+ "}]," +:+ dquote
    +:+ "model" +:+ dquote +:+ ":" +:+ dquote +:+ "claude-sonnet" +:+ dquote
    +:+ "," +:+ dquote +:+ "thinking" +:+ dquote +:+ ":{" +:+ dquote
    +:+ "type" +:+ dquote +:+ ":" +:+ dquote +:+ "enabled" +:+ dquote
    +:+ "," +:+ dquote +:+ "budget_tokens" +:+ dquote +:+ ":2048}}".

(** What the body holding max_tokens 4096 decodes into: a number read
    from JSON is a float64. *)
Definition helloMap4096 : gmap string any :=
  <["max_tokens" := Float64 (4096 # 1)]> scenario.helloMap.

(** [encoding/json] on the bodies and maps of the scenario with both
    defaults. *)
Definition tableJSONBoth : encoding_json :=
  {| unmarshalRequest b :=
       if bool_decide (b = scenario.helloBody) then Some (scenario.messagesRequest 0)
       else None;
     unmarshalMap b :=
       if bool_decide (b = scenario.helloBody) then Some scenario.helloMap
       else if bool_decide (b = scenario.helloBody4096) then Some helloMap4096
       else None;
     marshalMap m :=
       match m !! "max_tokens", m !! "thinking" with
       | Some (Int 4096), None => Some scenario.helloBody4096
       | Some (Float64 _), Some (Thinking _) => Some helloBodyBoth
       | _, _ => None
       end |}.

(** A chat completion body and its decoding. *)
Definition chatRequest : ChatCompletionRequest :=
  {| cc_Model := "claude-sonnet";
     cc_Messages := [ {| msg_Role := "user"; msg_Content := Str "Hello!";
                         msg_ToolCalls := [] |} ];
     cc_Stream := false; cc_MaxTokens := 0; cc_Temperature := 0; cc_TopP := 0;
     cc_ReasoningEffort := EmptyString |}.

Definition tableChatJSON : chat_json :=
  {| unmarshalChat b :=
       if bool_decide (b = scenario.helloBody) then Some chatRequest else None |}.

Definition get (path : string) : Request :=
  {| Method := "GET"; URL_Path := path; RemoteAddr := "10.0.0.1:5000";
     ReqHeader := ∅; ReqBody := EmptyString;
     ctxApplication := Some "DEV"; ctxRequestID := Some "20240102030405-abcdefgh" |}.

End scenario2.
(** * Properties *)

(** ** Authentication *)

Section auth.
Implicit Types (proxyKeys : list ProxyKey) (next : Handler) (r : Request) (σ : State).

Lemma keyMap_snoc proxyKeys pk :
  keyMap (proxyKeys ++ [pk]) = <[Key pk := Application pk]> (keyMap proxyKeys).
Proof. unfold keyMap. by rewrite foldl_app. Qed.

(** The application a key maps to is the one of the last entry of the list
    with that key. *)
Lemma keyMap_lookup proxyKeys k :
  keyMap proxyKeys !! k = Application <$> last (filter (λ pk, Key pk = k) proxyKeys).
Proof.
  induction proxyKeys as [|pk l IH] using rev_ind; [done|].
  rewrite keyMap_snoc, filter_app, filter_cons, filter_nil.
  destruct (decide (Key pk = k)) as [->|Hne].
  - by rewrite lookup_insert_eq, last_snoc.
  - by rewrite lookup_insert_ne, app_nil_r.
Qed.

Lemma canonical_Authorization : CanonicalHeaderKey "Authorization" = "Authorization".
Proof. reflexivity. Qed.

Lemma canonical_x_api_key : CanonicalHeaderKey "x-api-key" = "X-Api-Key".
Proof. reflexivity. Qed.

Lemma canonical_X_Request_ID : CanonicalHeaderKey "X-Request-ID" = "X-Request-Id".
Proof. reflexivity. Qed.

(** A request that presents [k] as a bearer token. *)
Lemma extractToken_bearer r k vs :
  ReqHeader r !! "Authorization" = Some (("Bearer " +:+ k) :: vs) →
  extractToken r = (k, "Authorization").
Proof.
  intros H. unfold extractToken, Header_Get.
  rewrite canonical_Authorization, H.
  rewrite bool_decide_eq_true_2 by discriminate.
  reflexivity.
Qed.

(** A request that presents [k] in the x-api-key header. *)
Lemma extractToken_api_key r k :
  Header_Get (ReqHeader r) "Authorization" = EmptyString →
  Header_Get (ReqHeader r) "x-api-key" = k →
  k ≠ EmptyString →
  extractToken r = (k, "x-api-key").
Proof.
  intros Ha Hk Hne. unfold extractToken. rewrite Ha, Hk.
  rewrite bool_decide_eq_false_2 by (intros ?; congruence).
  by rewrite bool_decide_eq_true_2.
Qed.

Lemma underlying_http_Error msg code w :
  rec_wrote (underlying w) = None →
  rec_wrote (underlying (http_Error msg code w))
    = Some (code, Header_Set "X-Content-Type-Options" "nosniff"
                    (Header_Set "Content-Type" "text/plain; charset=utf-8"
                       (Header_Del "Content-Length" (rec_header (underlying w)))))
  ∧ rec_body (underlying (http_Error msg code w))
    = rec_body (underlying w) +:+ msg +:+ String "010"%char EmptyString.
Proof.
  intros H. unfold http_Error.
  destruct w as [rec|rw]; simpl in *;
    unfold rec_Write, rec_WriteHeader, rec_mapHeader; simpl; rewrite H; simpl;
    (split; reflexivity).
Qed.

(** The rejection of [AuthMiddleware] with a given message and log record. *)
Lemma AuthMiddleware_token proxyKeys next r σ :
  AuthMiddleware proxyKeys next r σ =
    let token := (extractToken r).1 in
    if bool_decide (token = EmptyString) then
      setWriter (http_Error missingBody StatusUnauthorized (st_w σ))
        (logger_Warn "missing authorization header"
           [("path", URL_Path r); ("remote_addr", RemoteAddr r)] σ)
    else match keyMap proxyKeys !! token with
         | None =>
             setWriter (http_Error invalidBody StatusUnauthorized (st_w σ))
               (logger_Warn "invalid authorization key"
                  [("path", URL_Path r); ("remote_addr", RemoteAddr r);
                   ("source", (extractToken r).2)] σ)
         | Some app =>
             next (withApplication app r) (setWriter (setApplication app (st_w σ)) σ)
         end.
Proof. unfold AuthMiddleware. by destruct (extractToken r). Qed.


Lemma append_inj_l (s a b : string) : s +:+ a = s +:+ b → a = b.
Proof. induction s as [|c s IH]; simpl; [done|]. intros [= H]. auto. Qed.

Lemma missing_invalid_differ :
  missingBody +:+ scenario.newline ≠ invalidBody +:+ scenario.newline.
Proof. apply String.eqb_neq. reflexivity. Qed.




(** C3 (amended): a request with no credential header and a request with a
    credential that is not in the map are answered with the same status
    (401) and the same headers, and the inner handler runs for neither; the
    bodies have the same shape and differ in the message: Missing
    Authorization header for the first, Invalid Authorization key for the
    second. *)
Theorem AuthMiddleware_failures proxyKeys next r1 r2 σ :
  ReqHeader r1 !! "Authorization" = None →
  ReqHeader r1 !! "X-Api-Key" = None →
  (extractToken r2).1 ≠ EmptyString →
  keyMap proxyKeys !! (extractToken r2).1 = None →
  rec_wrote (underlying (st_w σ)) = None →
  let σ1 := AuthMiddleware proxyKeys next r1 σ in
  let σ2 := AuthMiddleware proxyKeys next r2 σ in
  scenario.status σ1 = Some 401
  ∧ rec_wrote (underlying (st_w σ1)) = rec_wrote (underlying (st_w σ2))
  ∧ scenario.body σ1 = scenario.body σ +:+ missingBody +:+ scenario.newline
  ∧ scenario.body σ2 = scenario.body σ +:+ invalidBody +:+ scenario.newline
  ∧ scenario.body σ1 ≠ scenario.body σ2
  ∧ (∀ next', AuthMiddleware proxyKeys next' r1 σ = σ1
              ∧ AuthMiddleware proxyKeys next' r2 σ = σ2).
Proof.
  intros Ha Hx Hne Hnone Hfresh σ1 σ2.
  assert (Ht1 : (extractToken r1).1 = EmptyString).
  { unfold extractToken, Header_Get.
    by rewrite canonical_Authorization, canonical_x_api_key, Ha, Hx. }
  assert (E1 : ∀ next', AuthMiddleware proxyKeys next' r1 σ
      = setWriter (http_Error missingBody StatusUnauthorized (st_w σ))
          (logger_Warn "missing authorization header"
             [("path", URL_Path r1); ("remote_addr", RemoteAddr r1)] σ)).
  { intros next'. rewrite AuthMiddleware_token. cbv zeta. by rewrite Ht1. }
  assert (E2 : ∀ next', AuthMiddleware proxyKeys next' r2 σ
      = setWriter (http_Error invalidBody StatusUnauthorized (st_w σ))
          (logger_Warn "invalid authorization key"
             [("path", URL_Path r2); ("remote_addr", RemoteAddr r2);
              ("source", (extractToken r2).2)] σ)).
  { intros next'. rewrite AuthMiddleware_token. cbv zeta.
    rewrite bool_decide_eq_false_2 by done. by rewrite Hnone. }
  destruct (underlying_http_Error missingBody StatusUnauthorized _ Hfresh) as [W1 B1].
  destruct (underlying_http_Error invalidBody StatusUnauthorized _ Hfresh) as [W2 B2].
  assert (Hb1 : scenario.body σ1 = scenario.body σ +:+ missingBody +:+ scenario.newline).
  { unfold σ1. rewrite E1. exact B1. }
  assert (Hb2 : scenario.body σ2 = scenario.body σ +:+ invalidBody +:+ scenario.newline).
  { unfold σ2. rewrite E2. exact B2. }
  split_and!.
  - unfold σ1, scenario.status. rewrite E1. simpl. by rewrite W1.
  - unfold σ1, σ2. rewrite E1, E2. simpl. by rewrite W1, W2.
  - exact Hb1.
  - exact Hb2.
  - rewrite Hb1, Hb2. intros Heq. apply append_inj_l in Heq.
    by apply missing_invalid_differ.
  - intros next'. unfold σ1, σ2. by rewrite !E1, !E2.
Qed.

Lemma AuthMiddleware_failures_witness :
  scenario.body (AuthMiddleware scenario.keys scenario.ok (scenario.request ∅) scenario.fresh)
  ≠ scenario.body (AuthMiddleware scenario.keys scenario.ok
                     (scenario.request {[ "Authorization" := ["Bearer pk-wrong"] ]})
                     scenario.fresh).
Proof.
  apply (AuthMiddleware_failures scenario.keys scenario.ok (scenario.request ∅)
           (scenario.request {[ "Authorization" := ["Bearer pk-wrong"] ]}) scenario.fresh).
  - reflexivity.
  - reflexivity.
  - vm_compute. discriminate.
  - vm_compute. reflexivity.
  - reflexivity.
Defined.

(** C3 as stated fails: the two failure bodies are not the same. *)
Lemma AuthMiddleware_failure_bodies_differ :
  let absent := AuthMiddleware scenario.keys scenario.ok (scenario.request ∅) scenario.fresh in
  let wrong := AuthMiddleware scenario.keys scenario.ok
                 (scenario.request {[ "Authorization" := ["Bearer pk-wrong"] ]})
                 scenario.fresh in
  scenario.status absent = Some 401 ∧ scenario.status wrong = Some 401
  ∧ scenario.body absent = missingBody +:+ scenario.newline
  ∧ scenario.body wrong = invalidBody +:+ scenario.newline
  ∧ scenario.body absent ≠ scenario.body wrong.
Proof.
  cbv zeta. split_and!; try (vm_compute; reflexivity).
  apply String.eqb_neq. vm_compute. reflexivity.
Qed.


Lemma extractToken_no_credentials r :
  ReqHeader r !! "Authorization" = None →
  ReqHeader r !! "X-Api-Key" = None →
  extractToken r = (EmptyString, EmptyString).
Proof.
  intros Ha Hx. unfold extractToken, Header_Get.
  by rewrite canonical_Authorization, canonical_x_api_key, Ha, Hx.
Qed.

(** A request is without token when its Authorization header reduces to
    nothing once the bearer prefix is cut, or when it has no Authorization
    value and an x-api-key header that is present and empty. *)
Lemma extractToken_empty r :
  (Header_Get (ReqHeader r) "Authorization" ≠ EmptyString
   ∧ strings_HasPrefix (strings_ToLower (Header_Get (ReqHeader r) "Authorization")) "bearer " = true
   ∧ slice_from 7 (Header_Get (ReqHeader r) "Authorization") = EmptyString)
  ∨ (Header_Get (ReqHeader r) "Authorization" = EmptyString
     ∧ ∃ vs, ReqHeader r !! "X-Api-Key" = Some (EmptyString :: vs)) →
  (extractToken r).1 = EmptyString.
Proof.
  intros [(Hne & Hp & Hs)|(He & vs & Hx)]; unfold extractToken.
  - rewrite bool_decide_eq_true_2 by done. by rewrite Hp.
  - rewrite He. rewrite bool_decide_eq_false_2 by (intros ?; done).
    unfold Header_Get. rewrite canonical_x_api_key, Hx.
    by rewrite bool_decide_eq_false_2 by (intros ?; done).
Qed.

(** C10 (amended): a request whose Authorization header is present and
    reduces to an empty token once the bearer prefix is cut, and a request
    with no Authorization value whose x-api-key header is present and
    empty, are answered 401 with the Missing Authorization header body,
    the same response (and the same log record) as a request from the same
    peer on the same path with no credential header at all; the answer does
    not depend on the key map, which is not looked up, nor on the inner
    handler, which is not run. *)
Theorem AuthMiddleware_empty_token proxyKeys next r r0 σ :
  (Header_Get (ReqHeader r) "Authorization" ≠ EmptyString
   ∧ strings_HasPrefix (strings_ToLower (Header_Get (ReqHeader r) "Authorization")) "bearer " = true
   ∧ slice_from 7 (Header_Get (ReqHeader r) "Authorization") = EmptyString)
  ∨ (Header_Get (ReqHeader r) "Authorization" = EmptyString
     ∧ ∃ vs, ReqHeader r !! "X-Api-Key" = Some (EmptyString :: vs)) →
  ReqHeader r0 !! "Authorization" = None →
  ReqHeader r0 !! "X-Api-Key" = None →
  URL_Path r0 = URL_Path r →
  RemoteAddr r0 = RemoteAddr r →
  st_w (AuthMiddleware proxyKeys next r σ)
    = http_Error missingBody StatusUnauthorized (st_w σ)
  ∧ AuthMiddleware proxyKeys next r σ = AuthMiddleware proxyKeys next r0 σ
  ∧ ∀ proxyKeys' next',
      AuthMiddleware proxyKeys' next' r σ = AuthMiddleware proxyKeys next r σ.
Proof.
  intros Hr Ha Hx Hp Hra.
  pose proof (extractToken_empty r Hr) as Ht.
  pose proof (extractToken_no_credentials r0 Ha Hx) as Ht0.
  assert (E : ∀ ks nx, AuthMiddleware ks nx r σ
      = setWriter (http_Error missingBody StatusUnauthorized (st_w σ))
          (logger_Warn "missing authorization header"
             [("path", URL_Path r); ("remote_addr", RemoteAddr r)] σ)).
  { intros ks nx. rewrite AuthMiddleware_token. cbv zeta. by rewrite Ht. }
  split_and!.
  - by rewrite E.
  - rewrite E, AuthMiddleware_token. cbv zeta. rewrite Ht0. simpl.
    by rewrite Hp, Hra.
  - intros ks nx. by rewrite !E.
Qed.

(** The theorem at work on the header value Bearer followed by one space,
    with a key map that holds the empty key, and on an empty x-api-key. *)
Lemma AuthMiddleware_empty_token_witness :
  st_w (AuthMiddleware scenario.keysWithEmpty scenario.ok
          (scenario.request {[ "Authorization" := ["Bearer "] ]}) scenario.fresh)
  = http_Error missingBody StatusUnauthorized (st_w scenario.fresh)
  ∧ st_w (AuthMiddleware scenario.keysWithEmpty scenario.ok
            (scenario.request {[ "X-Api-Key" := [EmptyString] ]}) scenario.fresh)
    = http_Error missingBody StatusUnauthorized (st_w scenario.fresh).
Proof.
  split.
  - apply (AuthMiddleware_empty_token scenario.keysWithEmpty scenario.ok
             (scenario.request {[ "Authorization" := ["Bearer "] ]})
             (scenario.request ∅) scenario.fresh).
    + left. split_and!; [vm_compute; discriminate | reflexivity | reflexivity].
    + reflexivity.
    + reflexivity.
    + reflexivity.
    + reflexivity.
  - apply (AuthMiddleware_empty_token scenario.keysWithEmpty scenario.ok
             (scenario.request {[ "X-Api-Key" := [EmptyString] ]})
             (scenario.request ∅) scenario.fresh).
    + right. split; [reflexivity | by exists []].
    + reflexivity.
    + reflexivity.
    + reflexivity.
    + reflexivity.
Defined.

(** C10 as stated fails: a request whose x-api-key header is present and
    empty is not answered 401 when its Authorization header carries a valid
    key; the x-api-key header is read only when Authorization gives
    nothing. *)
Lemma AuthMiddleware_empty_api_key_with_bearer :
  let r := scenario.request
             {[ "Authorization" := ["Bearer pk-dev-1"]; "X-Api-Key" := [EmptyString] ]} in
  ReqHeader r !! "X-Api-Key" = Some [EmptyString]
  ∧ extractToken r = ("pk-dev-1", "Authorization")
  ∧ scenario.status (AuthMiddleware scenario.keys scenario.ok r scenario.fresh) = Some 200
  ∧ scenario.body (AuthMiddleware scenario.keys scenario.ok r scenario.fresh) = EmptyString.
Proof. vm_compute. repeat split; reflexivity. Qed.

End auth.

(** ** The middleware chain of the protected endpoints *)

Section chain.
Implicit Types (proxyKeys : list ProxyKey) (h : Handler) (r : Request) (σ : State).

(** With two middlewares, the first of the list is the outer one. *)
Lemma chain_two h (a b : Handler → Handler) : chain h [a; b] = a (b h).
Proof. reflexivity. Qed.

Lemma chain_foldr h (mws : list (Handler → Handler)) :
  chain h mws = foldr (λ m acc, m acc) h mws.
Proof.
  unfold chain. induction mws as [|m mws IH]; [done|].
  rewrite reverse_cons, foldl_app. simpl. by rewrite IH.
Qed.

Lemma protected_unfold proxyKeys h :
  protected proxyKeys h = AuthMiddleware proxyKeys (RequestIDMiddleware h).
Proof. reflexivity. Qed.

Lemma Header_Values_Set key v (hd : Header) :
  Header_Values (Header_Set key v hd) key = [v].
Proof. unfold Header_Values, Header_Set. by rewrite lookup_insert_eq. Qed.

Lemma http_Error_other_header msg code w k :
  k ≠ "Content-Length" → k ≠ "Content-Type" → k ≠ "X-Content-Type-Options" →
  rec_wrote (underlying w) = None →
  ∃ hd, rec_wrote (underlying (http_Error msg code w)) = Some (code, hd)
        ∧ hd !! k = rec_header (underlying w) !! k.
Proof.
  intros H1 H2 H3 Hw.
  destruct (underlying_http_Error msg code w Hw) as [-> _].
  eexists; split; [reflexivity|].
  unfold Header_Set, Header_Del.
  change (CanonicalHeaderKey "X-Content-Type-Options") with "X-Content-Type-Options".
  change (CanonicalHeaderKey "Content-Type") with "Content-Type".
  change (CanonicalHeaderKey "Content-Length") with "Content-Length".
  rewrite !lookup_insert_ne by done. by rewrite lookup_delete_ne.
Qed.

(** C2 (amended): on a protected endpoint the request id is generated after
    authentication has succeeded.  A request that authenticates reaches the
    inner handler with the generated id in its context and already set as
    the X-Request-ID response header.  A request that fails authentication
    is answered 401 without any id being generated: no random byte is drawn
    and the response has no X-Request-ID header unless the writer came with
    one. *)
Theorem protected_request_id proxyKeys h r σ :
  let token := (extractToken r).1 in
  let id := (generateRequestID σ).1 in
  (∀ app, token ≠ EmptyString → keyMap proxyKeys !! token = Some app →
     ∃ σ', protected proxyKeys h r σ
           = h (withRequestID id (withApplication app r)) σ'
         ∧ Header_Values (rec_header (underlying (st_w σ'))) "X-Request-ID" = [id]
         ∧ rec_wrote (underlying (st_w σ')) = rec_wrote (underlying (st_w σ)))
  ∧ (token = EmptyString ∨ keyMap proxyKeys !! token = None →
     rec_wrote (underlying (st_w σ)) = None →
     st_draws (protected proxyKeys h r σ) = st_draws σ
     ∧ ∃ hd, rec_wrote (underlying (st_w (protected proxyKeys h r σ)))
             = Some (StatusUnauthorized, hd)
           ∧ hd !! "X-Request-Id" = rec_header (underlying (st_w σ)) !! "X-Request-Id").
Proof.
  intros token id. rewrite protected_unfold. split.
  - intros app Hne Hin.
    rewrite AuthMiddleware_token. cbv zeta. fold token.
    rewrite bool_decide_eq_false_2 by done. rewrite Hin.
    eexists. split; [reflexivity|]. simpl. split.
    + destruct (st_w σ); simpl; apply Header_Values_Set.
    + by destruct (st_w σ).
  - intros Hfail Hfresh. rewrite AuthMiddleware_token. cbv zeta. fold token.
    assert (Hk : "X-Request-Id" ≠ "Content-Length" ∧ "X-Request-Id" ≠ "Content-Type"
                 ∧ "X-Request-Id" ≠ "X-Content-Type-Options") by (split_and!; discriminate).
    destruct Hk as (K1 & K2 & K3).
    case_bool_decide as Ht.
    + split; [done|]. simpl.
      apply (http_Error_other_header _ _ _ _ K1 K2 K3 Hfresh).
    + destruct Hfail as [?|Hnone]; [done|]. rewrite Hnone. split; [done|]. simpl.
      apply (http_Error_other_header _ _ _ _ K1 K2 K3 Hfresh).
Qed.


(** The theorem at work: an authenticated request reaches the inner handler
    with the id made of the clock reading and the first eight random
    draws. *)
Lemma protected_request_id_witness :
  ∃ σ', protected scenario.keys scenario.ok
          (scenario.request {[ "Authorization" := ["Bearer pk-dev-1"] ]}) scenario.fresh
        = scenario.ok
            (withRequestID (generateRequestID scenario.fresh).1
               (withApplication "DEV"
                  (scenario.request {[ "Authorization" := ["Bearer pk-dev-1"] ]}))) σ'
      ∧ Header_Values (rec_header (underlying (st_w σ'))) "X-Request-ID"
        = [(generateRequestID scenario.fresh).1]
      ∧ rec_wrote (underlying (st_w σ')) = rec_wrote (underlying (st_w scenario.fresh)).
Proof.
  apply (proj1 (protected_request_id scenario.keys scenario.ok
                  (scenario.request {[ "Authorization" := ["Bearer pk-dev-1"] ]})
                  scenario.fresh) "DEV").
  - vm_compute. discriminate.
  - vm_compute. reflexivity.
Defined.

(** C2 as stated fails: the 401 answer of a protected endpoint carries no
    X-Request-ID header, while the answer to an authenticated request
    does. *)
Lemma protected_401_without_request_id :
  let rejected := protected scenario.keys scenario.ok (scenario.request ∅) scenario.fresh in
  let served := protected scenario.keys scenario.ok
                  (scenario.request {[ "Authorization" := ["Bearer pk-dev-1"] ]})
                  scenario.fresh in
  scenario.status rejected = Some 401
  ∧ Header_Values (scenario.sentHeader rejected) "X-Request-ID" = []
  ∧ scenario.status served = Some 200
  ∧ Header_Values (scenario.sentHeader served) "X-Request-ID" = ["20240102030405-abcdefgh"].
Proof. vm_compute. repeat split; reflexivity. Qed.

End chain.

(** ** Time-outs *)

Section timeout.






End timeout.

(** ** The configuration sent to the gateway *)

Section portkey.

Lemma copy_params (m : gmap string any) :
  map_fold (λ k v acc, <[k := v]> acc) ∅ m = m.
Proof.
  apply (map_fold_weak_ind (λ r m, r = m)); [done|].
  intros i x m' r _ ->. done.
Qed.

(** C6: [buildPortkeyConfig] copies retry and request_timeout in both cases;
    without a strategy it copies the provider, the API key and the bindings
    of the override parameters, the four AWS fields exactly when the
    provider is bedrock and the three Vertex fields exactly when it is
    vertex-ai (they are empty otherwise); with a strategy it copies the
    strategy, mode included, and the target list, order and contents. *)
Theorem buildPortkeyConfig_copies (model : ModelConfig) :
  let config := buildPortkeyConfig model in
  pc_Retry config = mc_Retry model
  ∧ pc_RequestTimeout config = mc_RequestTimeout model
  ∧ (mc_Strategy model = None →
     pc_Provider config = mc_Provider model
     ∧ pc_APIKey config = mc_APIKey model
     ∧ pc_OverrideParams config = Some (default ∅ (mc_OverrideParams model))
     ∧ (pc_AWSAccessKeyID config, pc_AWSSecretAccessKey config,
        pc_AWSRegion config, pc_AWSSessionToken config)
       = (if decide (mc_Provider model = "bedrock")
          then (mc_AWSAccessKeyID model, mc_AWSSecretAccessKey model,
                mc_AWSRegion model, mc_AWSSessionToken model)
          else (EmptyString, EmptyString, EmptyString, EmptyString))
     ∧ (pc_VertexProjectID config, pc_VertexRegion config,
        pc_VertexServiceAccountJSON config)
       = (if decide (mc_Provider model = "vertex-ai")
          then (mc_VertexProjectID model, mc_VertexRegion model,
                mc_VertexServiceAccountJSON model)
          else (EmptyString, EmptyString, EmptyString))
     ∧ pc_Strategy config = None ∧ pc_Targets config = [])
  ∧ (∀ strategy, mc_Strategy model = Some strategy →
     pc_Strategy config = Some strategy
     ∧ Mode <$> pc_Strategy config = Some (Mode strategy)
     ∧ pc_Targets config = mc_Targets model).
Proof.
  intros config. unfold config, buildPortkeyConfig.
  destruct (mc_Strategy model) as [s|] eqn:Hs; simpl.
  - split_and!; try done. intros strategy [= <-]. done.
  - split_and!; try done.
    intros _. rewrite copy_params. split_and!; try done.
    + by repeat case_bool_decide; case_decide.
    + by repeat case_bool_decide; case_decide.
Qed.

Lemma buildPortkeyConfig_copies_witness :
  pc_Provider (buildPortkeyConfig scenario.bedrockModel) = "bedrock"
  ∧ pc_AWSSessionToken (buildPortkeyConfig scenario.bedrockModel) = "token"
  ∧ pc_VertexProjectID (buildPortkeyConfig scenario.bedrockModel) = EmptyString
  ∧ pc_Targets (buildPortkeyConfig
                  (scenario.strategyModel "fallback"
                     [scenario.target "openai" "sk-1"; scenario.target "anthropic" "sk-2"]))
    = [scenario.target "openai" "sk-1"; scenario.target "anthropic" "sk-2"].
Proof.
  pose proof (buildPortkeyConfig_copies scenario.bedrockModel) as (_ & _ & H1 & _).
  specialize (H1 eq_refl) as (Hp & _ & _ & Haws & Hv & _).
  pose proof (buildPortkeyConfig_copies
                (scenario.strategyModel "fallback"
                   [scenario.target "openai" "sk-1"; scenario.target "anthropic" "sk-2"]))
    as (_ & _ & _ & H2).
  specialize (H2 _ eq_refl) as (_ & _ & Ht).
  split_and!.
  - exact Hp.
  - exact (f_equal snd Haws).
  - exact (f_equal (λ t, t.1.1) Hv).
  - exact Ht.
Defined.

End portkey.

(** ** Validation *)

Section validation.
Implicit Types (alias provider : string) (model : ModelConfig) (target : TargetConfig).

(** C7: for a configuration that declares a strategy, the validation
    returns an error when there is no target and when the mode is neither
    fallback nor loadbalance; otherwise the strategy, its mode and the
    number of targets are accepted, and the verdict is the one of the
    checks of the targets. *)
Theorem validateModelConfig_strategy alias model strategy :
  mc_Strategy model = Some strategy →
  (mc_Targets model = [] →
     validateModelConfig alias model = Some (ErrNoTargets alias))
  ∧ (mc_Targets model ≠ [] → Mode strategy ∉ ["fallback"; "loadbalance"] →
     validateModelConfig alias model = Some (ErrInvalidMode alias (Mode strategy)))
  ∧ (mc_Targets model = [] ∨ Mode strategy ∉ ["fallback"; "loadbalance"] →
     is_Some (validateModelConfig alias model))
  ∧ (mc_Targets model ≠ [] → Mode strategy ∈ ["fallback"; "loadbalance"] →
     validateModelConfig alias model = validateTargets alias 0 (mc_Targets model)).
Proof.
  intros Hs. unfold validateModelConfig. rewrite Hs.
  assert (Hmode : Mode strategy ∉ ["fallback"; "loadbalance"]
                  ↔ Mode strategy ≠ "fallback" ∧ Mode strategy ≠ "loadbalance").
  { rewrite !not_elem_of_cons. split; [naive_solver|].
    intros [??]; split_and!; [done..|apply not_elem_of_nil]. }
  assert (Hlen : length (mc_Targets model) = 0%nat ↔ mc_Targets model = []).
  { destruct (mc_Targets model); naive_solver. }
  split_and!.
  - intros Ht. by rewrite bool_decide_eq_true_2 by (by apply Hlen).
  - intros Ht Hm. rewrite bool_decide_eq_false_2 by (by rewrite Hlen).
    by rewrite bool_decide_eq_true_2 by (by apply Hmode).
  - intros [Ht|Hm].
    + by rewrite bool_decide_eq_true_2 by (by apply Hlen).
    + case_bool_decide; [done|]. by rewrite bool_decide_eq_true_2 by (by apply Hmode).
  - intros Ht Hm. rewrite bool_decide_eq_false_2 by (by rewrite Hlen).
    rewrite bool_decide_eq_false_2; [done|]. rewrite <- Hmode. tauto.
Qed.

(** The theorem on the cases of the tests of the repository: a fallback over
    two targets passes; no target and the mode roundrobin do not. *)
Lemma validateModelConfig_strategy_witness :
  validateModelConfig "multi"
    (scenario.strategyModel "fallback"
       [scenario.target "openai" "sk-1"; scenario.target "anthropic" "sk-2"])
  = validateTargets "multi" 0
      [scenario.target "openai" "sk-1"; scenario.target "anthropic" "sk-2"]
  ∧ validateModelConfig "multi" (scenario.strategyModel "fallback" [])
    = Some (ErrNoTargets "multi")
  ∧ validateModelConfig "multi"
      (scenario.strategyModel "roundrobin" [scenario.target "openai" "sk-1"])
    = Some (ErrInvalidMode "multi" "roundrobin").
Proof.
  split_and!.
  - apply (proj2 (proj2 (proj2 (validateModelConfig_strategy "multi"
             (scenario.strategyModel "fallback"
                [scenario.target "openai" "sk-1"; scenario.target "anthropic" "sk-2"])
             _ eq_refl)))).
    + discriminate.
    + simpl. repeat constructor.
  - apply (proj1 (validateModelConfig_strategy "multi"
             (scenario.strategyModel "fallback" []) _ eq_refl)).
    reflexivity.
  - apply (proj1 (proj2 (validateModelConfig_strategy "multi"
             (scenario.strategyModel "roundrobin" [scenario.target "openai" "sk-1"])
             _ eq_refl))).
    + discriminate.
    + simpl. rewrite !not_elem_of_cons. split_and!; [discriminate..|apply not_elem_of_nil].
Defined.

(** What [validateProviderConfig] does with a provider for which its switch
    has no case, and with vertex-ai: nothing. *)
Lemma validateProviderConfig_no_case alias provider i target :
  provider ∉ ["anthropic"; "openai"; "google"; "bedrock"] →
  validateProviderConfig alias provider i target = None.
Proof.
  rewrite !not_elem_of_cons. intros (H1 & H2 & H3 & H4 & _).
  unfold validateProviderConfig.
  rewrite bool_decide_eq_false_2.
  2:{ rewrite !elem_of_cons, elem_of_nil. naive_solver. }
  rewrite bool_decide_eq_false_2 by done.
  by case_bool_decide.
Qed.

(** C8: the code does not do what the claim says.  With a strategy, a
    target of an unknown provider passes the validation, and so does a
    vertex-ai target whose configuration has no project, region or service
    account; without a strategy the same two configurations are
    rejected. *)
Theorem validateModelConfig_target_provider_unchecked :
  validateModelConfig "multi"
    (scenario.strategyModel "fallback" [scenario.target "fakeprovider" EmptyString]) = None
  ∧ validateModelConfig "multi"
      (scenario.strategyModel "fallback" [scenario.target "vertex-ai" EmptyString]) = None
  ∧ validateModelConfig "test"
      (scenario.model "fakeprovider" EmptyString None [] None 0 None)
    = Some (ErrUnknownProvider "test" "fakeprovider")
  ∧ validateModelConfig "vertex-model"
      (scenario.model "vertex-ai" EmptyString None [] None 0 None)
    = Some (ErrMissingVertex "vertex-model").
Proof. vm_compute. repeat split; reflexivity. Qed.

End validation.

(** ** Header forwarding *)

Section headers.
Implicit Types (src dst : Header) (order : list (string * list string))
  (kv : string * list string) (k n h : string) (vs : list string).

Lemma validHeaderFieldByte_lower c :
  validHeaderFieldByte (lowerByte c) = validHeaderFieldByte c.
Proof. destruct c as [[] [] [] [] [] [] [] []]; reflexivity. Qed.

Lemma upperByte_lower c : upperByte (lowerByte c) = upperByte c.
Proof. destruct c as [[] [] [] [] [] [] [] []]; reflexivity. Qed.

Lemma lowerByte_lower c : lowerByte (lowerByte c) = lowerByte c.
Proof. destruct c as [[] [] [] [] [] [] [] []]; reflexivity. Qed.

Lemma allValid_lower (s : string) : allValid (strings_ToLower s) = allValid s.
Proof.
  induction s as [|c s IH]; [done|]. simpl.
  by rewrite validHeaderFieldByte_lower, IH.
Qed.

Lemma canonLoop_lower (s : string) upper :
  canonLoop upper (strings_ToLower s) = canonLoop upper s.
Proof.
  revert upper. induction s as [|c s IH]; intros upper; [done|]. simpl.
  destruct upper; rewrite ?upperByte_lower, ?lowerByte_lower, IH; done.
Qed.

(** The canonical form of a key that holds only token bytes depends on the
    key up to the case of its letters only. *)
Lemma canonical_case_insensitive (s t : string) :
  strings_ToLower s = strings_ToLower t → allValid t = true →
  CanonicalHeaderKey s = CanonicalHeaderKey t.
Proof.
  intros Heq Hv. unfold CanonicalHeaderKey.
  rewrite <- (allValid_lower s), Heq, allValid_lower, Hv.
  by rewrite <- (canonLoop_lower s), Heq, canonLoop_lower.
Qed.

Lemma elem_of_hopByHopHeaders h :
  h ∈ hopByHopHeaders ↔
  h ∈ ["Connection"; "Keep-Alive"; "Proxy-Authenticate"; "Proxy-Authorization";
       "Te"; "Trailers"; "Transfer-Encoding"; "Upgrade"; "Authorization";
       "X-Api-Key"].
Proof. unfold hopByHopHeaders. set_solver. Qed.

(** The names of the set are token-only and canonical. *)
Lemma hopByHopHeaders_canonical h :
  h ∈ hopByHopHeaders → allValid h = true ∧ CanonicalHeaderKey h = h.
Proof.
  rewrite elem_of_hopByHopHeaders, !elem_of_cons, elem_of_nil.
  intros [->|[->|[->|[->|[->|[->|[->|[->|[->|[->|[]]]]]]]]]]]; split; reflexivity.
Qed.

(** The inner loop of [copyHeaders], seen from one key of [dst]. *)
Lemma add_values_lookup k vs dst n :
  foldl (λ d value, Header_Add k value d) dst vs !! n
  = if decide (CanonicalHeaderKey k = n)
    then match vs with
         | [] => dst !! n
         | _ => Some (default [] (dst !! n) ++ vs)%list
         end
    else dst !! n.
Proof.
  revert dst. induction vs as [|v vs IH]; intros dst; simpl.
  - by case_decide.
  - rewrite IH. unfold Header_Add. case_decide as Hk.
    + subst n. rewrite lookup_insert_eq. simpl.
      destruct vs; [done|]. by rewrite <- app_assoc.
    + by rewrite lookup_insert_ne.
Qed.

Lemma copyEntry_values dst kv n :
  default [] (copyEntry dst kv !! n)
  = (default [] (dst !! n)
     ++ if decide (CanonicalHeaderKey kv.1 = n ∧ n ∉ hopByHopHeaders) then kv.2 else [])%list.
Proof.
  unfold copyEntry. case_bool_decide as Hhop.
  - rewrite decide_False; [by rewrite app_nil_r|]. intros [<- ?]. done.
  - rewrite add_values_lookup. case_decide as Hk.
    + subst n. rewrite decide_True by done.
      destruct kv.2; simpl; [by rewrite app_nil_r|done].
    + rewrite decide_False by tauto. by rewrite app_nil_r.
Qed.

Lemma concat_filter_values (P : string * list string → Prop) `{!∀ kv, Decision (P kv)} order :
  concat ((λ kv, if decide (P kv) then kv.2 else []) <$> order)
  = concat ((filter P order).*2).
Proof.
  induction order as [|kv order IH]; [done|]. rewrite filter_cons. csimpl.
  case_decide; csimpl; by rewrite IH.
Qed.

(** The values [copyHeaders] leaves under a key: those [dst] had, then the
    values of the entries of that canonical name, in the order of the
    range, unless the name is in the set. *)
Lemma copyHeaders_in_values order dst n :
  default [] (copyHeaders_in order dst !! n)
  = (default [] (dst !! n)
     ++ if decide (n ∈ hopByHopHeaders) then []
        else concat ((filter (λ kv, CanonicalHeaderKey kv.1 = n) order).*2))%list.
Proof.
  unfold copyHeaders_in. revert dst.
  induction order as [|kv order IH]; intros dst; simpl.
  - case_decide; by rewrite app_nil_r.
  - rewrite IH, copyEntry_values, <- app_assoc. f_equal.
    rewrite filter_cons. destruct (decide (n ∈ hopByHopHeaders)) as [Hn|Hn].
    + rewrite decide_False by tauto. done.
    + destruct (decide (CanonicalHeaderKey kv.1 = n)) as [Hk|Hk].
      * rewrite decide_True by done. done.
      * rewrite decide_False by tauto. done.
Qed.

(** No key of the set is ever written. *)
Lemma copyHeaders_in_dropped order dst n :
  n ∈ hopByHopHeaders → copyHeaders_in order dst !! n = dst !! n.
Proof.
  intros Hn. unfold copyHeaders_in. revert dst.
  induction order as [|kv order IH]; intros dst; simpl; [done|].
  rewrite IH. unfold copyEntry. case_bool_decide as Hhop; [done|].
  rewrite add_values_lookup. rewrite decide_False; [done|]. by intros <-.
Qed.

(** Every key written comes from an entry that is not in the set. *)
Lemma copyHeaders_in_origin order dst n vs :
  copyHeaders_in order dst !! n = Some vs →
  is_Some (dst !! n)
  ∨ ((n ∉ hopByHopHeaders) ∧ ∃ kv, kv ∈ order ∧ CanonicalHeaderKey kv.1 = n).
Proof.
  unfold copyHeaders_in. revert dst.
  induction order as [|kv order IH]; intros dst; simpl.
  - intros H. left. eauto.
  - intros H. apply IH in H as [Hs|(Hn & kv' & Hin & Hk)].
    + unfold copyEntry in Hs. case_bool_decide as Hhop; [by left|].
      rewrite add_values_lookup in Hs. case_decide as Hk; [|by left].
      right. subst n. split; [done|]. exists kv. split; [left|done].
    + right. split; [done|]. exists kv'. split; [by right|done].
Qed.

Lemma filter_none {A} (P : A → Prop) `{!∀ x, Decision (P x)} (l : list A) :
  (∀ x, x ∈ l → ¬ P x) → filter P l = [].
Proof.
  induction l as [|x l IH]; intros Hall; [done|].
  rewrite filter_cons, decide_False by (apply Hall; left).
  apply IH. intros y Hy. apply Hall. by right.
Qed.

(** In a list without repeated keys, the entries selected by a predicate
    that holds of one key only are the one entry of that key. *)
Lemma filter_one_key (P : string * list string → Prop) `{!∀ kv, Decision (P kv)}
    order k vs :
  NoDup (order.*1) → (k, vs) ∈ order →
  (∀ kv, kv ∈ order → (P kv ↔ kv.1 = k)) →
  filter P order = [(k, vs)].
Proof.
  induction order as [|kv order IH]; intros Hnd Hin HP.
  - by apply elem_of_nil in Hin.
  - rewrite fmap_cons in Hnd. apply NoDup_cons in Hnd as [Hfresh Hnd].
    rewrite filter_cons. apply elem_of_cons in Hin as [<-|Hin].
    + rewrite decide_True by (apply HP; [left|done]).
      f_equal. apply filter_none. intros kv' Hin' HP'.
      apply HP in HP'; [|by right]. apply Hfresh. simpl.
      apply list_elem_of_fmap. exists kv'. by split.
    + assert (kv.1 ≠ k) as Hne.
      { intros Heq. apply Hfresh. rewrite Heq.
        apply list_elem_of_fmap. exists (k, vs). by split. }
      rewrite decide_False by (rewrite HP; [done|left]).
      apply IH; [done..|]. intros kv' Hin'. apply HP. by right.
Qed.


(** C5: whatever the order in which the range visits the inbound header map,
    [copyHeaders] fills an empty header map so that
    - no name of the fixed set is a key of it, and an inbound name that is
      one of the set up to the case of its letters is canonicalized to that
      name, hence dropped;
    - under every other name it holds exactly the values of the inbound
      entries of that canonical name, unchanged and in the order visited;
      an inbound header that is alone with its canonical name keeps exactly
      its list of values;
    - every key it holds is the canonical name, outside the set, of an
      inbound header. *)
Theorem copyHeaders_forwards src order :
  order ≡ₚ map_to_list src →
  let out := copyHeaders_in order ∅ in
  (∀ n, n ∈ hopByHopHeaders → out !! n = None)
  ∧ (∀ k h, h ∈ hopByHopHeaders → strings_ToLower k = strings_ToLower h →
       CanonicalHeaderKey k = h ∧ out !! CanonicalHeaderKey k = None)
  ∧ (∀ n, n ∉ hopByHopHeaders →
       default [] (out !! n)
       = concat ((filter (λ kv, CanonicalHeaderKey kv.1 = n) order).*2))
  ∧ (∀ k vs, src !! k = Some vs → CanonicalHeaderKey k ∉ hopByHopHeaders →
       (∀ k', k' ∈ dom src → CanonicalHeaderKey k' = CanonicalHeaderKey k → k' = k) →
       Header_Values out k = vs)
  ∧ (∀ n vs, out !! n = Some vs →
       (n ∉ hopByHopHeaders) ∧ ∃ k, k ∈ dom src ∧ CanonicalHeaderKey k = n).
Proof.
  intros Hperm out.
  assert (Hdrop : ∀ n, n ∈ hopByHopHeaders → out !! n = None).
  { intros n Hn. unfold out. by rewrite copyHeaders_in_dropped. }
  assert (Hvals : ∀ n, n ∉ hopByHopHeaders →
            default [] (out !! n)
            = concat ((filter (λ kv, CanonicalHeaderKey kv.1 = n) order).*2)).
  { intros n Hn. unfold out. rewrite copyHeaders_in_values, lookup_empty.
    by rewrite decide_False. }
  split_and!.
  - exact Hdrop.
  - intros k h Hh Hlow.
    destruct (hopByHopHeaders_canonical h Hh) as [Hv Hc].
    assert (CanonicalHeaderKey k = h) as ->.
    { by rewrite (canonical_case_insensitive k h Hlow Hv). }
    split; [done|]. by apply Hdrop.
  - exact Hvals.
  - intros k vs Hk Hnot Huniq. unfold Header_Values. rewrite (Hvals _ Hnot).
    rewrite (filter_one_key _ order k vs).
    + simpl. by rewrite app_nil_r.
    + rewrite Hperm. apply NoDup_fst_map_to_list.
    + rewrite Hperm. by apply elem_of_map_to_list.
    + intros [k' vs'] Hin. simpl. split; [|by intros ->].
      apply Huniq. rewrite Hperm in Hin. apply elem_of_map_to_list in Hin.
      apply elem_of_dom. eauto.
  - intros n vs Hn. unfold out in Hn.
    apply copyHeaders_in_origin in Hn as [Hs|(Hnot & [k' vs'] & Hin & Hk)].
    + rewrite lookup_empty in Hs. by destruct Hs.
    + split; [done|]. exists k'. split; [|done].
      rewrite Hperm in Hin. apply elem_of_map_to_list in Hin.
      apply elem_of_dom. eauto.
Qed.

(** When the inbound keys are canonical, as [net/http] delivers them, the
    outcome does not depend on the order of the range: it is the inbound
    map without the names of the set. *)
Lemma copyHeaders_in_canonical src order n :
  order ≡ₚ map_to_list src →
  (∀ k, k ∈ dom src → CanonicalHeaderKey k = k) →
  default [] (copyHeaders_in order ∅ !! n)
  = if decide (n ∈ hopByHopHeaders) then [] else default [] (src !! n).
Proof.
  intros Hperm Hcanon.
  rewrite copyHeaders_in_values, lookup_empty. simpl.
  case_decide as Hn; [done|].
  destruct (src !! n) as [vs|] eqn:Hs.
  - rewrite (filter_one_key _ order n vs).
    + simpl. by rewrite app_nil_r.
    + rewrite Hperm. apply NoDup_fst_map_to_list.
    + rewrite Hperm. by apply elem_of_map_to_list.
    + intros [k' vs'] Hin. simpl. rewrite Hperm in Hin.
      apply elem_of_map_to_list in Hin.
      rewrite Hcanon; [done|]. apply elem_of_dom. eauto.
  - rewrite filter_none; [done|]. intros [k' vs'] Hin Hk. simpl in Hk.
    rewrite Hperm in Hin. apply elem_of_map_to_list in Hin.
    rewrite Hcanon in Hk by (apply elem_of_dom; eauto). congruence.
Qed.


(** The theorem on the headers of the test of the repository. *)
Lemma copyHeaders_forwards_witness :
  copyHeaders scenario.inbound ∅ !! "Authorization" = None
  ∧ copyHeaders scenario.inbound ∅ !! "X-Api-Key" = None
  ∧ copyHeaders scenario.inbound ∅ !! CanonicalHeaderKey "proxy-authorization" = None
  ∧ Header_Values (copyHeaders scenario.inbound ∅) "X-Custom-Header" = ["value"]
  ∧ Header_Values (copyHeaders scenario.inbound ∅) "Content-Type" = ["application/json"].
Proof.
  destruct (copyHeaders_forwards scenario.inbound (map_to_list scenario.inbound))
    as (Hdrop & Hcase & _ & Hkeep & _); [reflexivity|].
  assert (Hdom : ∀ k', k' ∈ dom scenario.inbound →
            k' ∈ ["Content-Type"; "Authorization"; "X-Api-Key"; "Connection";
                  "X-Custom-Header"; "proxy-authorization"]).
  { intros k'. unfold scenario.inbound.
    rewrite !dom_insert_L, dom_singleton_L, !elem_of_union, !elem_of_singleton.
    rewrite !elem_of_cons. tauto. }
  split_and!.
  - apply Hdrop. apply elem_of_hopByHopHeaders. repeat constructor.
  - apply Hdrop. apply elem_of_hopByHopHeaders. repeat constructor.
  - apply (Hcase "proxy-authorization" "Proxy-Authorization"); [|reflexivity].
    apply elem_of_hopByHopHeaders. repeat constructor.
  - apply Hkeep.
    + reflexivity.
    + rewrite elem_of_hopByHopHeaders. change (CanonicalHeaderKey "X-Custom-Header")
        with "X-Custom-Header". rewrite !not_elem_of_cons.
      split_and!; [discriminate..|apply not_elem_of_nil].
    + intros k' Hk'. apply Hdom in Hk'. rewrite !elem_of_cons, elem_of_nil in Hk'.
      destruct Hk' as [->|[->|[->|[->|[->|[->|[]]]]]]]; vm_compute; congruence.
  - apply Hkeep.
    + reflexivity.
    + rewrite elem_of_hopByHopHeaders. change (CanonicalHeaderKey "Content-Type")
        with "Content-Type". rewrite !not_elem_of_cons.
      split_and!; [discriminate..|apply not_elem_of_nil].
    + intros k' Hk'. apply Hdom in Hk'. rewrite !elem_of_cons, elem_of_nil in Hk'.
      destruct Hk' as [->|[->|[->|[->|[->|[->|[]]]]]]]; vm_compute; congruence.
Defined.

End headers.

(** ** The token budget of the messages endpoint *)

Section budget.
Context `{J : encoding_json} `{F : float_conversion}.
Implicit Types (modelConfig : ModelConfig) (body : string) (req : MessagesRequest)
  (store : ConfigStore) (r : Request).

Lemma resolvedMaxTokens_nonzero modelConfig : spec.resolvedMaxTokens modelConfig ≠ 0.
Proof.
  unfold spec.resolvedMaxTokens. destruct (spec.numericOverride _ _); [|done].
  by case_decide.
Qed.

Lemma ensureMaxTokens_nonzero modelConfig body req :
  mr_MaxTokens req ≠ 0 → ensureMaxTokens modelConfig body req = (body, req).
Proof. intros H. unfold ensureMaxTokens. by rewrite bool_decide_eq_false_2. Qed.

Lemma ensureMaxTokens_zero modelConfig body req :
  mr_MaxTokens req = 0 →
  ensureMaxTokens modelConfig body req
  = (updateBody "max_tokens" (Int (spec.resolvedMaxTokens modelConfig)) body,
     setMaxTokens (spec.resolvedMaxTokens modelConfig) req).
Proof.
  intros H. unfold ensureMaxTokens, spec.resolvedMaxTokens, spec.numericOverride.
  rewrite bool_decide_eq_true_2 by done.
  destruct (mc_OverrideParams modelConfig) as [overrides|].
  - destruct (overrides !! "max_tokens") as [[| | mt | | | | |]|];
      try (rewrite bool_decide_eq_true_2 by done; reflexivity).
    simpl. case_decide as Hz.
    + rewrite bool_decide_eq_true_2 by done. reflexivity.
    + rewrite bool_decide_eq_false_2 by done. reflexivity.
  - rewrite bool_decide_eq_true_2 by done. reflexivity.
Qed.

Lemma updateBody_ok key v body (bodyMap : gmap string any) updated :
  unmarshalMap body = Some bodyMap →
  marshalMap (<[key := v]> bodyMap) = Some updated →
  updateBody key v body = updated.
Proof. intros Hu Hm. unfold updateBody. by rewrite Hu, Hm. Qed.

Lemma injectThinking_idle modelConfig body req :
  spec.thinkingIdle modelConfig req → injectThinking modelConfig body req = body.
Proof.
  unfold injectThinking. intros [->|[th ->]]; [done|].
  by destruct (mc_Thinking modelConfig).
Qed.

(** [MessagesHandler] on a request that passes its checks. *)
Lemma MessagesHandler_proxies store r req modelConfig :
  Method r = "POST" →
  Z.of_nat (String.length (ReqBody r)) ≤ maxBodySize →
  unmarshalRequest (ReqBody r) = Some req →
  mr_Model req ≠ EmptyString →
  Models store !! mr_Model req = Some modelConfig →
  MessagesHandler store r
  = Proxy (injectThinking modelConfig
             (ensureMaxTokens modelConfig (ReqBody r) req).1
             (ensureMaxTokens modelConfig (ReqBody r) req).2)
          "/v1/messages" modelConfig
          (default EmptyString (ctxRequestID r))
          (default EmptyString (ctxApplication r))
          (mr_Model req).
Proof.
  intros Hm Hsz Hreq Hmodel Halias. unfold MessagesHandler.
  rewrite bool_decide_eq_false_2 by (intros H; by apply H).
  rewrite (proj2 (Z.ltb_ge _ _)) by done.
  rewrite Hreq, bool_decide_eq_false_2, Halias by done.
  destruct (ensureMaxTokens modelConfig (ReqBody r) req) as [body1 req1] eqn:He.
  simpl. f_equal.
  unfold ensureMaxTokens in He. case_bool_decide; [|by injection He as <- <-].
  injection He as <- <-.
  destruct (mc_OverrideParams modelConfig) as [overrides|]; [|by case_bool_decide].
  destruct (overrides !! "max_tokens") as [[| | mt | | | | |]|]; by case_bool_decide.
Qed.

(** C4 (amended): on /v1/messages, for a request that is forwarded,
    - when the caller's max_tokens is not zero, the token-budget pass leaves
      body and request as they are, and the body forwarded is byte for byte
      the body received whenever the thinking pass has nothing to inject;
    - when it is zero (absent, null or 0), the budget of the request becomes
      the alias's numeric max_tokens override converted to an integer if
      that integer is not zero, and 4096 otherwise; it is never zero;
      - if the body decodes into a map and the map with that one value under
        max_tokens encodes, the encoding replaces the body and, the thinking
        pass being idle, is the body forwarded;
      - if the body does not decode into a map, or the map with the value
        does not encode, nothing is injected: the pass leaves the body as
        received and, the thinking pass being idle, the body forwarded is
        byte for byte the body received; when the body does not decode,
        it is so whatever the thinking pass;
    - the pass run again on its own result changes nothing. *)
Theorem MessagesHandler_max_tokens store r req modelConfig :
  Method r = "POST" →
  Z.of_nat (String.length (ReqBody r)) ≤ maxBodySize →
  unmarshalRequest (ReqBody r) = Some req →
  mr_Model req ≠ EmptyString →
  Models store !! mr_Model req = Some modelConfig →
  let v := match spec.numericOverride "max_tokens" modelConfig with
           | Some mt => if decide (int_of_float64 mt = 0) then 4096 else int_of_float64 mt
           | None => 4096
           end in
  ∃ forwarded,
    MessagesHandler store r
    = Proxy forwarded "/v1/messages" modelConfig
            (default EmptyString (ctxRequestID r))
            (default EmptyString (ctxApplication r)) (mr_Model req)
    ∧ (mr_MaxTokens req ≠ 0 →
       ensureMaxTokens modelConfig (ReqBody r) req = (ReqBody r, req)
       ∧ (spec.thinkingIdle modelConfig req → forwarded = ReqBody r))
    ∧ (mr_MaxTokens req = 0 →
       v ≠ 0
       ∧ (ensureMaxTokens modelConfig (ReqBody r) req).2 = setMaxTokens v req
       ∧ (∀ bodyMap updated,
           unmarshalMap (ReqBody r) = Some bodyMap →
           marshalMap (<["max_tokens" := Int v]> bodyMap) = Some updated →
           <["max_tokens" := Int v]> bodyMap !! "max_tokens" = Some (Int v)
           ∧ (ensureMaxTokens modelConfig (ReqBody r) req).1 = updated
           ∧ (spec.thinkingIdle modelConfig req → forwarded = updated))
       ∧ (unmarshalMap (ReqBody r) = None
          ∨ (∃ bodyMap, unmarshalMap (ReqBody r) = Some bodyMap
                ∧ marshalMap (<["max_tokens" := Int v]> bodyMap) = None) →
          (ensureMaxTokens modelConfig (ReqBody r) req).1 = ReqBody r
          ∧ (spec.thinkingIdle modelConfig req → forwarded = ReqBody r))
       ∧ (unmarshalMap (ReqBody r) = None → forwarded = ReqBody r))
    ∧ (∀ body1 req1,
         ensureMaxTokens modelConfig (ReqBody r) req = (body1, req1) →
         ensureMaxTokens modelConfig body1 req1 = (body1, req1)).
Proof.
  intros Hm Hsz Hreq Hmodel Halias v.
  fold (spec.resolvedMaxTokens modelConfig) in v. subst v.
  eexists. split; [by apply MessagesHandler_proxies|]. split_and!.
  - intros Hnz. rewrite ensureMaxTokens_nonzero by done. split; [done|].
    intros Hidle. simpl. by apply injectThinking_idle.
  - intros Hz. rewrite ensureMaxTokens_zero by done. simpl. split_and!.
    + apply resolvedMaxTokens_nonzero.
    + done.
    + intros bodyMap updated Hu Hmar. rewrite lookup_insert_eq.
      rewrite (updateBody_ok _ _ _ _ _ Hu Hmar). split_and!; [done..|].
      intros Hidle. apply injectThinking_idle.
      destruct Hidle as [?|?]; [by left|by right].
    + intros Hfail.
      assert (updateBody "max_tokens" (Int (spec.resolvedMaxTokens modelConfig))
                (ReqBody r) = ReqBody r) as ->.
      { unfold updateBody. destruct Hfail as [->|(bodyMap & -> & ->)]; done. }
      split; [done|]. intros Hidle. apply injectThinking_idle.
      destruct Hidle as [?|?]; [by left|by right].
    + intros Hu.
      assert (∀ key v, updateBody key v (ReqBody r) = ReqBody r) as Hsame.
      { intros key v. unfold updateBody. by rewrite Hu. }
      rewrite Hsame. unfold injectThinking.
      destruct (mc_Thinking modelConfig); [|done].
      by destruct (mr_Thinking _).
  - intros body1 req1 He.
    destruct (decide (mr_MaxTokens req = 0)) as [Hz|Hnz].
    + rewrite ensureMaxTokens_zero in He by done. injection He as <- <-.
      apply ensureMaxTokens_nonzero. simpl. apply resolvedMaxTokens_nonzero.
    + rewrite ensureMaxTokens_nonzero in He by done. injection He as <- <-.
      by apply ensureMaxTokens_nonzero.
Qed.

End budget.

Section budget_scenario.
#[local] Existing Instance scenario.amd64.

(** The scenario of the specification: the alias claude-sonnet with the
    override max_tokens 4096, a body without max_tokens.  The body forwarded
    holds max_tokens 4096. *)
Lemma MessagesHandler_max_tokens_witness :
  ∃ forwarded,
    MessagesHandler (J := scenario.tableJSON)
      (scenario.store (scenario.claudeSonnet (Some (Float64 (4096 # 1))) None))
      (scenario.post scenario.helloBody)
    = Proxy forwarded "/v1/messages"
        (scenario.claudeSonnet (Some (Float64 (4096 # 1))) None)
        "20240102030405-abcdefgh" "DEV" "claude-sonnet"
    ∧ forwarded = scenario.helloBody4096.
Proof.
  destruct (MessagesHandler_max_tokens (J := scenario.tableJSON)
              (scenario.store (scenario.claudeSonnet (Some (Float64 (4096 # 1))) None))
              (scenario.post scenario.helloBody)
              (scenario.messagesRequest 0)
              (scenario.claudeSonnet (Some (Float64 (4096 # 1))) None))
    as (forwarded & Hp & _ & Hzero & _).
  - reflexivity.
  - vm_compute. discriminate.
  - reflexivity.
  - discriminate.
  - reflexivity.
  - exists forwarded. split; [exact Hp|].
    destruct (Hzero eq_refl) as (_ & _ & Hbody & _).
    destruct (Hbody scenario.helloMap scenario.helloBody4096) as (_ & _ & Hf).
    + reflexivity.
    + vm_compute. reflexivity.
    + apply Hf. by left.
Defined.

(** C4 as stated fails three times.  An alias whose numeric max_tokens
    override is present and is 0 does not give the injected value: 4096 is
    injected.  A body whose max_tokens is 1024 is not forwarded as received
    when the alias declares a thinking directive the caller did not supply.
    And a body without max_tokens that decodes into the request but not
    into a map is forwarded as received, with no max_tokens injected. *)
Lemma MessagesHandler_max_tokens_counterexample :
  spec.numericOverride "max_tokens" (scenario.claudeSonnet (Some (Float64 0)) None)
  = Some 0%Q
  ∧ mr_MaxTokens
      (ensureMaxTokens (J := scenario.tableJSON)
         (scenario.claudeSonnet (Some (Float64 0)) None)
         scenario.helloBody (scenario.messagesRequest 0)).2 = 4096
  ∧ MessagesHandler (J := scenario.tableJSON)
      (scenario.store (scenario.claudeSonnet (Some (Float64 0)) None))
      (scenario.post scenario.helloBody)
    = Proxy scenario.helloBody4096 "/v1/messages"
        (scenario.claudeSonnet (Some (Float64 0)) None)
        "20240102030405-abcdefgh" "DEV" "claude-sonnet"
  ∧ MessagesHandler (J := scenario.tableJSON)
      (scenario.store (scenario.claudeSonnet None (Some scenario.thinking)))
      (scenario.post scenario.budgetBody)
    = Proxy scenario.budgetBodyThinking "/v1/messages"
        (scenario.claudeSonnet None (Some scenario.thinking))
        "20240102030405-abcdefgh" "DEV" "claude-sonnet"
  ∧ scenario.budgetBodyThinking ≠ scenario.budgetBody
  ∧ mr_MaxTokens <$> unmarshalRequest (encoding_json := scenario.tableJSONHuge)
                       scenario.hugeBody = Some 0
  ∧ MessagesHandler (J := scenario.tableJSONHuge)
      (scenario.store (scenario.claudeSonnet (Some (Float64 (4096 # 1))) None))
      (scenario.post scenario.hugeBody)
    = Proxy scenario.hugeBody "/v1/messages"
        (scenario.claudeSonnet (Some (Float64 (4096 # 1))) None)
        "20240102030405-abcdefgh" "DEV" "claude-sonnet".
Proof.
  split_and!; try (vm_compute; reflexivity).
  apply String.eqb_neq. vm_compute. reflexivity.
Qed.

End budget_scenario.

(** * Further properties of the code *)

Local Open Scope list_scope.

(** ** Middleware *)

Section middleware_more.
Implicit Types (proxyKeys : list ProxyKey) (next : Handler) (r : Request) (σ : State).

Lemma keyMap_app proxyKeys l :
  keyMap (proxyKeys ++ l) = foldl (λ m pk, <[Key pk := Application pk]> m) (keyMap proxyKeys) l.
Proof. unfold keyMap. by rewrite foldl_app. Qed.

Lemma keyMap_later_untouched (m : gmap string string) l k :
  (∀ pk, pk ∈ l → Key pk ≠ k) →
  foldl (λ m pk, <[Key pk := Application pk]> m) m l !! k = m !! k.
Proof.
  revert m. induction l as [|pk l IH]; intros m Hl; [done|]. simpl.
  rewrite IH by (intros pk' Hin; apply Hl; by right).
  apply lookup_insert_ne. apply Hl. left.
Qed.

(** When several proxy keys hold the same key, the application of the last
    one is the identity of the key; a key that no entry holds is not in the
    map. *)
Theorem keyMap_last_wins proxyKeys :
  (∀ l1 pk l2, proxyKeys = l1 ++ pk :: l2 →
     (∀ pk', pk' ∈ l2 → Key pk' ≠ Key pk) →
     keyMap proxyKeys !! Key pk = Some (Application pk))
  ∧ (∀ k, keyMap proxyKeys !! k = None ↔ ∀ pk, pk ∈ proxyKeys → Key pk ≠ k).
Proof.
  split.
  - intros l1 pk l2 -> Hl2.
    rewrite keyMap_app. simpl. rewrite keyMap_later_untouched by done.
    apply lookup_insert_eq.
  - intros k. rewrite keyMap_lookup. rewrite fmap_None, last_None.
    split.
    + intros Hnil pk Hin Hk.
      assert (pk ∈ filter (λ pk, Key pk = k) proxyKeys) as Hf
        by (by apply list_elem_of_filter).
      rewrite Hnil in Hf. by apply elem_of_nil in Hf.
    + intros Hno. apply filter_none. intros pk Hin Hk. by apply (Hno pk).
Qed.

Lemma keyMap_last_wins_witness :
  keyMap [ {| Key := "pk-1"; Application := "OLD" |};
           {| Key := "pk-2"; Application := "OTHER" |};
           {| Key := "pk-1"; Application := "NEW" |} ] !! "pk-1" = Some "NEW".
Proof.
  apply (proj1 (keyMap_last_wins _)
           [ {| Key := "pk-1"; Application := "OLD" |};
             {| Key := "pk-2"; Application := "OTHER" |} ]
           {| Key := "pk-1"; Application := "NEW" |} []).
  - reflexivity.
  - intros pk' Hin. by apply elem_of_nil in Hin.
Defined.

Lemma strings_ToLower_app (s t : string) :
  strings_ToLower (s +:+ t) = strings_ToLower s +:+ strings_ToLower t.
Proof. induction s as [|c s IH]; [done|]. simpl. by rewrite IH. Qed.

Lemma strings_ToLower_length (s : string) :
  String.length (strings_ToLower s) = String.length s.
Proof. induction s as [|c s IH]; [done|]. simpl. by rewrite IH. Qed.

Lemma strings_HasPrefix_app (p s : string) : strings_HasPrefix (p +:+ s) p = true.
Proof.
  induction p as [|c p IH]; [done|]. simpl. by rewrite Ascii.eqb_refl, IH.
Qed.

Lemma slice_from_app (p s : string) : slice_from (String.length p) (p +:+ s) = s.
Proof. induction p as [|c p IH]; [by destruct s|]. simpl. exact IH. Qed.

(** The token of an Authorization header: what follows the word bearer and
    one space, the word in any mix of upper and lower case; the whole value
    when it does not begin so.  The x-api-key header is not read. *)
Theorem extractToken_Authorization r :
  Header_Get (ReqHeader r) "Authorization" ≠ EmptyString →
  (∀ p k, strings_ToLower p = "bearer " →
     Header_Get (ReqHeader r) "Authorization" = p +:+ k →
     extractToken r = (k, "Authorization"))
  ∧ (strings_HasPrefix (strings_ToLower (Header_Get (ReqHeader r) "Authorization"))
       "bearer " = false →
     extractToken r = (Header_Get (ReqHeader r) "Authorization", "Authorization")).
Proof.
  intros Hne. unfold extractToken. rewrite bool_decide_eq_true_2 by done. split.
  - intros p k Hp Hh. rewrite Hh.
    assert (String.length p = 7%nat) as Hlen.
    { by rewrite <- strings_ToLower_length, Hp. }
    assert (strings_HasPrefix (strings_ToLower (p +:+ k)) "bearer " = true) as ->.
    { rewrite strings_ToLower_app, Hp. apply (strings_HasPrefix_app "bearer "). }
    assert (slice_from 7 (p +:+ k) = k) as ->; [|done].
    rewrite <- Hlen. apply slice_from_app.
  - by intros ->.
Qed.

Lemma extractToken_Authorization_witness :
  extractToken (scenario.request {[ "Authorization" := ["BeArEr pk-dev-1"];
                                    "X-Api-Key" := ["pk-other"] ]})
  = ("pk-dev-1", "Authorization")
  ∧ extractToken (scenario.request {[ "Authorization" := ["pk-dev-1"] ]})
    = ("pk-dev-1", "Authorization").
Proof.
  split.
  - destruct (extractToken_Authorization
                (scenario.request {[ "Authorization" := ["BeArEr pk-dev-1"];
                                     "X-Api-Key" := ["pk-other"] ]})) as [H1 _].
    + vm_compute. discriminate.
    + apply (H1 "BeArEr " "pk-dev-1"); reflexivity.
  - destruct (extractToken_Authorization
                (scenario.request {[ "Authorization" := ["pk-dev-1"] ]})) as [_ H2].
    + vm_compute. discriminate.
    + apply H2. reflexivity.
Defined.



(** What [AuthMiddleware] logs.  A request it hands on is handed on with
    the log as it was.  A request it rejects adds one warning, whose
    attributes hold the path, the remote address and, for an invalid key,
    the name of the header the token came from: never the token. *)
Theorem AuthMiddleware_log proxyKeys next r σ :
  let token := (extractToken r).1 in
  (∀ app, token ≠ EmptyString → keyMap proxyKeys !! token = Some app →
     ∃ σ', AuthMiddleware proxyKeys next r σ = next (withApplication app r) σ'
           ∧ st_log σ' = st_log σ
           ∧ underlying (st_w σ') = underlying (st_w σ))
  ∧ (token = EmptyString ∨ keyMap proxyKeys !! token = None →
     ∃ record, st_log (AuthMiddleware proxyKeys next r σ) = st_log σ ++ [record]
       ∧ log_level record = "WARN"
       ∧ (log_attrs record).*1 ⊆ ["path"; "remote_addr"; "source"]
       ∧ (log_attrs record).*2
           ⊆ [URL_Path r; RemoteAddr r; "Authorization"; "x-api-key"]).
Proof.
  intros token. split.
  - intros app Hne Hin. rewrite AuthMiddleware_token. cbv zeta. fold token.
    rewrite bool_decide_eq_false_2 by done. rewrite Hin.
    eexists. split; [reflexivity|]. split; [done|]. by destruct (st_w σ).
  - intros Hfail. rewrite AuthMiddleware_token. cbv zeta. fold token.
    assert (Hsrc : (extractToken r).2 ∈ ["Authorization"; "x-api-key"; EmptyString]).
    { unfold extractToken. repeat case_bool_decide; simpl; repeat constructor. }
    case_bool_decide as Ht.
    + eexists. split; [reflexivity|]. simpl. split; [done|].
      split; intros x Hx; rewrite !elem_of_cons in Hx; rewrite !elem_of_cons;
        naive_solver.
    + destruct Hfail as [?|Hnone]; [done|]. rewrite Hnone.
      assert (Hsrc' : (extractToken r).2 ∈ ["Authorization"; "x-api-key"]).
      { unfold extractToken. unfold token, extractToken in Ht.
        repeat case_bool_decide; simpl in *; try done; repeat constructor. }
      eexists. split; [reflexivity|]. simpl. split; [done|].
      split; intros x Hx; rewrite !elem_of_cons in Hx; rewrite !elem_of_cons in Hsrc';
        rewrite !elem_of_cons; naive_solver.
Qed.

Lemma AuthMiddleware_log_witness :
  ∃ record,
    st_log (AuthMiddleware scenario.keys scenario.ok
              (scenario.request {[ "Authorization" := ["Bearer pk-secret-typo"] ]})
              scenario.fresh)
    = st_log scenario.fresh ++ [record]
    ∧ log_level record = "WARN"
    ∧ (log_attrs record).*1 ⊆ ["path"; "remote_addr"; "source"]
    ∧ (log_attrs record).*2
        ⊆ ["/v1/messages"; "10.0.0.1:5000"; "Authorization"; "x-api-key"].
Proof.
  apply (proj2 (AuthMiddleware_log scenario.keys scenario.ok
                  (scenario.request {[ "Authorization" := ["Bearer pk-secret-typo"] ]})
                  scenario.fresh)).
  right. reflexivity.
Defined.

End middleware_more.

Section request_ids.

Lemma get_elem_of (s : string) (i : nat) (c : ascii) :
  String.get i s = Some c → c ∈ list_ascii_of_string s.
Proof.
  revert i. induction s as [|d s IH]; intros i; [done|].
  destruct i as [|i]; simpl.
  - intros [= ->]. left.
  - intros H. right. by eapply IH.
Qed.

Lemma get_is_Some (s : string) (i : nat) :
  (i < String.length s)%nat → is_Some (String.get i s).
Proof.
  revert i. induction s as [|d s IH]; intros i; simpl; [lia|].
  destruct i as [|i]; [eauto|]. intros ?. apply IH. lia.
Qed.

Lemma generateRandomString_length_charset' (length : nat) (rand : nat → nat) (pos : nat) :
  String.length (generateRandomString length rand pos) = length
  ∧ Forall (λ c, c ∈ list_ascii_of_string charset)
      (list_ascii_of_string (generateRandomString length rand pos)).
Proof.
  revert pos. induction length as [|n IH]; intros pos.
  - split; [done|constructor].
  - destruct (IH (S pos)) as [Hl Hc].
    change (generateRandomString (S n) rand pos)
      with (String (default "000"%char (String.get (rand pos `mod` 36)%nat charset))
              (generateRandomString n rand (S pos))).
    destruct (get_is_Some charset (rand pos `mod` 36)%nat) as [c Hget].
    { change (String.length charset) with 36%nat. apply Nat.mod_upper_bound. lia. }
    rewrite Hget. cbn [default String.length list_ascii_of_string].
    split; [by rewrite Hl|]. constructor; [|done]. by eapply get_elem_of.
Qed.

(** [generateRandomString] returns exactly the number of bytes asked for,
    each of them a lower-case letter or a digit of the charset, whatever the
    random source yields. *)
Theorem generateRandomString_length_charset (length : nat) (rand : nat → nat) (pos : nat) :
  String.length (generateRandomString length rand pos) = length
  ∧ Forall (λ c, c ∈ list_ascii_of_string charset)
      (list_ascii_of_string (generateRandomString length rand pos)).
Proof. apply generateRandomString_length_charset'. Qed.

Lemma append_length (s t : string) :
  String.length (s +:+ t) = (String.length s + String.length t)%nat.
Proof. induction s as [|c s IH]; [done|]. simpl. by rewrite IH. Qed.

(** A request id is the clock reading, a dash and eight bytes of the
    charset: nine bytes longer than the clock reading.  Generating it takes
    eight draws from the random source, so the next id is made of the next
    eight draws. *)
Theorem generateRequestID_shape (σ : State) :
  let '(id, σ1) := generateRequestID σ in
  let '(id', σ2) := generateRequestID σ1 in
  String.length id = (String.length (st_now σ) + 9)%nat
  ∧ id = st_now σ +:+ "-" +:+ generateRandomString 8 (st_rand σ) (st_draws σ)
  ∧ id' = st_now σ +:+ "-" +:+ generateRandomString 8 (st_rand σ) (st_draws σ + 8)
  ∧ st_draws σ2 = (st_draws σ + 16)%nat
  ∧ st_w σ2 = st_w σ ∧ st_log σ2 = st_log σ.
Proof.
  unfold generateRequestID, setDraws.
  cbn -[generateRandomString String.append String.length Nat.add].
  split_and!; try done.
  - rewrite !append_length.
    rewrite (proj1 (generateRandomString_length_charset' 8 (st_rand σ) (st_draws σ))).
    simpl. lia.
  - lia.
Qed.

(** [chain] wraps the handler so that the first middleware of the list is
    the outermost: it sees the request first and the others only if it
    hands the request on. *)
Theorem chain_first_outermost (h : Handler) (m : Handler → Handler)
    (mws : list (Handler → Handler)) :
  chain h [] = h
  ∧ chain h (m :: mws) = m (chain h mws)
  ∧ chain h (mws ++ [m]) = chain (m h) mws.
Proof.
  split_and!.
  - reflexivity.
  - by rewrite !chain_foldr.
  - rewrite !chain_foldr. by rewrite foldr_app.
Qed.

End request_ids.

(** ** Validation, continued *)

Section validation_more.
Implicit Types (alias : string) (model : ModelConfig) (target : TargetConfig)
  (targets : list TargetConfig).

Lemma api_provider_cases (p : string) :
  p ∈ ["anthropic"; "openai"; "google"] → p ≠ "bedrock" ∧ p ≠ "vertex-ai" ∧ p ≠ EmptyString.
Proof.
  rewrite !elem_of_cons, elem_of_nil.
  intros [->|[->|[->|[]]]]; split_and!; discriminate.
Qed.

Lemma validateSingleProviderConfig_None alias model :
  validateSingleProviderConfig alias model = None ↔ wellformed.singleOk model.
Proof.
  unfold validateSingleProviderConfig, wellformed.singleOk.
  case_bool_decide as Hapi.
  - destruct (api_provider_cases _ Hapi) as (Hb & Hv & _).
    case_bool_decide as Hk; split; try done.
    + intros [[_ ?]|[[? _]|[? _]]]; done.
    + intros _. by left.
  - case_bool_decide as Hb.
    + case_bool_decide as Haws; split; try done.
      * intros [[? _]|[(_ & ? & ? & ?)|[Hv _]]]; [done| |congruence].
        destruct Haws as [?|[?|?]]; done.
      * intros _. right; left. split; [done|]. split_and!; intros ?; apply Haws; auto.
    + case_bool_decide as Hv.
      * case_bool_decide as Hvx; split; try done.
        -- intros [[? _]|[[? _]|(_ & ? & ? & ?)]]; [done..|].
           destruct Hvx as [?|[?|?]]; done.
        -- intros _. right; right. split; [done|].
           split_and!; intros ?; apply Hvx; auto.
      * split; [done|]. intros [[? _]|[[? _]|[? _]]]; done.
Qed.

Lemma validateModelConfig_single' alias model :
  mc_Strategy model = None →
  validateModelConfig alias model = None ↔ wellformed.singleOk model.
Proof.
  intros Hs. unfold validateModelConfig. rewrite Hs.
  case_bool_decide as Hp.
  - split; [done|]. unfold wellformed.singleOk. rewrite Hp.
    intros [[Hin _]|[[? _]|[? _]]]; [|done..].
    by destruct (api_provider_cases _ Hin) as (_ & _ & ?).
  - apply validateSingleProviderConfig_None.
Qed.

(** Without a strategy, a configuration passes the validation exactly when
    its provider is one of anthropic, openai and google with an API key, or
    bedrock with access key id, secret key and region, or vertex-ai with
    project id, region and service account; a missing or unknown provider
    never passes. *)
Theorem validateModelConfig_single alias model :
  mc_Strategy model = None →
  (validateModelConfig alias model = None ↔ wellformed.singleOk model)
  ∧ (mc_Provider model = EmptyString →
     validateModelConfig alias model = Some (ErrNoProvider alias))
  ∧ (mc_Provider model ∉ ["anthropic"; "openai"; "google"; "bedrock"; "vertex-ai"; EmptyString] →
     validateModelConfig alias model = Some (ErrUnknownProvider alias (mc_Provider model))).
Proof.
  intros Hs. split; [by apply validateModelConfig_single'|].
  unfold validateModelConfig. rewrite Hs. split_and!.
  - intros Hp. by rewrite bool_decide_eq_true_2.
  - rewrite !not_elem_of_cons. intros (H1 & H2 & H3 & H4 & H5 & H6 & _).
    rewrite bool_decide_eq_false_2 by done. unfold validateSingleProviderConfig.
    rewrite bool_decide_eq_false_2.
    2:{ rewrite !elem_of_cons, elem_of_nil. intros [?|[?|[?|[]]]]; done. }
    by rewrite !bool_decide_eq_false_2 by done.
Qed.

Lemma validateModelConfig_single_witness :
  validateModelConfig "bedrock-model" scenario.bedrockModel = None
  ∧ validateModelConfig "test" (scenario.model EmptyString "sk" None [] None 0 None)
    = Some (ErrNoProvider "test").
Proof.
  split.
  - apply (proj1 (validateModelConfig_single "bedrock-model" scenario.bedrockModel eq_refl)).
    right; left. split_and!; [reflexivity|discriminate..].
  - apply (proj1 (proj2 (validateModelConfig_single "test"
             (scenario.model EmptyString "sk" None [] None 0 None) eq_refl))).
    reflexivity.
Defined.

Lemma validateProviderConfig_None alias i target :
  tc_Provider target ≠ EmptyString →
  validateProviderConfig alias (tc_Provider target) i target = None
  ↔ wellformed.targetOk target.
Proof.
  intros Hp. unfold validateProviderConfig, wellformed.targetOk.
  case_bool_decide as Hapi.
  - destruct (api_provider_cases _ Hapi) as (Hb & _).
    case_bool_decide as Hk.
    + split; [done|]. intros (_ & Hkey & _). exfalso. by apply Hkey.
    + split; [|done]. intros _. split_and!; done.
  - case_bool_decide as Hb.
    + case_bool_decide as Haws.
      * split; [done|]. intros (_ & _ & Hneed). destruct (Hneed Hb) as (? & ? & ?).
        destruct Haws as [?|[?|?]]; done.
      * split; [|done]. intros _. split_and!; [done..|].
        intros _. split_and!; intros ?; apply Haws; auto.
    + split; [|by case_bool_decide]. intros _. split_and!; done.
Qed.

Lemma validateProviderConfig_error alias i target err :
  validateProviderConfig alias (tc_Provider target) i target = Some err →
  err ∈ [ErrTargetMissingAPIKey alias i (tc_Provider target); ErrTargetMissingAWS alias i].
Proof.
  unfold validateProviderConfig.
  repeat case_bool_decide; intros [= <-]; repeat constructor.
Qed.

(** The targets pass exactly when each has a provider, an API key if the
    provider is anthropic, openai or google, and the three AWS fields if it
    is bedrock; and the error returned is about the first target that does
    not, under its index. *)
Theorem validateTargets_first_offender alias i targets :
  (validateTargets alias i targets = None ↔ Forall wellformed.targetOk targets)
  ∧ (∀ err, validateTargets alias i targets = Some err →
     ∃ j target, targets !! j = Some target
       ∧ ¬ wellformed.targetOk target
       ∧ Forall wellformed.targetOk (take j targets)
       ∧ err ∈ [ErrTargetNoProvider alias (i + j);
                ErrTargetMissingAPIKey alias (i + j) (tc_Provider target);
                ErrTargetMissingAWS alias (i + j)]).
Proof.
  revert i. induction targets as [|t targets IH]; intros i.
  - split; [by split; [constructor|]|]. by intros err [=].
  - destruct (IH (S i)) as [IHn IHe]. simpl.
    case_bool_decide as Hp.
    + split.
      * split; [done|]. intros Hall. apply Forall_cons in Hall as [(? & _) _]. done.
      * intros err [= <-]. exists 0%nat, t. split_and!; [done| |constructor|].
        -- intros (? & _). done.
        -- rewrite Nat.add_0_r. left.
    + destruct (validateProviderConfig alias (tc_Provider t) i t) as [e|] eqn:Hv.
      * split.
        -- split; [done|]. intros Hall. apply Forall_cons in Hall as [Hok _].
           apply (validateProviderConfig_None alias i t Hp) in Hok. congruence.
        -- intros err [= <-]. exists 0%nat, t. split_and!; [done| |constructor|].
           ++ intros Hok. apply (validateProviderConfig_None alias i t Hp) in Hok.
              congruence.
           ++ rewrite Nat.add_0_r. right.
              by apply validateProviderConfig_error.
      * apply (validateProviderConfig_None alias i t Hp) in Hv. split.
        -- rewrite IHn. split; [by constructor|].
           intros Hall. by apply Forall_cons in Hall as [_ ?].
        -- intros err He. destruct (IHe err He) as (j & t' & Hj & Hbad & Hpre & Herr).
           exists (S j), t'. split_and!; [done|done|by constructor|].
           by replace (i + S j)%nat with (S i + j)%nat by lia.
Qed.

Lemma validateTargets_first_offender_witness :
  ∃ j target,
    [scenario.target "openai" "sk-1"; scenario.target "anthropic" EmptyString] !! j
    = Some target
    ∧ ¬ wellformed.targetOk target
    ∧ Forall wellformed.targetOk
        (take j [scenario.target "openai" "sk-1"; scenario.target "anthropic" EmptyString])
    ∧ ErrTargetMissingAPIKey "claude-sonnet" 1 "anthropic"
      ∈ [ErrTargetNoProvider "claude-sonnet" (0 + j);
         ErrTargetMissingAPIKey "claude-sonnet" (0 + j) (tc_Provider target);
         ErrTargetMissingAWS "claude-sonnet" (0 + j)].
Proof.
  apply (proj2 (validateTargets_first_offender "claude-sonnet" 0
                  [scenario.target "openai" "sk-1";
                   scenario.target "anthropic" EmptyString])).
  vm_compute. reflexivity.
Defined.

(** A configuration that passes the validation has a provider to put in the
    provider header: [getProviderFromConfig] does not return the empty
    string for it, and without a strategy it returns one of the five
    providers. *)
Theorem validated_provider alias model :
  validateModelConfig alias model = None →
  getProviderFromConfig model ≠ EmptyString
  ∧ (mc_Strategy model = None →
     getProviderFromConfig model
       ∈ ["anthropic"; "openai"; "google"; "bedrock"; "vertex-ai"]).
Proof.
  intros Hv. unfold getProviderFromConfig.
  destruct (mc_Strategy model) as [s|] eqn:Hs.
  - split; [|done]. case_bool_decide as Hp; [done|].
    unfold validateModelConfig in Hv. rewrite Hs in Hv.
    destruct (mc_Targets model) as [|t ts]; [done|].
    simpl in Hv. case_bool_decide; [done|].
    simpl in Hv. repeat case_bool_decide; try done.
  - apply (validateModelConfig_single' alias model Hs) in Hv.
    assert (mc_Provider model ∈ ["anthropic"; "openai"; "google"; "bedrock"; "vertex-ai"])
      as Hin.
    { destruct Hv as [[Hin _]|[[-> _]|[-> _]]]; [|repeat constructor..].
      rewrite !elem_of_cons in Hin. rewrite !elem_of_cons. tauto. }
    assert (mc_Provider model ≠ EmptyString) as Hne.
    { intros He. rewrite He in Hin. rewrite !elem_of_cons, elem_of_nil in Hin.
      destruct Hin as [?|[?|[?|[?|[?|[]]]]]]; done. }
    rewrite bool_decide_eq_true_2 by done. done.
Qed.

Lemma validated_provider_witness :
  getProviderFromConfig
    (scenario.strategyModel "fallback"
       [scenario.target "openai" "sk-1"; scenario.target "anthropic" "sk-2"])
  ≠ EmptyString.
Proof.
  apply (validated_provider "multi"
           (scenario.strategyModel "fallback"
              [scenario.target "openai" "sk-1"; scenario.target "anthropic" "sk-2"])).
  vm_compute. reflexivity.
Defined.

End validation_more.

(** ** Loading the proxy keys *)

Section proxy_keys.
Implicit Types (environ : list string) (proxyKeys : list ProxyKey) (pk : ProxyKey)
  (s k v app : string).

Lemma append_cons (c : ascii) (s t : string) : String c s +:+ t = String c (s +:+ t).
Proof. reflexivity. Qed.

Lemma append_nil (t : string) : EmptyString +:+ t = t.
Proof. reflexivity. Qed.

Lemma append_assoc (a b c : string) : (a +:+ b) +:+ c = a +:+ (b +:+ c).
Proof. induction a as [|x a IH]; [done|]. by rewrite !append_cons, IH. Qed.

Lemma without_cons (c d : ascii) (s : string) :
  wellformed.without c (String d s) ↔ c ≠ d ∧ wellformed.without c s.
Proof. unfold wellformed.without. simpl. by rewrite not_elem_of_cons. Qed.

Lemma without_app (c : ascii) (s t : string) :
  wellformed.without c (s +:+ t) ↔ wellformed.without c s ∧ wellformed.without c t.
Proof.
  induction s as [|d s IH].
  - rewrite append_nil. unfold wellformed.without at 2. simpl.
    rewrite elem_of_nil. tauto.
  - rewrite append_cons, !without_cons, IH. tauto.
Qed.

Lemma eqb_false_ne (c d : ascii) : Ascii.eqb c d = false ↔ d ≠ c.
Proof. rewrite Ascii.eqb_neq. split; intros H ?; by apply H. Qed.

Lemma splitAtEquals_app k v :
  wellformed.without "="%char k → splitAtEquals (k +:+ "=" +:+ v) = Some (k, v).
Proof.
  induction k as [|c k IH]; intros Hk; [done|].
  apply without_cons in Hk as [Hc Hk]. rewrite append_cons. simpl.
  rewrite (proj2 (eqb_false_ne c "="%char)) by done. by rewrite IH.
Qed.

Lemma splitAtEquals_Some s k v :
  splitAtEquals s = Some (k, v) →
  s = k +:+ "=" +:+ v ∧ wellformed.without "="%char k.
Proof.
  revert k. induction s as [|c s IH]; intros k; [done|]. simpl.
  destruct (Ascii.eqb c "="%char) eqn:Hc.
  - apply Ascii.eqb_eq in Hc as ->. intros [= <- <-]. split; [done|].
    unfold wellformed.without. simpl. apply not_elem_of_nil.
  - destruct (splitAtEquals s) as [[k' v']|]; [|done].
    intros [= <- <-]. destruct (IH k' eq_refl) as [-> Hk]. split; [done|].
    apply without_cons. split; [|done]. by apply eqb_false_ne.
Qed.

Lemma strings_HasPrefix_true s p :
  strings_HasPrefix s p = true ↔ s = p +:+ slice_from (String.length p) s.
Proof.
  revert s. induction p as [|c p IH]; intros s.
  - simpl. by destruct s.
  - destruct s as [|d s]; [done|].
    cbn [strings_HasPrefix String.length slice_from]. rewrite append_cons. split.
    + intros [Hcd Hs]%andb_true_iff. apply Ascii.eqb_eq in Hcd as ->.
      f_equal. by apply IH.
    + intros [= -> Hs]. apply andb_true_iff. split; [apply Ascii.eqb_refl|].
      by apply IH.
Qed.

(** The key an entry of the environment gives, if any. *)
Lemma proxy_key_of_entry env pk :
  (∃ key value, splitAtEquals env = Some (key, value)
     ∧ strings_HasPrefix key "PORTUS_KEY_" = true
     ∧ pk = {| Key := value; Application := slice_from 11 key |})
  ↔ env = "PORTUS_KEY_" +:+ Application pk +:+ "=" +:+ Key pk
    ∧ wellformed.without "="%char (Application pk).
Proof.
  split.
  - intros (key & value & Hs & Hp & ->). simpl.
    apply splitAtEquals_Some in Hs as [-> Hk].
    apply strings_HasPrefix_true in Hp. simpl in Hp.
    rewrite Hp in Hk. apply (without_app _ "PORTUS_KEY_") in Hk as [_ Hk].
    split; [|done]. rewrite Hp at 1. by rewrite append_assoc.
  - intros [-> Hk]. exists ("PORTUS_KEY_" +:+ Application pk), (Key pk).
    split_and!.
    + rewrite <- append_assoc. apply splitAtEquals_app.
      apply without_app. split; [|done].
      unfold wellformed.without. apply (bool_decide_unpack _). by vm_compute.
    + apply (strings_HasPrefix_app "PORTUS_KEY_").
    + change 11%nat with (String.length "PORTUS_KEY_").
      rewrite slice_from_app. by destruct pk.
Qed.

Lemma loadProxyKeys_cons env environ proxyKeys :
  loadProxyKeys (env :: environ) proxyKeys
  = loadProxyKeys environ
      (match splitAtEquals env with
       | Some (key, value) =>
           if strings_HasPrefix key "PORTUS_KEY_" then
             proxyKeys ++ [ {| Key := value; Application := slice_from 11 key |} ]
           else proxyKeys
       | None => proxyKeys
       end).
Proof. reflexivity. Qed.

Lemma loadProxyKeys_append environ proxyKeys :
  loadProxyKeys environ proxyKeys = proxyKeys ++ loadProxyKeys environ [].
Proof.
  revert proxyKeys. induction environ as [|env environ IH]; intros proxyKeys.
  - by rewrite app_nil_r.
  - rewrite !loadProxyKeys_cons.
    destruct (splitAtEquals env) as [[key value]|]; [|apply IH].
    destruct (strings_HasPrefix key "PORTUS_KEY_"); [|apply IH].
    rewrite IH, (IH ([] ++ _)), app_assoc. done.
Qed.

Lemma loadProxyKeys_app environ1 environ2 proxyKeys :
  loadProxyKeys (environ1 ++ environ2) proxyKeys
  = loadProxyKeys environ2 (loadProxyKeys environ1 proxyKeys).
Proof. unfold loadProxyKeys. by rewrite foldl_app. Qed.

Lemma loadProxyKeys_elem_of environ proxyKeys pk :
  pk ∈ loadProxyKeys environ proxyKeys
  ↔ pk ∈ proxyKeys
    ∨ (("PORTUS_KEY_" +:+ Application pk +:+ "=" +:+ Key pk) ∈ environ
       ∧ wellformed.without "="%char (Application pk)).
Proof.
  revert proxyKeys. induction environ as [|env environ IH]; intros proxyKeys.
  - simpl. rewrite elem_of_nil. tauto.
  - rewrite loadProxyKeys_cons, IH, elem_of_cons.
    pose proof (proxy_key_of_entry env pk) as Hentry.
    destruct (splitAtEquals env) as [[key value]|] eqn:Hs.
    + destruct (strings_HasPrefix key "PORTUS_KEY_") eqn:Hp.
      * rewrite elem_of_app, list_elem_of_singleton.
        assert (pk = {| Key := value; Application := slice_from 11 key |}
                ↔ "PORTUS_KEY_" +:+ Application pk +:+ "=" +:+ Key pk = env
                  ∧ wellformed.without "="%char (Application pk)) as ->.
        { rewrite <- (and_comm (wellformed.without _ _)).
          rewrite (and_comm (wellformed.without _ _)).
          split.
          - intros ->. destruct Hentry as [[<- ?] _]; [|done].
            exists key, value. done.
          - intros [<- Hw]. destruct Hentry as [_ (k' & v' & Hk' & _ & ->)]; [done|].
            congruence. }
        tauto.
      * split; [tauto|]. intros [?|[[Heq|?] Hw]]; [tauto| |tauto].
        destruct Hentry as [_ (k' & v' & Hk' & Hp' & _)]; [done|]. congruence.
    + split; [tauto|]. intros [?|[[Heq|?] Hw]]; [tauto| |tauto].
      destruct Hentry as [_ (k' & v' & Hk' & _)]; [done|]. congruence.
Qed.

(** [loadProxyKeys] keeps the keys the store has and appends, in the order
    of the environment, one key per entry PORTUS_KEY_app=value: the keys it
    returns are those of the store and those entries, the application being
    the name after the prefix and the key everything after the first equals
    sign. *)
Theorem loadProxyKeys_entries environ proxyKeys :
  (∃ added, loadProxyKeys environ proxyKeys = proxyKeys ++ added
            ∧ (length added ≤ length environ)%nat)
  ∧ (∀ pk, pk ∈ loadProxyKeys environ proxyKeys
       ↔ pk ∈ proxyKeys
         ∨ (("PORTUS_KEY_" +:+ Application pk +:+ "=" +:+ Key pk) ∈ environ
            ∧ wellformed.without "="%char (Application pk))).
Proof.
  split; [|intros pk; apply loadProxyKeys_elem_of].
  exists (loadProxyKeys environ []). split; [apply loadProxyKeys_append|].
  clear proxyKeys. induction environ as [|env environ IH]; [done|].
  rewrite loadProxyKeys_cons.
  destruct (splitAtEquals env) as [[key value]|]; [|simpl; lia].
  destruct (strings_HasPrefix key "PORTUS_KEY_"); [|simpl; lia].
  rewrite loadProxyKeys_append, length_app. simpl. lia.
Qed.

Lemma loadProxyKeys_entries_witness :
  {| Key := "pk=with=equals"; Application := "BACKEND" |}
    ∈ loadProxyKeys ["HOME=/root"; "PORTUS_KEY_BACKEND=pk=with=equals"; "NOEQUALS"] [].
Proof.
  apply (proj2 (loadProxyKeys_entries _ _)). right. split.
  - simpl. right. left.
  - unfold wellformed.without. apply (bool_decide_unpack _). by vm_compute.
Defined.

(** From the environment to the identity: when the environment holds the
    entry PORTUS_KEY_app=secret, with a secret that is not empty and that no
    later entry gives to another application, a request that presents the
    secret as bearer token is handed on as the application app. *)
Theorem environment_key_authenticates environ1 environ2 app secret next r σ vs :
  secret ≠ EmptyString →
  wellformed.without "="%char app →
  (∀ pk, pk ∈ loadProxyKeys environ2 [] → Key pk ≠ secret) →
  ReqHeader r !! "Authorization" = Some (("Bearer " +:+ secret) :: vs) →
  AuthMiddleware
    (loadProxyKeys (environ1 ++ ("PORTUS_KEY_" +:+ app +:+ "=" +:+ secret) :: environ2) [])
    next r σ
  = next (withApplication app r) (setWriter (setApplication app (st_w σ)) σ).
Proof.
  intros Hne Happ Hlater Hhdr.
  rewrite AuthMiddleware_token. cbv zeta.
  rewrite (extractToken_bearer r secret vs Hhdr). simpl.
  rewrite bool_decide_eq_false_2 by done.
  assert (keyMap (loadProxyKeys
            (environ1 ++ ("PORTUS_KEY_" +:+ app +:+ "=" +:+ secret) :: environ2) [])
          !! secret = Some app) as ->; [|done].
  rewrite loadProxyKeys_app, loadProxyKeys_cons.
  rewrite <- append_assoc, splitAtEquals_app.
  2:{ apply without_app. split; [|done].
      unfold wellformed.without. apply (bool_decide_unpack _). by vm_compute. }
  rewrite (strings_HasPrefix_app "PORTUS_KEY_").
  change 11%nat with (String.length "PORTUS_KEY_"). rewrite slice_from_app.
  rewrite loadProxyKeys_append, keyMap_app.
  rewrite keyMap_later_untouched by done.
  rewrite keyMap_snoc. apply lookup_insert_eq.
Qed.

Lemma environment_key_authenticates_witness :
  AuthMiddleware
    (loadProxyKeys (["PATH=/bin"] ++ ("PORTUS_KEY_" +:+ "DEV" +:+ "=" +:+ "pk-dev-1")
                      :: ["PORTUS_KEY_OPS=pk-ops-2"]) [])
    scenario.ok (scenario.request {[ "Authorization" := ["Bearer pk-dev-1"] ]})
    scenario.fresh
  = scenario.ok
      (withApplication "DEV" (scenario.request {[ "Authorization" := ["Bearer pk-dev-1"] ]}))
      (setWriter (setApplication "DEV" (st_w scenario.fresh)) scenario.fresh).
Proof.
  apply (environment_key_authenticates ["PATH=/bin"] ["PORTUS_KEY_OPS=pk-ops-2"]
           "DEV" "pk-dev-1" scenario.ok _ scenario.fresh []).
  - discriminate.
  - unfold wellformed.without. apply (bool_decide_unpack _). by vm_compute.
  - intros pk Hpk. vm_compute in Hpk. apply list_elem_of_singleton in Hpk as ->.
    discriminate.
  - reflexivity.
Defined.

End proxy_keys.

(** ** Environment variables in the configuration files *)

Section env_vars.
Implicit Types (env : gmap string string) (s content lit name rest : string)
  (st : scanState) (missing : gmap string (list string)).

Lemma append_nil_r (s : string) : s +:+ EmptyString = s.
Proof. induction s as [|c s IH]; [done|]. by rewrite append_cons, IH. Qed.

Lemma eqb_true_eq (c d : ascii) : Ascii.eqb c d = true ↔ c = d.
Proof. apply Ascii.eqb_eq. Qed.

(** The scan loses nothing: the segments, written back, are the text held
    back followed by the text scanned. *)
Lemma scan_raw st s :
  wellformed.rawSegments (scan st s) = wellformed.pending st +:+ s.
Proof.
  revert st. induction s as [|c s IH]; intros st.
  - destruct st; cbn [scan wellformed.rawSegments foldr wellformed.pending];
      by rewrite ?append_nil_r.
  - destruct st as [| |acc]; cbn [scan].
    + destruct (Ascii.eqb c "$"%char) eqn:Hc.
      * apply eqb_true_eq in Hc as ->. by rewrite IH.
      * cbn [wellformed.rawSegments foldr]. fold (wellformed.rawSegments (scan Outside s)).
        by rewrite IH.
    + destruct (Ascii.eqb c "{"%char) eqn:Hc; [|destruct (Ascii.eqb c "$"%char) eqn:Hd].
      * apply eqb_true_eq in Hc as ->. by rewrite IH.
      * apply eqb_true_eq in Hd as ->.
        cbn [wellformed.rawSegments foldr]. fold (wellformed.rawSegments (scan Dollar s)).
        by rewrite IH.
      * cbn [wellformed.rawSegments foldr]. fold (wellformed.rawSegments (scan Outside s)).
        by rewrite IH.
    + destruct (Ascii.eqb c "}"%char) eqn:Hc.
      * apply eqb_true_eq in Hc as ->. destruct acc as [|d acc].
        -- cbn [wellformed.rawSegments foldr].
           fold (wellformed.rawSegments (scan Outside s)). by rewrite IH.
        -- cbn [wellformed.rawSegments foldr].
           fold (wellformed.rawSegments (scan Outside s)). rewrite IH.
           unfold wellformed.placeholder, wellformed.pending.
           by rewrite !append_assoc.
      * rewrite IH. unfold wellformed.pending. by rewrite !append_assoc.
Qed.

Lemma expand_raw env segs :
  (∀ name, Ref name ∈ segs → os_Getenv env name = wellformed.placeholder name) →
  foldr (λ seg rest,
           match seg with
           | Text t => t +:+ rest
           | Ref name => os_Getenv env name +:+ rest
           end) EmptyString segs
  = wellformed.rawSegments segs.
Proof.
  induction segs as [|seg segs IH]; intros H; [done|]. simpl.
  rewrite IH by (intros n Hn; apply H; by right).
  destruct seg as [t|n]; [done|]. rewrite H; [done|left].
Qed.

Lemma elem_of_references name content :
  name ∈ references content ↔ Ref name ∈ scan Outside content.
Proof.
  unfold references. rewrite list_elem_of_omap. split.
  - intros ([t|n] & Hin & Heq); [done|]. by injection Heq as ->.
  - intros Hin. by exists (Ref name).
Qed.

(** [expandEnvVars] touches nothing but the placeholders: a content without
    any comes back as it is, and more generally a content comes back as it
    is from an environment in which the value of every variable it refers
    to is the placeholder itself. *)
Theorem expandEnvVars_unchanged env content :
  (references content = [] → expandEnvVars env content = content)
  ∧ ((∀ name, name ∈ references content →
        os_Getenv env name = wellformed.placeholder name) →
     expandEnvVars env content = content).
Proof.
  assert (Hgen : (∀ name, name ∈ references content →
                    os_Getenv env name = wellformed.placeholder name) →
                 expandEnvVars env content = content).
  { intros H. unfold expandEnvVars. rewrite expand_raw.
    - by rewrite scan_raw.
    - intros n Hn. apply H. by apply elem_of_references. }
  split; [|done]. intros Hnil. apply Hgen. intros n Hn.
  rewrite Hnil in Hn. by apply elem_of_nil in Hn.
Qed.

Lemma expandEnvVars_unchanged_witness :
  expandEnvVars ∅ "{ price: $5, brace: ${}, open: ${HOME" = "{ price: $5, brace: ${}, open: ${HOME".
Proof.
  apply (proj1 (expandEnvVars_unchanged ∅ "{ price: $5, brace: ${}, open: ${HOME")).
  reflexivity.
Defined.

Lemma scan_text lit st' rest :
  wellformed.without "$"%char lit →
  scan Outside (lit +:+ rest)
  = ((λ c, Text (String c EmptyString)) <$> list_ascii_of_string lit) ++ scan Outside rest.
Proof.
  induction lit as [|c lit IH]; intros Hl; [done|].
  apply without_cons in Hl as [Hc Hl]. rewrite append_cons. cbn [scan].
  rewrite (proj2 (eqb_false_ne c "$"%char)) by done.
  simpl. by rewrite IH.
Qed.

Lemma scan_name acc name rest :
  wellformed.without "}"%char name →
  scan (Name acc) (name +:+ "}" +:+ rest)
  = match acc +:+ name with
    | EmptyString => Text "${}"
    | n => Ref n
    end :: scan Outside rest.
Proof.
  revert acc. induction name as [|c name IH]; intros acc Hn.
  - rewrite append_nil, append_nil_r. by destruct acc.
  - apply without_cons in Hn as [Hc Hn]. rewrite append_cons. cbn [scan].
    rewrite (proj2 (eqb_false_ne c "}"%char)) by done.
    rewrite IH by done. by rewrite append_assoc.
Qed.

Lemma text_segments env lit rest0 :
  foldr (λ seg rest,
           match seg with
           | Text t => t +:+ rest
           | Ref name => os_Getenv env name +:+ rest
           end) rest0
        ((λ c, Text (String c EmptyString)) <$> list_ascii_of_string lit)
  = lit +:+ rest0.
Proof.
  induction lit as [|c lit IH]; [done|].
  change (list_ascii_of_string (String c lit)) with (c :: list_ascii_of_string lit).
  rewrite fmap_cons. cbn [foldr]. by rewrite IH.
Qed.

Lemma omap_text (l : list ascii) :
  omap (λ seg, match seg with Ref n => Some n | Text _ => None end)
       ((λ c, Text (String c EmptyString)) <$> l) = [].
Proof. induction l as [|c l IH]; [done|]. simpl. exact IH. Qed.

(** A content that begins with a text free of dollar signs followed by the
    placeholder of a name expands to the text, the value of the variable (the
    empty string when it is not set) and the expansion of what follows; the
    name is the first reference of the content. *)
Theorem expandEnvVars_placeholder env lit name rest :
  wellformed.without "$"%char lit →
  name ≠ EmptyString →
  wellformed.without "}"%char name →
  expandEnvVars env (lit +:+ wellformed.placeholder name +:+ rest)
  = lit +:+ os_Getenv env name +:+ expandEnvVars env rest
  ∧ references (lit +:+ wellformed.placeholder name +:+ rest)
    = name :: references rest
  ∧ (env !! name = None →
     expandEnvVars env (lit +:+ wellformed.placeholder name +:+ rest)
     = lit +:+ expandEnvVars env rest).
Proof.
  intros Hlit Hne Hname.
  assert (Hscan : scan Outside (lit +:+ wellformed.placeholder name +:+ rest)
                  = ((λ c, Text (String c EmptyString)) <$> list_ascii_of_string lit)
                    ++ Ref name :: scan Outside rest).
  { rewrite (scan_text lit Outside) by done. f_equal.
    unfold wellformed.placeholder. rewrite !append_assoc.
    change ("${" +:+ name +:+ "}" +:+ rest)
      with (String "$" (String "{" (name +:+ "}" +:+ rest))).
    cbn [scan]. simpl Ascii.eqb. cbn iota.
    rewrite scan_name by done. rewrite append_nil. by destruct name. }
  assert (Hexp : expandEnvVars env (lit +:+ wellformed.placeholder name +:+ rest)
                 = lit +:+ os_Getenv env name +:+ expandEnvVars env rest).
  { unfold expandEnvVars. rewrite Hscan, foldr_app. simpl.
    apply text_segments. }
  split_and!.
  - exact Hexp.
  - unfold references. rewrite Hscan, omap_app. simpl.
    by rewrite omap_text.
  - intros Hunset. rewrite Hexp. unfold os_Getenv. by rewrite Hunset.
Qed.

Lemma expandEnvVars_placeholder_witness :
  expandEnvVars {[ "TEST_VAR_A" := "hello" ]}
    ("{key: " +:+ wellformed.placeholder "TEST_VAR_A" +:+ "}")
  = "{key: " +:+ os_Getenv {[ "TEST_VAR_A" := "hello" ]} "TEST_VAR_A"
      +:+ expandEnvVars {[ "TEST_VAR_A" := "hello" ]} "}".
Proof.
  apply (expandEnvVars_placeholder {[ "TEST_VAR_A" := "hello" ]}
           "{key: " "TEST_VAR_A" "}").
  - unfold wellformed.without. apply (bool_decide_unpack _). by vm_compute.
  - discriminate.
  - unfold wellformed.without. apply (bool_decide_unpack _). by vm_compute.
Defined.

Lemma checkMissing_fold env file (names : list string) missing name :
  default [] (foldl (λ missing varName,
                if bool_decide (os_Getenv env varName = EmptyString) then
                  <[varName := default [] (missing !! varName) ++ [file]]> missing
                else missing) missing names !! name)
  = default [] (missing !! name)
    ++ (if decide (os_Getenv env name = EmptyString)
        then replicate (length (filter (λ n, n = name) names)) file else []).
Proof.
  revert missing. induction names as [|n names IH]; intros missing.
  - simpl. case_decide; by rewrite app_nil_r.
  - cbn [foldl]. rewrite IH, filter_cons. clear IH.
    case_bool_decide as Hn.
    + destruct (decide (n = name)) as [->|Hne].
      * rewrite lookup_insert_eq, !decide_True by done. simpl.
        by rewrite <- app_assoc.
      * by rewrite lookup_insert_ne.
    + destruct (decide (n = name)) as [->|Hne]; [|done].
      by rewrite !decide_False by done.
Qed.

(** [checkMissingEnvVars] records the file of the alias under a name once
    for each reference to the name in the content, when the variable reads
    empty (unset, or set to the empty string), after the files already
    recorded; it records nothing under the other names. *)
Theorem checkMissingEnvVars_files env alias content missing name :
  default [] (checkMissingEnvVars env alias content missing !! name)
  = default [] (missing !! name)
    ++ (if decide (os_Getenv env name = EmptyString)
        then replicate (wellformed.referenceCount name content) (alias +:+ ".json")
        else []).
Proof. unfold checkMissingEnvVars. apply checkMissing_fold. Qed.

End env_vars.

(** ** The validation of the whole configuration *)

Section validate_config.
Implicit Types (env : gmap string string) (store : ConfigStore)
  (missing : gmap string (list string)).

Lemma foldl_snoc_fmap {A B} (f : A → B) (start : list B) (l : list A) :
  foldl (λ errors kv, errors ++ [f kv]) start l = start ++ (f <$> l).
Proof.
  revert start. induction l as [|x l IH]; intros start; simpl.
  - by rewrite app_nil_r.
  - by rewrite IH, <- app_assoc.
Qed.

Lemma foldl_snoc_omap {A B C} (g : A → option C) (h : C → B) (start : list B) (l : list A) :
  foldl (λ errors kv, match g kv with
                      | Some err => errors ++ [h err]
                      | None => errors
                      end) start l
  = start ++ omap (λ kv, h <$> g kv) l.
Proof.
  revert start. induction l as [|x l IH]; intros start; simpl.
  - by rewrite app_nil_r.
  - rewrite IH. destruct (g x); simpl; [by rewrite <- app_assoc|done].
Qed.

Lemma fmap_eq_nil {A B} (f : A → B) (l : list A) : f <$> l = [] ↔ l = [].
Proof. by destruct l. Qed.

Lemma omap_nil_iff {A B} (f : A → option B) (l : list A) :
  omap f l = [] ↔ ∀ x, x ∈ l → f x = None.
Proof.
  induction l as [|x l IH]; simpl.
  - split; [|done]. intros _ y Hy. by apply elem_of_nil in Hy.
  - destruct (f x) eqn:Hx.
    + split; [done|]. intros H. specialize (H x (list_elem_of_here _ _)). congruence.
    + rewrite IH. split.
      * intros H y [->|Hy]%elem_of_cons; auto.
      * intros H y Hy. apply H. by right.
Qed.

Lemma checkMissing_keeps env alias content missing name :
  is_Some (missing !! name) →
  is_Some (checkMissingEnvVars env alias content missing !! name).
Proof.
  unfold checkMissingEnvVars. revert missing.
  induction (references content) as [|n names IH]; intros missing Hs; [done|].
  simpl. apply IH. case_bool_decide; [|done].
  destruct (decide (n = name)) as [->|?].
  - rewrite lookup_insert_eq. eauto.
  - by rewrite lookup_insert_ne.
Qed.

Lemma checkMissing_records env alias content missing name :
  name ∈ references content → os_Getenv env name = EmptyString →
  is_Some (checkMissingEnvVars env alias content missing !! name).
Proof.
  unfold checkMissingEnvVars. revert missing.
  induction (references content) as [|n names IH]; intros missing Hin Hempty.
  - by apply elem_of_nil in Hin.
  - simpl. apply elem_of_cons in Hin as [<-|Hin]; [|by apply IH].
    rewrite bool_decide_eq_true_2 by done.
    assert (∀ m, is_Some (m !! name) →
              is_Some (foldl (λ missing varName,
                 if bool_decide (os_Getenv env varName = EmptyString) then
                   <[varName := default [] (missing !! varName) ++ [alias +:+ ".json"]]> missing
                 else missing) m names !! name)) as Hkeep.
    { clear. induction names as [|n names IH]; intros m Hm; [done|].
      simpl. apply IH. case_bool_decide; [|done].
      destruct (decide (n = name)) as [->|?].
      - rewrite lookup_insert_eq. eauto.
      - by rewrite lookup_insert_ne. }
    apply Hkeep. rewrite lookup_insert_eq. eauto.
Qed.

Lemma checkMissing_nothing env alias content missing :
  (∀ name, name ∈ references content → os_Getenv env name ≠ EmptyString) →
  checkMissingEnvVars env alias content missing = missing.
Proof.
  unfold checkMissingEnvVars. revert missing.
  induction (references content) as [|n names IH]; intros missing H; [done|].
  simpl. rewrite bool_decide_eq_false_2 by (apply H; left).
  apply IH. intros name Hin. apply H. by right.
Qed.

Lemma missingVars_keeps env (rawOrder : list (string * string)) missing name :
  is_Some (missing !! name) →
  is_Some (foldl (λ missing kv, checkMissingEnvVars env kv.1 kv.2 missing)
             missing rawOrder !! name).
Proof.
  revert missing. induction rawOrder as [|kv l IH]; intros missing Hm; [done|].
  simpl. apply IH. by apply checkMissing_keeps.
Qed.

Lemma missingVars_records env (rawOrder : list (string * string)) missing kv name :
  kv ∈ rawOrder → name ∈ references kv.2 → os_Getenv env name = EmptyString →
  is_Some (foldl (λ missing kv, checkMissingEnvVars env kv.1 kv.2 missing)
             missing rawOrder !! name).
Proof.
  revert missing. induction rawOrder as [|kv' l IH]; intros missing Hkv Hname Hunset.
  - by apply elem_of_nil in Hkv.
  - simpl. apply elem_of_cons in Hkv as [<-|Hkv]; [|by apply IH].
    apply missingVars_keeps. by apply checkMissing_records.
Qed.

(** The map of missing variables is empty exactly when every variable the
    raw configurations refer to reads non-empty. *)
Lemma missingVars_empty env (rawOrder : list (string * string)) :
  foldl (λ missing kv, checkMissingEnvVars env kv.1 kv.2 missing) ∅ rawOrder = ∅
  ↔ ∀ kv name, kv ∈ rawOrder → name ∈ references kv.2 →
      os_Getenv env name ≠ EmptyString.
Proof.
  split.
  - intros Hempty kv name Hkv Hname Hunset.
    pose proof (missingVars_records env rawOrder ∅ kv name Hkv Hname Hunset) as Hsome.
    rewrite Hempty, lookup_empty in Hsome. by destruct Hsome.
  - intros Hall. induction rawOrder as [|kv l IH]; [done|]. simpl.
    rewrite checkMissing_nothing.
    + apply IH. intros kv' name Hkv'. apply Hall. by right.
    + intros name. apply Hall. left.
Qed.

(** [ValidateConfig] returns no error exactly when there is a proxy key,
    there is a model, every variable the raw configurations refer to reads
    non-empty, and every model passes [validateModelConfig]; this whatever
    the order in which its ranges visit the maps. *)
Theorem ValidateConfig_no_error env (rawConfigs : gmap string string) store
    rawOrder missingOrder modelOrder :
  rawOrder ≡ₚ map_to_list rawConfigs →
  (∀ missing, missingOrder missing ≡ₚ map_to_list missing) →
  modelOrder ≡ₚ map_to_list (Models store) →
  ValidateConfig_in env rawOrder missingOrder modelOrder store = []
  ↔ ProxyKeys store ≠ []
    ∧ Models store ≠ ∅
    ∧ (∀ alias raw name, rawConfigs !! alias = Some raw → name ∈ references raw →
         os_Getenv env name ≠ EmptyString)
    ∧ (∀ alias model, Models store !! alias = Some model →
         validateModelConfig alias model = None).
Proof.
  intros Hraw Hmiss Hmodel. unfold ValidateConfig_in.
  rewrite foldl_snoc_omap, foldl_snoc_fmap.
  rewrite !app_nil, fmap_eq_nil, omap_nil_iff.
  assert (missingOrder (foldl (λ missing kv, checkMissingEnvVars env kv.1 kv.2 missing)
                          ∅ rawOrder) = []
          ↔ ∀ alias raw name, rawConfigs !! alias = Some raw → name ∈ references raw →
              os_Getenv env name ≠ EmptyString) as ->.
  { rewrite <- Permutation_nil_r, Hmiss, Permutation_nil_r, map_to_list_empty_iff.
    rewrite missingVars_empty. split.
    - intros H alias raw name Hlook. apply (H (alias, raw)).
      rewrite Hraw. by apply elem_of_map_to_list.
    - intros H [alias raw] name Hin. apply (H alias raw).
      rewrite Hraw in Hin. by apply elem_of_map_to_list in Hin. }
  assert ((∀ kv, kv ∈ modelOrder → ErrModel <$> validateModelConfig kv.1 kv.2 = None)
          ↔ ∀ alias model, Models store !! alias = Some model →
              validateModelConfig alias model = None) as ->.
  { split.
    - intros H alias model Hlook. specialize (H (alias, model)).
      rewrite fmap_None in H. apply H. rewrite Hmodel. by apply elem_of_map_to_list.
    - intros H [alias model] Hin. rewrite fmap_None. apply H.
      rewrite Hmodel in Hin. by apply elem_of_map_to_list in Hin. }
  assert (Hsize : size (Models store) = 0%nat ↔ Models store = ∅) by apply map_size_empty_iff.
  assert (Hlen : length (ProxyKeys store) = 0%nat ↔ ProxyKeys store = [])
    by (destruct (ProxyKeys store); naive_solver).
  repeat case_bool_decide; rewrite ?app_nil; naive_solver.
Qed.

Lemma ValidateConfig_no_error_witness :
  ValidateConfig {[ "ANTHROPIC_API_KEY" := "sk-ant" ]}
    {[ "claude-sonnet" := "api_key: " +:+ wellformed.placeholder "ANTHROPIC_API_KEY" ]}
    (scenario.store (scenario.claudeSonnet None None))
  = [].
Proof.
  apply (ValidateConfig_no_error {[ "ANTHROPIC_API_KEY" := "sk-ant" ]}
           {[ "claude-sonnet" := "api_key: " +:+ wellformed.placeholder "ANTHROPIC_API_KEY" ]}
           (scenario.store (scenario.claudeSonnet None None))).
  - reflexivity.
  - reflexivity.
  - reflexivity.
  - split_and!.
    + discriminate.
    + intros H. apply (f_equal (λ m, m !! "claude-sonnet")) in H. vm_compute in H.
      discriminate.
    + intros alias raw name Hraw Hname.
      apply lookup_singleton_Some in Hraw as [<- <-].
      vm_compute in Hname. apply list_elem_of_singleton in Hname as ->.
      vm_compute. discriminate.
    + intros alias model Hm. simpl in Hm.
      apply lookup_singleton_Some in Hm as [<- <-]. reflexivity.
Defined.

End validate_config.

(** ** The server configuration *)

Section server_config.
Implicit Types (env : gmap string string) (store : ConfigStore) (ds : list nat).

Lemma digit_byte (d : nat) :
  (d < 10)%nat →
  nat_of_ascii (ascii_of_nat (48 + d)) = (48 + d)%nat
  ∧ Ascii.eqb (ascii_of_nat (48 + d)) "-"%char = false
  ∧ Ascii.eqb (ascii_of_nat (48 + d)) "+"%char = false.
Proof.
  intros Hd. do 10 (destruct d as [|d]; [by vm_compute|]). lia.
Qed.

Lemma numeral_cons (d : nat) ds :
  wellformed.numeral (d :: ds) = String (ascii_of_nat (48 + d)) (wellformed.numeral ds).
Proof. reflexivity. Qed.

Lemma parseDigits_numeral (acc : Z) ds :
  Forall (λ d, d < 10)%nat ds →
  parseDigits acc (wellformed.numeral ds)
  = Some (foldl (λ acc d, 10 * acc + Z.of_nat d) acc ds).
Proof.
  revert acc. induction ds as [|d ds IH]; intros acc Hds; [done|].
  apply Forall_cons in Hds as [Hd Hds]. rewrite numeral_cons. cbn [parseDigits].
  destruct (digit_byte d Hd) as (-> & _).
  rewrite (proj2 (Nat.leb_le 48 (48 + d))) by lia.
  rewrite (proj2 (Nat.leb_le (48 + d) 57)) by lia.
  cbn [andb]. replace (48 + d - 48)%nat with d by lia.
  rewrite IH by done. reflexivity.
Qed.

Lemma numeralValue_nonneg ds : 0 ≤ wellformed.numeralValue ds.
Proof.
  unfold wellformed.numeralValue.
  assert (∀ acc, 0 ≤ acc → 0 ≤ foldl (λ acc d, 10 * acc + Z.of_nat d) acc ds) as H.
  { induction ds as [|d ds IH]; intros acc Hacc; [done|]. simpl. apply IH. lia. }
  by apply H.
Qed.

(** [strconv.Atoi] on a decimal numeral, bare or signed. *)
Lemma strconv_Atoi_numeral ds :
  ds ≠ [] → Forall (λ d, d < 10)%nat ds → wellformed.numeralValue ds < 2^63 →
  strconv_Atoi (wellformed.numeral ds) = Some (wellformed.numeralValue ds)
  ∧ strconv_Atoi ("+" +:+ wellformed.numeral ds) = Some (wellformed.numeralValue ds)
  ∧ strconv_Atoi ("-" +:+ wellformed.numeral ds) = Some (- wellformed.numeralValue ds).
Proof.
  intros Hne Hds Hv. pose proof (numeralValue_nonneg ds) as H0.
  pose proof (parseDigits_numeral 0 ds Hds) as Hp.
  fold (wellformed.numeralValue ds) in Hp.
  destruct ds as [|d ds]; [done|]. clear Hne.
  assert (Hd : (d < 10)%nat) by (by apply Forall_cons in Hds as [? _]).
  destruct (digit_byte d Hd) as (_ & Hm & Hpl).
  split_and!.
  - rewrite numeral_cons in *. unfold strconv_Atoi. rewrite Hm, Hpl. cbn [orb].
    rewrite Hp. cbn iota.
    rewrite (proj2 (Z.leb_le _ _)), (proj2 (Z.ltb_lt _ _)) by lia. done.
  - change ("+" +:+ wellformed.numeral (d :: ds))
      with (String "+" (wellformed.numeral (d :: ds))).
    unfold strconv_Atoi. cbn [Ascii.eqb Bool.eqb andb orb].
    rewrite numeral_cons in *. rewrite Hp. cbn iota.
    rewrite (proj2 (Z.leb_le _ _)), (proj2 (Z.ltb_lt _ _)) by lia. done.
  - change ("-" +:+ wellformed.numeral (d :: ds))
      with (String "-" (wellformed.numeral (d :: ds))).
    unfold strconv_Atoi. cbn [Ascii.eqb Bool.eqb andb orb].
    rewrite numeral_cons in *. rewrite Hp. cbn iota.
    rewrite (proj2 (Z.leb_le _ _)), (proj2 (Z.ltb_lt _ _)) by lia. done.
Qed.

(** [loadServerConfig] takes the port as it is written.  Without
    PORTUS_PORT (unset or empty) the port is 8080.  With a decimal numeral,
    bare or signed, it is the number written, whatever it is: a negative
    number and a number above 65535 are accepted.  It fails exactly when
    PORTUS_PORT is set to a text [strconv.Atoi] rejects, and the error holds
    that text.  The models and proxy keys of the store are kept, and an
    unset path, gateway URL or log level gets its default. *)
Theorem loadServerConfig_port env store :
  (os_Getenv env "PORTUS_PORT" = EmptyString →
     ∃ store', loadServerConfig env store = inl store' ∧ ServerPort store' = 8080)
  ∧ (∀ ds, ds ≠ [] → Forall (λ d, d < 10)%nat ds → wellformed.numeralValue ds < 2^63 →
       (os_Getenv env "PORTUS_PORT" = wellformed.numeral ds →
          ∃ store', loadServerConfig env store = inl store'
                    ∧ ServerPort store' = wellformed.numeralValue ds)
       ∧ (os_Getenv env "PORTUS_PORT" = "-" +:+ wellformed.numeral ds →
          ∃ store', loadServerConfig env store = inl store'
                    ∧ ServerPort store' = - wellformed.numeralValue ds))
  ∧ (∀ text, loadServerConfig env store = inr text ↔
       text = os_Getenv env "PORTUS_PORT" ∧ text ≠ EmptyString
       ∧ strconv_Atoi text = None)
  ∧ (∀ store', loadServerConfig env store = inl store' →
       Models store' = Models store ∧ ProxyKeys store' = ProxyKeys store
       ∧ (env !! "PORTUS_CONFIG_PATH" = None → ConfigPath store' = "./config")
       ∧ (env !! "PORTKEY_GATEWAY_URL" = None → GatewayURL store' = "http://localhost:8787")
       ∧ (env !! "PORTUS_LOG_LEVEL" = None → LogLevel store' = "info")).
Proof.
  unfold loadServerConfig. split_and!.
  - intros ->. rewrite bool_decide_eq_true_2 by done. eexists. split; [reflexivity|done].
  - intros ds Hne Hds Hv.
    destruct (strconv_Atoi_numeral ds Hne Hds Hv) as (Hbare & _ & Hminus).
    assert (wellformed.numeral ds ≠ EmptyString) as Hnum.
    { destruct ds; [done|]. by rewrite numeral_cons. }
    split; intros ->.
    + rewrite bool_decide_eq_false_2 by done. rewrite Hbare.
      eexists. split; [reflexivity|done].
    + rewrite bool_decide_eq_false_2 by done. rewrite Hminus.
      eexists. split; [reflexivity|done].
  - intros text. case_bool_decide as Hp.
    + split; [done|]. intros (-> & ? & _). done.
    + destruct (strconv_Atoi (os_Getenv env "PORTUS_PORT")) eqn:Ha.
      * split; [done|]. intros (-> & _ & ?). congruence.
      * split; [by intros [= <-]|]. by intros (-> & _).
  - intros store' Hs.
    assert (∀ name fallback, env !! name = None →
              orDefault (os_Getenv env name) fallback = fallback) as Hdef.
    { intros name fallback Hn. unfold orDefault, os_Getenv. by rewrite Hn. }
    destruct (if bool_decide (os_Getenv env "PORTUS_PORT" = EmptyString)
              then Some defaultPort
              else strconv_Atoi (os_Getenv env "PORTUS_PORT")) as [p|]; [|done].
    injection Hs as <-. simpl. split_and!; try done; intros Hn; by apply Hdef.
Qed.

Lemma loadServerConfig_port_witness :
  ∃ store', loadServerConfig
              {[ "PORTUS_PORT" := "-" +:+ wellformed.numeral [7; 0; 0; 0; 0]%nat ]}
              (scenario.store (scenario.claudeSonnet None None)) = inl store'
            ∧ ServerPort store' = - wellformed.numeralValue [7; 0; 0; 0; 0]%nat.
Proof.
  apply (proj2 (proj1 (proj2 (loadServerConfig_port
           {[ "PORTUS_PORT" := "-" +:+ wellformed.numeral [7; 0; 0; 0; 0]%nat ]}
           (scenario.store (scenario.claudeSonnet None None))))
           [7; 0; 0; 0; 0]%nat ltac:(discriminate)
           ltac:(repeat constructor) ltac:(reflexivity))).
  reflexivity.
Defined.

End server_config.

(** ** The request sent to the gateway *)

Section upstream.
Context `{P : portkey_json} `{N : net_http}.
Implicit Types (hd : Header) (model : ModelConfig) (config : PortkeyConfig)
  (headers : list string) (n : string).

(** The commas and headers the loop of [joinBetaHeaders] appends after the
    first header. *)
Lemma joinBetaHeaders_from_S (i : nat) (result : string) headers :
  joinBetaHeaders_from (S i) result headers
  = result +:+ foldr (λ h rest, "," +:+ h +:+ rest) EmptyString headers.
Proof.
  revert i result. induction headers as [|h headers IH]; intros i result.
  - simpl. by rewrite append_nil_r.
  - cbn [joinBetaHeaders_from foldr]. rewrite bool_decide_eq_true_2 by lia.
    rewrite IH. by rewrite !append_assoc.
Qed.

Lemma concat_cons (h : string) headers :
  String.concat "," (h :: headers)
  = h +:+ foldr (λ h rest, "," +:+ h +:+ rest) EmptyString headers.
Proof.
  revert h. induction headers as [|h' headers IH]; intros h.
  - simpl. by rewrite append_nil_r.
  - change (String.concat "," (h :: h' :: headers))
      with (h +:+ "," +:+ String.concat "," (h' :: headers)).
    by rewrite IH.
Qed.

(** [joinBetaHeaders] is the join of the headers with commas: nothing for no
    header, the header itself for one, and no comma before the first or
    after the last. *)
Theorem joinBetaHeaders_concat headers :
  joinBetaHeaders headers = String.concat "," headers
  ∧ (∀ h rest, headers = h :: rest →
       joinBetaHeaders headers
       = h +:+ foldr (λ h rest, "," +:+ h +:+ rest) EmptyString rest)
  ∧ String.length (joinBetaHeaders headers)
    = (foldr (λ h (total : nat), String.length h + total) 0 headers + (length headers - 1))%nat.
Proof.
  assert (Hcons : ∀ h rest, joinBetaHeaders (h :: rest)
                    = h +:+ foldr (λ h rest, "," +:+ h +:+ rest) EmptyString rest).
  { intros h rest. unfold joinBetaHeaders. cbn [joinBetaHeaders_from].
    rewrite bool_decide_eq_false_2 by lia. by rewrite joinBetaHeaders_from_S. }
  split_and!.
  - destruct headers as [|h rest]; [done|]. by rewrite Hcons, concat_cons.
  - intros h rest ->. apply Hcons.
  - destruct headers as [|h rest]; [done|]. rewrite Hcons, append_length.
    assert (String.length (foldr (λ h rest, "," +:+ h +:+ rest) EmptyString rest)
            = (foldr (λ h (total : nat), String.length h + total) 0 rest
               + length rest)%nat) as ->.
    { induction rest as [|h' rest IH]; [done|].
      cbn [foldr length]. rewrite !append_length, IH. simpl. lia. }
    cbn [foldr length]. lia.
Qed.

Lemma joinBetaHeaders_concat_witness :
  joinBetaHeaders ["header1"; "header2"; "header3"]
  = "header1" +:+ foldr (λ h rest, "," +:+ h +:+ rest) EmptyString ["header2"; "header3"].
Proof.
  apply (proj1 (proj2 (joinBetaHeaders_concat ["header1"; "header2"; "header3"]))
           "header1" ["header2"; "header3"]).
  reflexivity.
Defined.

Ltac str_ne :=
  first [ assumption
        | apply not_eq_sym; assumption
        | apply String.eqb_neq; vm_compute; reflexivity ].

Ltac look :=
  repeat first [ rewrite lookup_insert_eq
               | rewrite lookup_insert_ne by str_ne ].

Lemma canonical_portkey :
  CanonicalHeaderKey "x-portkey-config" = "X-Portkey-Config"
  ∧ CanonicalHeaderKey "x-portkey-provider" = "X-Portkey-Provider"
  ∧ CanonicalHeaderKey "x-portkey-vertex-project-id" = "X-Portkey-Vertex-Project-Id"
  ∧ CanonicalHeaderKey "x-portkey-vertex-region" = "X-Portkey-Vertex-Region"
  ∧ CanonicalHeaderKey "x-portkey-anthropic-beta" = "X-Portkey-Anthropic-Beta".
Proof. by vm_compute. Qed.

(** What [setPortkeyHeaders] leaves in the header map. *)
Lemma setPortkeyHeaders_lookup hd config model configJSON :
  ToJSON config = Some configJSON →
  ∃ hd', setPortkeyHeaders hd config model = Some hd'
    ∧ hd' !! "X-Portkey-Config" = Some [configJSON]
    ∧ hd' !! "X-Portkey-Provider" = Some [getProviderFromConfig model]
    ∧ (∀ n, n ∈ ["X-Portkey-Vertex-Project-Id"; "X-Portkey-Vertex-Region"] →
         hd' !! n
         = if decide (getProviderFromConfig model = "vertex-ai")
           then Some [if decide (n = "X-Portkey-Vertex-Region")
                      then mc_VertexRegion model else mc_VertexProjectID model]
           else hd !! n)
    ∧ hd' !! "X-Portkey-Anthropic-Beta"
      = (if decide (getProviderFromConfig model = "anthropic" ∧ mc_BetaHeaders model ≠ [])
         then Some [joinBetaHeaders (mc_BetaHeaders model)]
         else hd !! "X-Portkey-Anthropic-Beta")
    ∧ (∀ n, n ∉ ["X-Portkey-Config"; "X-Portkey-Provider"; "X-Portkey-Vertex-Project-Id";
                 "X-Portkey-Vertex-Region"; "X-Portkey-Anthropic-Beta"] →
         hd' !! n = hd !! n).
Proof.
  intros Hj.
  assert (Hbeta : (0 < length (mc_BetaHeaders model))%nat ↔ mc_BetaHeaders model ≠ []).
  { generalize (mc_BetaHeaders model). intros [|b bs]; simpl; split; intros H.
    - lia.
    - congruence.
    - discriminate.
    - lia. }
  destruct canonical_portkey as (C1 & C2 & C3 & C4 & C5).
  unfold setPortkeyHeaders. rewrite Hj. unfold Header_Set.
  rewrite C1, C2, C3, C4, C5.
  set (provider := getProviderFromConfig model).
  destruct (decide (provider = "vertex-ai")) as [Hv|Hv];
    [rewrite (bool_decide_eq_true_2 _ Hv)|rewrite (bool_decide_eq_false_2 _ Hv)];
    (destruct (decide (provider = "anthropic" ∧ mc_BetaHeaders model ≠ [])) as [Hb|Hb];
     [rewrite (bool_decide_eq_true_2 (provider = "anthropic" ∧ _))
        by (by rewrite Hbeta)
     |rewrite (bool_decide_eq_false_2 (provider = "anthropic" ∧ _))
        by (by rewrite Hbeta)]);
    (eexists; split; [reflexivity|]); split_and!.
  all: try (intros n Hn; rewrite !elem_of_cons, elem_of_nil in Hn;
            destruct Hn as [->|[->|[]]]).
  all: try (intros n; rewrite !not_elem_of_cons; intros (N1 & N2 & N3 & N4 & N5 & _)).
  all: try rewrite (decide_False (P := "X-Portkey-Vertex-Project-Id" = "X-Portkey-Vertex-Region"))
         by str_ne.
  all: try rewrite (decide_True (P := "X-Portkey-Vertex-Region" = "X-Portkey-Vertex-Region"))
         by reflexivity.
  all: look; reflexivity.
Qed.


(** [setPortkeyHeaders] fails, setting nothing, exactly when the
    configuration cannot be encoded.  Otherwise it sets the configuration
    and provider headers, each to one value; the two Vertex headers exactly
    when the provider is vertex-ai; the beta header exactly when the
    provider is anthropic and the alias has beta headers; and it leaves
    every other header, and the Vertex and beta headers it does not set, as
    they were. *)
Theorem setPortkeyHeaders_sets hd config model :
  (ToJSON config = None ↔ setPortkeyHeaders hd config model = None)
  ∧ (∀ configJSON, ToJSON config = Some configJSON →
     ∃ hd', setPortkeyHeaders hd config model = Some hd'
       ∧ Header_Values hd' "x-portkey-config" = [configJSON]
       ∧ Header_Values hd' "x-portkey-provider" = [getProviderFromConfig model]
       ∧ (getProviderFromConfig model = "vertex-ai" →
          Header_Values hd' "x-portkey-vertex-project-id" = [mc_VertexProjectID model]
          ∧ Header_Values hd' "x-portkey-vertex-region" = [mc_VertexRegion model])
       ∧ (getProviderFromConfig model ≠ "vertex-ai" →
          Header_Values hd' "x-portkey-vertex-project-id"
            = Header_Values hd "x-portkey-vertex-project-id"
          ∧ Header_Values hd' "x-portkey-vertex-region"
            = Header_Values hd "x-portkey-vertex-region")
       ∧ Header_Values hd' "x-portkey-anthropic-beta"
         = (if decide (getProviderFromConfig model = "anthropic"
                       ∧ mc_BetaHeaders model ≠ [])
            then [joinBetaHeaders (mc_BetaHeaders model)]
            else Header_Values hd "x-portkey-anthropic-beta")
       ∧ (∀ n, n ∉ ["X-Portkey-Config"; "X-Portkey-Provider";
                    "X-Portkey-Vertex-Project-Id"; "X-Portkey-Vertex-Region";
                    "X-Portkey-Anthropic-Beta"] →
            hd' !! n = hd !! n)).
Proof.
  split.
  - unfold setPortkeyHeaders. destruct (ToJSON config); split; done.
  - intros configJSON Hj.
    destruct (setPortkeyHeaders_lookup hd config model configJSON Hj)
      as (hd' & Hs & Hc & Hp & Hv & Hb & Ho).
    destruct canonical_portkey as (C1 & C2 & C3 & C4 & C5).
    exists hd'. unfold Header_Values. rewrite C1, C2, C3, C4, C5.
    split_and!; [done|by rewrite Hc|by rewrite Hp| | | |done].
    + intros Hvx. rewrite !Hv by repeat constructor.
      rewrite !(decide_True (P := getProviderFromConfig model = "vertex-ai")) by exact Hvx.
      rewrite (decide_False (P := "X-Portkey-Vertex-Project-Id" = "X-Portkey-Vertex-Region"))
        by str_ne.
      rewrite (decide_True (P := "X-Portkey-Vertex-Region" = "X-Portkey-Vertex-Region"))
        by reflexivity.
      split; reflexivity.
    + intros Hvx. rewrite !Hv by repeat constructor.
      rewrite !(decide_False (P := getProviderFromConfig model = "vertex-ai")) by exact Hvx.
      split; reflexivity.
    + rewrite Hb. destruct (decide (_ ∧ _)); reflexivity.
Qed.

(** The request [handleProxyRequest] sends: the method and the body it is
    given, the gateway URL followed by the path, the deadline of the alias.
    Its configuration and provider headers hold the values of the proxy
    alone, whatever the caller sent under these names; no header of the
    hop-by-hop and credential set is in it; and every other header outside
    the five Portkey names is as [copyHeaders] left it.  When the request
    cannot be created or the configuration cannot be encoded the reply is
    500. *)
Theorem buildProxyRequest_headers (order : list (string * list string)) (r : Request)
    (body targetPath : string) model (store : ConfigStore) :
  (NewRequestWithContext (Method r) (GatewayURL store +:+ targetPath) = false
   ∨ ToJSON (buildPortkeyConfig model) = None →
     buildProxyRequest order r body targetPath model store
     = inr ("Internal server error", 500))
  ∧ (∀ configJSON,
     NewRequestWithContext (Method r) (GatewayURL store +:+ targetPath) = true →
     ToJSON (buildPortkeyConfig model) = Some configJSON →
     ∃ req, buildProxyRequest order r body targetPath model store = inl req
       ∧ px_Method req = Method r
       ∧ px_Body req = body
       ∧ px_URL req = GatewayURL store +:+ targetPath
       ∧ px_Timeout req = requestTimeout model
       ∧ Header_Values (px_Header req) "x-portkey-config" = [configJSON]
       ∧ Header_Values (px_Header req) "x-portkey-provider"
         = [getProviderFromConfig model]
       ∧ (∀ n, n ∈ hopByHopHeaders → px_Header req !! n = None)
       ∧ (∀ n, n ∉ ["X-Portkey-Config"; "X-Portkey-Provider";
                    "X-Portkey-Vertex-Project-Id"; "X-Portkey-Vertex-Region";
                    "X-Portkey-Anthropic-Beta"] →
            px_Header req !! n = copyHeaders_in order ∅ !! n)).
Proof.
  unfold buildProxyRequest. split.
  - intros [->|Hj]; [done|]. destruct (NewRequestWithContext _ _); [|done].
    simpl. unfold setPortkeyHeaders. by rewrite Hj.
  - intros configJSON -> Hj. simpl.
    destruct (setPortkeyHeaders_lookup (copyHeaders_in order ∅)
                (buildPortkeyConfig model) model configJSON Hj)
      as (hd' & -> & Hc & Hp & _ & _ & Ho).
    destruct canonical_portkey as (C1 & C2 & _).
    eexists. split; [reflexivity|]. simpl. unfold Header_Values. rewrite C1, C2.
    split_and!; [done..|by rewrite Hc|by rewrite Hp| |done].
    intros n Hn. rewrite Ho.
    + by rewrite copyHeaders_in_dropped.
    + apply elem_of_hopByHopHeaders in Hn.
      rewrite !elem_of_cons, elem_of_nil in Hn. rewrite !not_elem_of_cons.
      destruct Hn as [->|[->|[->|[->|[->|[->|[->|[->|[->|[->|[]]]]]]]]]]];
        split_and!; try str_ne; apply not_elem_of_nil.
Qed.

End upstream.

Section upstream_scenario.

(** A caller that sends its own configuration header, and a provider header,
    does not get them through. *)
Lemma buildProxyRequest_headers_witness :
  ∃ req, buildProxyRequest (H := scenario2.tablePortkeyJSON) (N := scenario2.tableHTTP)
           (map_to_list ({[ "X-Portkey-Config" := ["spoofed"];
                            "X-Portkey-Provider" := ["openai"];
                            "Content-Type" := ["application/json"] ]} : Header))
           (scenario.post scenario.helloBody) scenario.helloBody "/v1/messages"
           (scenario.claudeSonnet None None)
           (scenario.store (scenario.claudeSonnet None None)) = inl req
    ∧ Header_Values (px_Header req) "x-portkey-config" = [scenario2.claudeConfigJSON]
    ∧ Header_Values (px_Header req) "x-portkey-provider" = ["anthropic"].
Proof.
  destruct (proj2 (buildProxyRequest_headers (P := scenario2.tablePortkeyJSON)
              (N := scenario2.tableHTTP)
              (map_to_list ({[ "X-Portkey-Config" := ["spoofed"];
                               "X-Portkey-Provider" := ["openai"];
                               "Content-Type" := ["application/json"] ]} : Header))
              (scenario.post scenario.helloBody) scenario.helloBody "/v1/messages"
              (scenario.claudeSonnet None None)
              (scenario.store (scenario.claudeSonnet None None)))
              scenario2.claudeConfigJSON)
    as (req & Hreq & _ & _ & _ & _ & Hc & Hp & _).
  - reflexivity.
  - reflexivity.
  - exists req. split_and!; [exact Hreq|exact Hc|exact Hp].
Defined.

Lemma setPortkeyHeaders_sets_witness :
  ∃ hd', setPortkeyHeaders (H := scenario2.tablePortkeyJSON)
           ({[ "X-Portkey-Vertex-Region" := ["caller-region"] ]} : Header)
           (buildPortkeyConfig (scenario.claudeSonnet None None))
           (scenario.claudeSonnet None None) = Some hd'
    ∧ Header_Values hd' "x-portkey-vertex-region" = ["caller-region"].
Proof.
  destruct (proj2 (setPortkeyHeaders_sets (P := scenario2.tablePortkeyJSON)
              ({[ "X-Portkey-Vertex-Region" := ["caller-region"] ]} : Header)
              (buildPortkeyConfig (scenario.claudeSonnet None None))
              (scenario.claudeSonnet None None)) scenario2.claudeConfigJSON)
    as (hd' & Hs & _ & _ & _ & Hnv & _).
  - reflexivity.
  - exists hd'. split; [exact Hs|].
    destruct Hnv as [_ Hr]; [by vm_compute|]. rewrite Hr. reflexivity.
Defined.

End upstream_scenario.

(** ** The two proxied endpoints *)

Section endpoints.
Context `{J : encoding_json} `{F : float_conversion} `{C : chat_json}.
Implicit Types (store : ConfigStore) (r : Request).

(** [MessagesHandler] answers a method other than POST with 405 before it
    looks at the body; its error replies are 405, 413 and 400 only; and it
    calls the proxy only for a POST whose body is at most 10 MiB, decodes,
    and names in its model field a configured alias: then with the
    configuration of that alias, the path /v1/messages and the identity and
    request id of the context. *)
Theorem MessagesHandler_outcomes store r :
  (Method r ≠ "POST" → MessagesHandler store r = Reply "Method not allowed" 405)
  ∧ (∀ msg code, MessagesHandler store r = Reply msg code → code ∈ [405; 413; 400])
  ∧ (∀ body path modelConfig requestID application alias,
       MessagesHandler store r = Proxy body path modelConfig requestID application alias →
       Method r = "POST"
       ∧ Z.of_nat (String.length (ReqBody r)) ≤ maxBodySize
       ∧ path = "/v1/messages"
       ∧ alias ≠ EmptyString
       ∧ Models store !! alias = Some modelConfig
       ∧ (∃ req, unmarshalRequest (ReqBody r) = Some req ∧ mr_Model req = alias)
       ∧ requestID = default EmptyString (ctxRequestID r)
       ∧ application = default EmptyString (ctxApplication r)).
Proof.
  split_and!.
  - intros Hm. unfold MessagesHandler. by rewrite bool_decide_eq_true_2.
  - intros msg code. unfold MessagesHandler.
    case_bool_decide; [intros [= <- <-]; repeat constructor|].
    destruct (maxBodySize <? _); [intros [= <- <-]; repeat constructor|].
    destruct (unmarshalRequest (ReqBody r)) as [req|];
      [|intros [= <- <-]; repeat constructor].
    case_bool_decide; [intros [= <- <-]; repeat constructor|].
    destruct (Models store !! mr_Model req);
      [|intros [= <- <-]; repeat constructor].
    by destruct (ensureMaxTokens _ _ _).
  - intros body path modelConfig requestID application alias Hp.
    destruct (decide (Method r = "POST")) as [Hm|Hm].
    2:{ unfold MessagesHandler in Hp. by rewrite bool_decide_eq_true_2 in Hp. }
    destruct (Z.leb_spec (Z.of_nat (String.length (ReqBody r))) maxBodySize) as [Hsz|Hsz].
    2:{ unfold MessagesHandler in Hp.
        rewrite bool_decide_eq_false_2 in Hp by (intros H; by apply H).
        by rewrite (proj2 (Z.ltb_lt _ _)) in Hp. }
    destruct (unmarshalRequest (ReqBody r)) as [req|] eqn:Hreq.
    2:{ unfold MessagesHandler in Hp.
        rewrite bool_decide_eq_false_2 in Hp by (intros H; by apply H).
        rewrite (proj2 (Z.ltb_ge _ _)) in Hp by done. by rewrite Hreq in Hp. }
    destruct (decide (mr_Model req = EmptyString)) as [He|He].
    { unfold MessagesHandler in Hp.
      rewrite bool_decide_eq_false_2 in Hp by (intros H; by apply H).
      rewrite (proj2 (Z.ltb_ge _ _)) in Hp by done. rewrite Hreq in Hp.
      by rewrite bool_decide_eq_true_2 in Hp. }
    destruct (Models store !! mr_Model req) as [cfg|] eqn:Hcfg.
    2:{ unfold MessagesHandler in Hp.
        rewrite bool_decide_eq_false_2 in Hp by (intros H; by apply H).
        rewrite (proj2 (Z.ltb_ge _ _)) in Hp by done. rewrite Hreq in Hp.
        rewrite bool_decide_eq_false_2 in Hp by done. by rewrite Hcfg in Hp. }
    rewrite (MessagesHandler_proxies store r req cfg Hm Hsz Hreq He Hcfg) in Hp.
    injection Hp as <- <- <- <- <- <-.
    split_and!; try done. by exists req.
Qed.

(** [ChatCompletionsHandler] never touches the body: when it calls the proxy
    it passes the body it received, byte for byte, with the path
    /v1/chat/completions and the configuration of the alias the model field
    names; it does so only for a POST whose body is at most 10 MiB and
    decodes; its error replies are 405, 413 and 400 only. *)
Theorem ChatCompletionsHandler_outcomes store r :
  (Method r ≠ "POST" → ChatCompletionsHandler store r = Reply "Method not allowed" 405)
  ∧ (∀ msg code, ChatCompletionsHandler store r = Reply msg code →
       code ∈ [405; 413; 400])
  ∧ (∀ body path modelConfig requestID application alias,
       ChatCompletionsHandler store r
       = Proxy body path modelConfig requestID application alias →
       body = ReqBody r
       ∧ Method r = "POST"
       ∧ Z.of_nat (String.length (ReqBody r)) ≤ maxBodySize
       ∧ path = "/v1/chat/completions"
       ∧ alias ≠ EmptyString
       ∧ Models store !! alias = Some modelConfig
       ∧ (∃ req, unmarshalChat (ReqBody r) = Some req ∧ cc_Model req = alias)
       ∧ requestID = default EmptyString (ctxRequestID r)
       ∧ application = default EmptyString (ctxApplication r)).
Proof.
  unfold ChatCompletionsHandler. split_and!.
  - intros Hm. by rewrite bool_decide_eq_true_2.
  - intros msg code.
    case_bool_decide; [intros [= <- <-]; repeat constructor|].
    destruct (maxBodySize <? _); [intros [= <- <-]; repeat constructor|].
    destruct (unmarshalChat (ReqBody r)) as [req|];
      [|intros [= <- <-]; repeat constructor].
    case_bool_decide; [intros [= <- <-]; repeat constructor|].
    by destruct (Models store !! cc_Model req);
      [|intros [= <- <-]; repeat constructor].
  - intros body path modelConfig requestID application alias.
    case_bool_decide as Hm; [done|].
    destruct (Z.ltb_spec maxBodySize (Z.of_nat (String.length (ReqBody r)))) as [Hsz|Hsz];
      [done|].
    destruct (unmarshalChat (ReqBody r)) as [req|] eqn:Hreq; [|done].
    case_bool_decide as He; [done|].
    destruct (Models store !! cc_Model req) as [cfg|] eqn:Hcfg; [|done].
    intros [= <- <- <- <- <- <-]. split_and!; try done. by exists req.
Qed.

End endpoints.

Section endpoints_scenario.
#[local] Existing Instance scenario.amd64.

Lemma MessagesHandler_outcomes_witness :
  MessagesHandler (J := scenario.tableJSON)
    (scenario.store (scenario.claudeSonnet None None))
    (scenario2.get "/v1/messages") = Reply "Method not allowed" 405.
Proof.
  apply (proj1 (MessagesHandler_outcomes (J := scenario.tableJSON)
                  (scenario.store (scenario.claudeSonnet None None))
                  (scenario2.get "/v1/messages"))).
  discriminate.
Defined.

Lemma ChatCompletionsHandler_outcomes_witness :
  scenario.helloBody = ReqBody (scenario.post scenario.helloBody).
Proof.
  apply (proj2 (proj2 (ChatCompletionsHandler_outcomes (C := scenario2.tableChatJSON)
                  (scenario.store (scenario.claudeSonnet None None))
                  (scenario.post scenario.helloBody)))
           scenario.helloBody "/v1/chat/completions" (scenario.claudeSonnet None None)
           "20240102030405-abcdefgh" "DEV" "claude-sonnet").
  reflexivity.
Defined.

End endpoints_scenario.

(** ** Header forwarding, continued *)

Section headers_more.
Implicit Types (src dst : Header) (order : list (string * list string)).

Lemma copyEntry_nonempty dst kv :
  wellformed.nonemptyValues dst → wellformed.nonemptyValues (copyEntry dst kv).
Proof.
  intros Hdst n vs. unfold copyEntry. case_bool_decide; [apply Hdst|].
  rewrite add_values_lookup. case_decide; [|apply Hdst].
  destruct kv.2 as [|v l] eqn:Hkv; [apply Hdst|].
  intros [= <-]. by destruct (default [] (dst !! n)).
Qed.

Lemma copyHeaders_in_nonempty order dst :
  wellformed.nonemptyValues dst → wellformed.nonemptyValues (copyHeaders_in order dst).
Proof.
  unfold copyHeaders_in. revert dst.
  induction order as [|kv order IH]; intros dst Hdst; [done|].
  simpl. apply IH. by apply copyEntry_nonempty.
Qed.

(** When the keys of the inbound map are canonical, as [net/http] delivers
    them, [copyHeaders] into an empty map gives the same map whatever the
    order its range visits the keys in: the inbound map without the keys of
    the fixed set (and without keys that have no value). *)
Theorem copyHeaders_order_independent src order :
  order ≡ₚ map_to_list src →
  (∀ k, k ∈ dom src → CanonicalHeaderKey k = k) →
  (copyHeaders_in order ∅
   = filter (λ kv, (kv.1 ∉ hopByHopHeaders) ∧ kv.2 ≠ []) src)
  ∧ copyHeaders_in order ∅ = copyHeaders src ∅.
Proof.
  intros Hperm Hcanon.
  assert (Hgen : ∀ order', order' ≡ₚ map_to_list src →
            (copyHeaders_in order' ∅
             = filter (λ kv, (kv.1 ∉ hopByHopHeaders) ∧ kv.2 ≠ []) src)).
  { intros order' Hperm'. apply map_eq. intros n. apply option_eq. intros vs.
    rewrite map_lookup_filter_Some. simpl.
    pose proof (copyHeaders_in_canonical src order' n Hperm' Hcanon) as Hval.
    pose proof (copyHeaders_in_nonempty order' ∅) as Hne.
    split.
    - intros Hout. assert (vs ≠ []) as Hvs.
      { eapply Hne; [|exact Hout]. intros ? ?. by rewrite lookup_empty. }
      rewrite Hout in Hval. simpl in Hval. case_decide as Hhop; [done|].
      destruct (src !! n) as [vs'|]; simpl in Hval; [|done]. by subst.
    - intros (Hsrc & Hhop & Hvs). rewrite Hsrc, decide_False in Hval by done.
      simpl in Hval. destruct (copyHeaders_in order' ∅ !! n); simpl in Hval; by subst. }
  split; [by apply Hgen|]. rewrite (Hgen order Hperm). symmetry. by apply Hgen.
Qed.

Lemma copyHeaders_order_independent_witness :
  copyHeaders_in
    (reverse (map_to_list ({[ "Accept" := ["*/*"]; "Authorization" := ["Bearer x"];
                              "Content-Type" := ["application/json"] ]} : Header))) ∅
  = copyHeaders ({[ "Accept" := ["*/*"]; "Authorization" := ["Bearer x"];
                    "Content-Type" := ["application/json"] ]} : Header) ∅.
Proof.
  refine (proj2 (copyHeaders_order_independent
           ({[ "Accept" := ["*/*"]; "Authorization" := ["Bearer x"];
               "Content-Type" := ["application/json"] ]} : Header) _ _ _)).
  - apply reverse_Permutation.
  - intros k. rewrite !dom_insert_L, dom_singleton_L, !elem_of_union, !elem_of_singleton.
    intros [ -> | [ -> | -> ] ]; reflexivity.
Defined.

End headers_more.

(** ** The list of models *)

Section models_list.
Implicit Types (store : ConfigStore) (r : Request) (order : list (string * ModelConfig)).

(** [ModelsHandler] answers a method other than GET with 405.  To a GET it
    lists every configured alias exactly once, in the order its range
    visits the map, each as a model owned by portus and created at the
    start time of the server; nothing of the configuration of the alias is
    in the list. *)
Theorem ModelsHandler_lists_aliases store order (created : Z) r :
  order ≡ₚ map_to_list (Models store) →
  (Method r ≠ "GET" → ModelsHandler_in order created r = inl ("Method not allowed", 405))
  ∧ (Method r = "GET" →
     ∃ resp, ModelsHandler_in order created r = inr resp
       ∧ ml_Object resp = "list"
       ∧ mo_ID <$> ml_Data resp = order.*1
       ∧ NoDup (mo_ID <$> ml_Data resp)
       ∧ length (ml_Data resp) = size (Models store)
       ∧ (∀ alias, alias ∈ (mo_ID <$> ml_Data resp) ↔ is_Some (Models store !! alias))
       ∧ Forall (λ mo, mo_Object mo = "model" ∧ mo_Created mo = created
                       ∧ mo_OwnedBy mo = "portus") (ml_Data resp)).
Proof.
  intros Hperm. unfold ModelsHandler_in. split.
  - intros Hm. by rewrite bool_decide_eq_true_2.
  - intros Hm. rewrite bool_decide_eq_false_2 by (intros H; by apply H).
    eexists. split; [reflexivity|]. cbn [ml_Object ml_Data].
    rewrite (foldl_snoc_fmap
               (λ kv : string * ModelConfig,
                  {| mo_ID := kv.1; mo_Object := "model"; mo_Created := created;
                     mo_OwnedBy := "portus" |}) [] order).
    rewrite app_nil_l, <- list_fmap_compose.
    assert (Hids : (mo_ID ∘ (λ kv : string * ModelConfig,
                      {| mo_ID := kv.1; mo_Object := "model"; mo_Created := created;
                         mo_OwnedBy := "portus" |})) <$> order = order.*1)
      by (by apply list_fmap_ext).
    rewrite Hids. split_and!.
    + done.
    + done.
    + rewrite Hperm. apply NoDup_fst_map_to_list.
    + by rewrite length_fmap, Hperm, length_map_to_list.
    + intros alias. rewrite Hperm, list_elem_of_fmap. split.
      * intros ([k m] & -> & Hin). apply elem_of_map_to_list in Hin. eauto.
      * intros [m Hm']. exists (alias, m). split; [done|].
        by apply elem_of_map_to_list.
    + apply Forall_fmap, Forall_forall. done.
Qed.

Lemma ModelsHandler_lists_aliases_witness :
  ∃ resp, ModelsHandler (scenario.store (scenario.claudeSonnet None None)) 1700000000
            (scenario2.get "/v1/models") = inr resp
          ∧ ml_Object resp = "list"
          ∧ mo_ID <$> ml_Data resp
            = (map_to_list (Models (scenario.store (scenario.claudeSonnet None None)))).*1.
Proof.
  destruct (proj2 (ModelsHandler_lists_aliases
              (scenario.store (scenario.claudeSonnet None None))
              (map_to_list (Models (scenario.store (scenario.claudeSonnet None None))))
              1700000000 (scenario2.get "/v1/models") (reflexivity _)) eq_refl)
    as (resp & Hr & Ho & Hids & _).
  exists resp. split_and!; [exact Hr|exact Ho|exact Hids].
Defined.

End models_list.

(** ** The provider named to the gateway *)

Section provider.
Implicit Types (model : ModelConfig).

(** The provider header and the configuration agree for a single-provider
    alias: both hold its provider.  For a strategy alias without a
    top-level provider the header names the provider of the first target,
    which is the first target of the configuration.  With neither provider
    nor target the header says unknown. *)
Theorem provider_header_and_config model :
  (mc_Strategy model = None → mc_Provider model ≠ EmptyString →
     getProviderFromConfig model = pc_Provider (buildPortkeyConfig model))
  ∧ (∀ strategy t ts, mc_Strategy model = Some strategy →
       mc_Provider model = EmptyString → mc_Targets model = t :: ts →
       getProviderFromConfig model = tc_Provider t
       ∧ head (pc_Targets (buildPortkeyConfig model)) = Some t)
  ∧ (mc_Provider model = EmptyString → mc_Targets model = [] →
     getProviderFromConfig model = "unknown").
Proof.
  unfold getProviderFromConfig, buildPortkeyConfig. split_and!.
  - intros -> Hp. by rewrite bool_decide_eq_true_2.
  - intros strategy t ts -> -> ->. by rewrite bool_decide_eq_false_2 by (intros H; by apply H).
  - intros -> ->. by rewrite bool_decide_eq_false_2 by (intros H; by apply H).
Qed.

Lemma provider_header_and_config_witness :
  getProviderFromConfig
    (scenario.strategyModel "fallback"
       [scenario.target "openai" "sk-1"; scenario.target "anthropic" "sk-2"])
  = "openai"
  ∧ getProviderFromConfig scenario.bedrockModel
    = pc_Provider (buildPortkeyConfig scenario.bedrockModel).
Proof.
  split.
  - apply (proj1 (proj2 (provider_header_and_config
             (scenario.strategyModel "fallback"
                [scenario.target "openai" "sk-1"; scenario.target "anthropic" "sk-2"])))
             {| Mode := "fallback"; st_OnStatusCodes := [] |}
             (scenario.target "openai" "sk-1") [scenario.target "anthropic" "sk-2"]);
      reflexivity.
  - apply (proj1 (provider_header_and_config scenario.bedrockModel)).
    + reflexivity.
    + discriminate.
Defined.

End provider.

(** ** The thinking directive *)

Section thinking.
Context `{J : encoding_json} `{F : float_conversion}.
Implicit Types (store : ConfigStore) (r : Request) (req : MessagesRequest).

(** On /v1/messages, for a request that is forwarded, when the alias
    declares a thinking directive and the caller sent none:
    - if the caller sent max_tokens, the body received decodes into a map
      and the map with the directive under thinking encodes, that encoding
      is the body forwarded;
    - if the caller sent no max_tokens, the thinking pass works on what the
      token-budget pass left: when the body received decodes, the map with
      the budget encodes, that encoding decodes again and the map it gives,
      with the directive under thinking, encodes, this last encoding is the
      body forwarded; and when [encoding/json] gives back the integer it
      encoded and the budget has at most 53 bits, the map encoded last holds
      the budget under max_tokens and the directive under thinking. *)
Theorem MessagesHandler_thinking store r req modelConfig th :
  Method r = "POST" →
  Z.of_nat (String.length (ReqBody r)) ≤ maxBodySize →
  unmarshalRequest (ReqBody r) = Some req →
  mr_Model req ≠ EmptyString →
  Models store !! mr_Model req = Some modelConfig →
  mc_Thinking modelConfig = Some th →
  mr_Thinking req = None →
  let v := match spec.numericOverride "max_tokens" modelConfig with
           | Some mt => if decide (int_of_float64 mt = 0) then 4096 else int_of_float64 mt
           | None => 4096
           end in
  (∀ bodyMap updated,
     mr_MaxTokens req ≠ 0 →
     unmarshalMap (ReqBody r) = Some bodyMap →
     marshalMap (<["thinking" := Thinking th]> bodyMap) = Some updated →
     MessagesHandler store r
     = Proxy updated "/v1/messages" modelConfig
             (default EmptyString (ctxRequestID r))
             (default EmptyString (ctxApplication r)) (mr_Model req))
  ∧ (∀ bodyMap withBudget budgetMap updated,
     mr_MaxTokens req = 0 →
     unmarshalMap (ReqBody r) = Some bodyMap →
     marshalMap (<["max_tokens" := Int v]> bodyMap) = Some withBudget →
     unmarshalMap withBudget = Some budgetMap →
     marshalMap (<["thinking" := Thinking th]> budgetMap) = Some updated →
     MessagesHandler store r
     = Proxy updated "/v1/messages" modelConfig
             (default EmptyString (ctxRequestID r))
             (default EmptyString (ctxApplication r)) (mr_Model req)
     ∧ (wellformed.budgetRoundTrip → Z.abs v ≤ 2^53 →
        <["thinking" := Thinking th]> budgetMap !! "max_tokens"
        = Some (Float64 (inject_Z v))
        ∧ <["thinking" := Thinking th]> budgetMap !! "thinking"
          = Some (Thinking th))).
Proof.
  intros Hm Hsz Hreq Hmodel Hcfg Hth Hnone v.
  rewrite (MessagesHandler_proxies store r req modelConfig Hm Hsz Hreq Hmodel Hcfg).
  fold (spec.resolvedMaxTokens modelConfig) in v. subst v. split.
  - intros bodyMap updated Hmt Hu Hmar.
    rewrite ensureMaxTokens_nonzero by done. cbn [fst snd].
    unfold injectThinking. rewrite Hth, Hnone.
    by rewrite (updateBody_ok _ _ _ bodyMap updated Hu Hmar).
  - intros bodyMap withBudget budgetMap updated Hmt Hu Hmar Hu' Hmar'.
    rewrite ensureMaxTokens_zero by done. cbn [fst snd].
    rewrite (updateBody_ok _ _ _ bodyMap withBudget Hu Hmar).
    unfold injectThinking. rewrite Hth.
    replace (mr_Thinking (setMaxTokens (spec.resolvedMaxTokens modelConfig) req))
      with (mr_Thinking req) by (by destruct req).
    rewrite Hnone. rewrite (updateBody_ok _ _ _ budgetMap updated Hu' Hmar').
    split; [done|]. intros Hrt Hv. split; [|apply lookup_insert_eq].
    rewrite lookup_insert_ne by (apply String.eqb_neq; vm_compute; reflexivity).
    apply (Hrt _ _ _ _ Hmar Hu'); [apply lookup_insert_eq|done].
Qed.

End thinking.

Section thinking_scenario.
#[local] Existing Instance scenario.amd64.

Lemma tableJSONBoth_roundTrip : wellformed.budgetRoundTrip (J := scenario2.tableJSONBoth).
Proof.
  intros m m' b n Hmar Hu Hl _. cbn in Hmar. rewrite Hl in Hmar.
  destruct (decide (n = 4096)) as [->|Hn].
  - destruct (m !! "thinking"); [done|]. injection Hmar as <-.
    vm_compute in Hu. injection Hu as <-. reflexivity.
  - exfalso. destruct n as [|p|p]; try done.
    do 13 (destruct p as [p|p|]; try done).
Qed.

Lemma MessagesHandler_thinking_witness :
  MessagesHandler (J := scenario2.tableJSONBoth)
    (scenario.store (scenario.claudeSonnet None (Some scenario.thinking)))
    (scenario.post scenario.helloBody)
  = Proxy scenario2.helloBodyBoth "/v1/messages"
      (scenario.claudeSonnet None (Some scenario.thinking))
      "20240102030405-abcdefgh" "DEV" "claude-sonnet"
  ∧ <["thinking" := Thinking scenario.thinking]> scenario2.helloMap4096 !! "max_tokens"
    = Some (Float64 (inject_Z 4096)).
Proof.
  destruct (proj2 (MessagesHandler_thinking (J := scenario2.tableJSONBoth)
            (scenario.store (scenario.claudeSonnet None (Some scenario.thinking)))
            (scenario.post scenario.helloBody) (scenario.messagesRequest 0)
            (scenario.claudeSonnet None (Some scenario.thinking)) scenario.thinking
            eq_refl ltac:(vm_compute; discriminate) eq_refl ltac:(discriminate)
            eq_refl eq_refl eq_refl)
          scenario.helloMap scenario.helloBody4096 scenario2.helloMap4096
          scenario2.helloBodyBoth eq_refl eq_refl eq_refl eq_refl eq_refl)
    as [Hp Hboth].
  split; [exact Hp|].
  apply Hboth; [apply tableJSONBoth_roundTrip|vm_compute; discriminate].
Defined.

End thinking_scenario.
